(** * Retry executor and job scheduler of the hospital-management backend

    A shallow embedding of [app/core/etl_error_handling.py], of the
    history-keeping part of [app/core/scheduler.py] and of the orchestrator
    of [app/core/synapse_integration.py], with the properties their
    specification states about them.

    Conventions of the model.
    - Python [int] is [Z]; [str] is [string] (8-bit characters, [lower]
      acting on the ASCII letters).
    - A [float] is the rational it stands for: the results of float
      operations are not rounded, and a power whose value leaves the range
      of binary64 raises [OverflowError] as [float.__pow__] does. The fields
      of a [RetryConfig] are finite floats.
    - Free-form dictionaries are [gmap string value]; the fixed-shape
      dictionary that [log_error] stores is the record [LogEntry].
    - The clock, the random generator and the wrapped work function are
      oracles indexed by the number of earlier uses, which the [World]
      counts; [asyncio.sleep] appends its argument to the [slept] trace.
    - The levels for which the module's [logger] is enabled are part of the
      environment. A [logger] call without [extra] only emits a line; the
      one call with [extra], in [log_error], goes through the check that
      [Logger.makeRecord] makes on the keys of [extra].
    - Exceptions that are not an [Exception] (cancellation, interrupts)
      are not modelled. *)

From Stdlib Require Import ZArith QArith Qminmax Qpower Qabs Lqa String Ascii.
From stdpp Require Import base option list gmap strings.

Local Open Scope string_scope.
Local Open Scope list_scope.
Local Open Scope Z_scope.

(** ** Python values and helpers *)

#[warnings="-register-all"]
Inductive value : Type :=
| VNone
| VInt (z : Z)
| VStr (s : string)
| VDict (d : gmap string value).

Abbreviation dict := (gmap string value).

(** [l[start:]] for a Python list. *)
Definition slice_from {A} (start : Z) (l : list A) : list A :=
  let n := Z.of_nat (length l) in
  if start <? 0 then drop (Z.to_nat (Z.max (n + start) 0)) l
  else drop (Z.to_nat (Z.min start n)) l.

(** [s[:n]] for a Python string and [n >= 0]. *)
Fixpoint str_take (n : nat) (s : string) : string :=
  match n, s with
  | S n', String c s' => String c (str_take n' s')
  | _, _ => EmptyString
  end.

Definition lower_ascii (c : ascii) : ascii :=
  let n := N_of_ascii c in
  if ((65 <=? n) && (n <=? 90))%N then ascii_of_N (n + 32) else c.

(** [s.lower()] *)
Fixpoint lower (s : string) : string :=
  match s with
  | EmptyString => EmptyString
  | String c s' => String (lower_ascii c) (lower s')
  end.

(** [needle in hay] *)
Fixpoint contains (needle hay : string) : bool :=
  String.prefix needle hay ||
  match hay with
  | EmptyString => false
  | String _ hay' => contains needle hay'
  end.

(** What a call of Python code produces. *)
Inductive outcome (A : Type) : Type :=
| Returns (a : A)
| Raises (msg : string).
Arguments Returns {A} a.
Arguments Raises {A} msg.

(** ** [etl_error_handling.py] *)

Inductive ETLErrorType : Type :=
| DATABASE_CONNECTION
| DATA_VALIDATION
| AZURE_SERVICE
| PIPELINE_EXECUTION
| DATA_EXPORT
| NETWORK_TIMEOUT
| AUTHENTICATION
| RESOURCE_LIMIT
| UNKNOWN.

Definition ETLErrorType_value (t : ETLErrorType) : string :=
  match t with
  | DATABASE_CONNECTION => "database_connection"
  | DATA_VALIDATION => "data_validation"
  | AZURE_SERVICE => "azure_service"
  | PIPELINE_EXECUTION => "pipeline_execution"
  | DATA_EXPORT => "data_export"
  | NETWORK_TIMEOUT => "network_timeout"
  | AUTHENTICATION => "authentication"
  | RESOURCE_LIMIT => "resource_limit"
  | UNKNOWN => "unknown"
  end.

Global Instance ETLErrorType_eq_dec : EqDecision ETLErrorType.
Proof. solve_decision. Defined.

Definition ETLErrorType_index (t : ETLErrorType) : nat :=
  match t with
  | DATABASE_CONNECTION => 0 | DATA_VALIDATION => 1 | AZURE_SERVICE => 2
  | PIPELINE_EXECUTION => 3 | DATA_EXPORT => 4 | NETWORK_TIMEOUT => 5
  | AUTHENTICATION => 6 | RESOURCE_LIMIT => 7 | UNKNOWN => 8
  end%nat.

Definition ETLErrorType_of_index (n : nat) : ETLErrorType :=
  match n with
  | 0 => DATABASE_CONNECTION | 1 => DATA_VALIDATION | 2 => AZURE_SERVICE
  | 3 => PIPELINE_EXECUTION | 4 => DATA_EXPORT | 5 => NETWORK_TIMEOUT
  | 6 => AUTHENTICATION | 7 => RESOURCE_LIMIT | _ => UNKNOWN
  end%nat.

Global Instance ETLErrorType_countable : Countable ETLErrorType.
Proof.
  refine (inj_countable' ETLErrorType_index ETLErrorType_of_index _).
  by intros [].
Defined.

Inductive ETLErrorSeverity : Type := LOW | MEDIUM | HIGH | CRITICAL.

Definition ETLErrorSeverity_value (s : ETLErrorSeverity) : string :=
  match s with
  | LOW => "low" | MEDIUM => "medium" | HIGH => "high" | CRITICAL => "critical"
  end.

Global Instance ETLErrorSeverity_eq_dec : EqDecision ETLErrorSeverity.
Proof. solve_decision. Defined.

(** [ETLError]: the exception [handle_error_with_retry] raises. *)
Record ETLError : Type := mkETLError {
  message : string;
  error_type : ETLErrorType;
  severity : ETLErrorSeverity;
  details : dict;
  retry_after : option Z;
  timestamp : string
}.

(** The dictionary [log_error] appends: [ETLError.to_dict()] extended with
    ["context"] and ["logged_at"]. *)
Record LogEntry : Type := mkLogEntry {
  e_message : string;
  e_error_type : string;
  e_severity : string;
  e_details : dict;
  e_retry_after : option Z;
  e_timestamp : string;
  e_context : dict;
  e_logged_at : string
}.

Record RetryConfig : Type := mkRetryConfig {
  max_attempts : Z;
  base_delay : Q;
  max_delay : Q;
  exponential_base : Q;
  jitter : bool
}.

(** [RetryConfig(max_attempts=3, base_delay=1.0)] with the other defaults. *)
Definition RetryConfig_init (attempts : Z) (base : Q) : RetryConfig :=
  mkRetryConfig attempts base 60 2 true.

Record ETLErrorHandler : Type := mkETLErrorHandler {
  error_history : list LogEntry;
  max_history_size : Z;
  retry_configs : gmap ETLErrorType RetryConfig
}.

(** [ETLErrorHandler.__init__] *)
Definition default_retry_configs : gmap ETLErrorType RetryConfig :=
  <[DATABASE_CONNECTION := RetryConfig_init 5 2]>
  (<[AZURE_SERVICE := RetryConfig_init 4 5]>
  (<[NETWORK_TIMEOUT := RetryConfig_init 3 1]>
  (<[PIPELINE_EXECUTION := RetryConfig_init 2 10]>
  (<[DATA_EXPORT := RetryConfig_init 3 3]>
  (<[AUTHENTICATION := RetryConfig_init 2 5]>
  (<[RESOURCE_LIMIT := RetryConfig_init 1 30]>
  (<[DATA_VALIDATION := RetryConfig_init 1 1]>
  (<[UNKNOWN := RetryConfig_init 2 5]> ∅)))))))).

Definition ETLErrorHandler_init : ETLErrorHandler :=
  mkETLErrorHandler [] 1000 default_retry_configs.

(** [classify_error], on [str(error)]. *)
Definition classify_error (error : string) : ETLErrorType :=
  let error_message := lower error in
  if contains "connection" error_message || contains "database" error_message
  then DATABASE_CONNECTION
  else if contains "azure" error_message || contains "blob" error_message
          || contains "synapse" error_message
  then AZURE_SERVICE
  else if contains "timeout" error_message || contains "timed out" error_message
  then NETWORK_TIMEOUT
  else if contains "pipeline" error_message || contains "data factory" error_message
  then PIPELINE_EXECUTION
  else if contains "export" error_message || contains "upload" error_message
  then DATA_EXPORT
  else if contains "auth" error_message || contains "credential" error_message
          || contains "permission" error_message
  then AUTHENTICATION
  else if contains "limit" error_message || contains "quota" error_message
          || contains "throttle" error_message
  then RESOURCE_LIMIT
  else if contains "validation" error_message || contains "invalid" error_message
  then DATA_VALIDATION
  else UNKNOWN.

Definition determine_severity (t : ETLErrorType) : ETLErrorSeverity :=
  match t with
  | DATABASE_CONNECTION => HIGH
  | AZURE_SERVICE => HIGH
  | PIPELINE_EXECUTION => HIGH
  | AUTHENTICATION => CRITICAL
  | RESOURCE_LIMIT => MEDIUM
  | NETWORK_TIMEOUT => MEDIUM
  | DATA_EXPORT => MEDIUM
  | DATA_VALIDATION => LOW
  | UNKNOWN => MEDIUM
  end.

(** Exceptions that leave the methods modelled here. *)
Inductive exn : Type :=
| ExcETLError (e : ETLError)
| ExcKeyError (key : string)
| ExcAttributeError (name : string)
| ExcOverflowError
| ExcZeroDivisionError.

Inductive result (A : Type) : Type :=
| Ok (a : A)
| Raise (e : exn).
Arguments Ok {A} a.
Arguments Raise {A} e.

(** The levels at which this module calls its [logger]. *)
Module logging.
Inductive level : Type := INFO | WARNING | ERROR | CRITICAL.
End logging.

(** The environment of one run: the n-th clock reading in ISO form
    ([isoformat()]) and in the form [strftime('%Y%m%d_%H%M%S')], the n-th
    value of [random.random()], and [logger.isEnabledFor]. *)
Record Env : Type := mkEnv {
  utcnow : nat -> string;
  utcnow_compact : nat -> string;
  random : nat -> Q;
  isEnabledFor : logging.level -> bool
}.

Record World : Type := mkWorld {
  clock : nat;
  draws : nat;
  calls : nat;
  slept : list Q
}.

Definition World_init : World := mkWorld 0 0 0 [].

Definition tick (w : World) : World :=
  mkWorld (S (clock w)) (draws w) (calls w) (slept w).
Definition drawn (w : World) : World :=
  mkWorld (clock w) (S (draws w)) (calls w) (slept w).
Definition called (w : World) : World :=
  mkWorld (clock w) (draws w) (S (calls w)) (slept w).
Definition sleep (delay : Q) (w : World) : World :=
  mkWorld (clock w) (draws w) (calls w) (slept w ++ [delay]).

(** What [func(...)] hands back when the call itself does not
    raise: an awaitable, with what awaiting it does, or an object that
    [await] refuses with a [TypeError] of the given message. *)
Inductive returned (A : Type) : Type :=
| Awaitable (r : outcome A)
| NotAwaitable (type_error : string).
Arguments Awaitable {A} r.
Arguments NotAwaitable {A} type_error.

(** A work function: any callable. [fn_name] is its [__name__] when it has
    one ([functools.partial] objects have none), [fn_str] is [str(func)],
    and [fn_call n] is what its n-th invocation does. *)
Record Callable (A : Type) : Type := mkCallable {
  fn_name : option string;
  fn_str : string;
  fn_call : nat -> outcome (returned A)
}.
Arguments mkCallable {A} fn_name fn_str fn_call.
Arguments fn_name {A} c.
Arguments fn_str {A} c.
Arguments fn_call {A} c n.

(** [await func(...)], as the [try] block sees it: the value,
    or the message of the exception raised by the call or by [await]. *)
Definition await_call {A} (func : Callable A) (n : nat) : outcome A :=
  match fn_call func n with
  | Raises msg => Raises msg
  | Returns (Awaitable r) => r
  | Returns (NotAwaitable type_error) => Raises type_error
  end.

(** [func.__name__] where the source reads it without a guard. *)
Definition __name__ {A} (func : Callable A) : result string :=
  match fn_name func with
  | Some name => Ok name
  | None => Raise (ExcAttributeError "__name__")
  end.

(** The magnitude from which a binary64 result rounds to infinity. *)
Definition float_overflow : Q := inject_Z (2 ^ 1024 - 2 ^ 970).

(** [x ** n] for a float [x] and an [int] [n]. *)
Definition float_pow (x : Q) (n : Z) : result Q :=
  if (n <? 0) && Qeq_bool x 0 then Raise ExcZeroDivisionError
  else
    let p := (x ^ n)%Q in
    if Qle_bool float_overflow (Qabs p) then Raise ExcOverflowError else Ok p.

(** The delay of [calculate_delay] before jitter. *)
Definition capped_delay (attempt : Z) (config : RetryConfig) : result Q :=
  match float_pow (exponential_base config) (attempt - 1) with
  | Raise e => Raise e
  | Ok p =>
    let delay := (base_delay config * p)%Q in
    Ok (Qmin delay (max_delay config))
  end.

Definition calculate_delay (E : Env) (attempt : Z) (config : RetryConfig)
    (w : World) : result Q * World :=
  match capped_delay attempt config with
  | Raise e => (Raise e, w)
  | Ok delay =>
    if jitter config
    then (Ok (delay * ((1 # 2) + random E (draws w) * (1 # 2)))%Q, drawn w)
    else (Ok delay, w)
  end.

(** [self.retry_configs.get(error_type, self.retry_configs[UNKNOWN])]:
    the default is evaluated first, as Python does. *)
Definition config_for (self : ETLErrorHandler) (t : ETLErrorType)
    : result RetryConfig :=
  match retry_configs self !! UNKNOWN with
  | None => Raise (ExcKeyError (ETLErrorType_value UNKNOWN))
  | Some fallback => Ok (default fallback (retry_configs self !! t))
  end.

Definition should_retry (self : ETLErrorHandler) (t : ETLErrorType)
    (attempt : Z) : result bool :=
  match config_for self t with
  | Raise e => Raise e
  | Ok config => Ok (attempt <? max_attempts config)
  end.

Definition to_entry (error : ETLError) (context : dict) (logged_at : string)
    : LogEntry :=
  mkLogEntry (message error) (ETLErrorType_value (error_type error))
    (ETLErrorSeverity_value (severity error)) (details error)
    (retry_after error) (timestamp error) context logged_at.

(** The names that [Logger.makeRecord] does not let [extra] use:
    ["message"], ["asctime"] and the attributes of a new [LogRecord]. *)
Definition reserved_keys : list string :=
  [ "message"; "asctime"; "name"; "msg"; "args"; "levelname"; "levelno";
    "pathname"; "filename"; "module"; "exc_info"; "exc_text"; "stack_info";
    "lineno"; "funcName"; "created"; "msecs"; "relativeCreated"; "thread";
    "threadName"; "processName"; "process"; "taskName" ].

(** [logger.critical/error/warning/info(msg, extra=extra)] of the standard
    library, [extra] given by its keys in order: a disabled level returns at
    once; otherwise [makeRecord] raises [KeyError] at the first reserved
    key. *)
Definition logger_log (E : Env) (level : logging.level)
    (extra : list string) : result unit :=
  if isEnabledFor E level
  then
    match List.find (fun key => bool_decide (key ∈ reserved_keys)) extra with
    | Some key =>
      Raise (ExcKeyError
               ("Attempt to overwrite '" ++ key ++ "' in LogRecord")%string)
    | None => Ok tt
    end
  else Ok tt.

(** The keys of [log_data]: those of [ETLError.to_dict()], then
    ["context"]. *)
Definition log_data_keys : list string :=
  [ "message"; "error_type"; "severity"; "details"; "retry_after";
    "timestamp"; "context" ].

(** The [logger] method that [log_error] picks for a severity. *)
Definition severity_level (s : ETLErrorSeverity) : logging.level :=
  match s with
  | CRITICAL => logging.CRITICAL
  | HIGH => logging.ERROR
  | MEDIUM => logging.WARNING
  | LOW => logging.INFO
  end.

(** The end of [log_error]: the entry is appended and the history is cut
    back to [max_history_size]. *)
Definition record_entry (self : ETLErrorHandler) (entry : LogEntry)
    : ETLErrorHandler :=
  let history := error_history self ++ [entry] in
  let history :=
    if Z.of_nat (length history) >? max_history_size self
    then slice_from (- max_history_size self) history
    else history in
  mkETLErrorHandler history (max_history_size self) (retry_configs self).

(** [log_error]: the [logger] call with [extra=log_data] comes first; what
    it raises leaves the method before the clock is read and before the
    history is touched. *)
Definition log_error (E : Env) (self : ETLErrorHandler) (error : ETLError)
    (context : option dict) (w : World)
    : result unit * ETLErrorHandler * World :=
  match logger_log E (severity_level (severity error)) log_data_keys with
  | Raise e => (Raise e, self, w)
  | Ok _ =>
    let entry := to_entry error (default ∅ context) (utcnow E (clock w)) in
    (Ok tt, record_entry self entry, tick w)
  end.

(** The [ETLError] that the [except] branch of the loop builds, at the
    clock reading [now]; ["function"] is
    [func.__name__ if hasattr(func, '__name__') else str(func)]. *)
Definition wrap_error {A} (func : Callable A) (args kwargs : string)
    (attempt : Z) (msg : string) (now : string) : ETLError :=
  let t := classify_error msg in
  let d : dict :=
    <["attempt" := VInt attempt]>
    (<["function" := VStr (default (fn_str func) (fn_name func))]>
    (<["args" := VStr (str_take 200 args)]>
    (<["kwargs" := VStr (str_take 200 kwargs)]> ∅))) in
  mkETLError msg t (determine_severity t) d None now.

(** How one turn of the [while True] loop ends: the method is left, with a
    value or an exception, or the loop goes round again. *)
Inductive turn (A : Type) : Type :=
| Leaves (r : result A) (self : ETLErrorHandler) (w : World)
| Again (self : ETLErrorHandler) (w : World).
Arguments Leaves {A} r self w.
Arguments Again {A} self w.

(** The body of the loop of [handle_error_with_retry] at [attempt]. What
    is raised inside the [except] branch leaves the method: the [KeyError]
    of [log_error], of the policy lookup and of [should_retry], the
    [AttributeError] of [func.__name__] in the two log lines, and what
    [calculate_delay] raises. *)
Definition attempt_once {A} (E : Env) (func : Callable A)
    (args kwargs : string) (context : option dict)
    (custom_retry_config : option RetryConfig)
    (attempt : Z) (self : ETLErrorHandler) (w : World) : turn A :=
  match await_call func (calls w) with
  | Returns v => Leaves (Ok v) self (called w)
  | Raises msg =>
    let w := called w in
    let etl_error :=
      wrap_error func args kwargs attempt msg (utcnow E (clock w)) in
    match log_error E self etl_error context (tick w) with
    | (Raise e, self, w) => Leaves (Raise e) self w
    | (Ok _, self, w) =>
      let config :=
        match custom_retry_config with
        | Some c => Ok c
        | None => config_for self (error_type etl_error)
        end in
      match config with
      | Raise e => Leaves (Raise e) self w
      | Ok config =>
        match should_retry self (error_type etl_error) attempt with
        | Raise e => Leaves (Raise e) self w
        | Ok false =>
          match __name__ func with
          | Raise e => Leaves (Raise e) self w
          | Ok _ => Leaves (Raise (ExcETLError etl_error)) self w
          end
        | Ok true =>
          match calculate_delay E attempt config w with
          | (Raise e, w) => Leaves (Raise e) self w
          | (Ok delay, w) =>
            match __name__ func with
            | Raise e => Leaves (Raise e) self w
            | Ok _ => Again self (sleep delay w)
            end
          end
        end
      end
    end
  end.

(** The [while True] loop of [handle_error_with_retry]; [fuel] bounds the
    number of iterations. *)
Fixpoint retry_loop {A} (fuel : nat) (E : Env) (func : Callable A)
    (args kwargs : string) (context : option dict)
    (custom_retry_config : option RetryConfig)
    (attempt : Z) (self : ETLErrorHandler) (w : World)
    : option (result A * ETLErrorHandler * World) :=
  match fuel with
  | O => None
  | S fuel' =>
    match attempt_once E func args kwargs context custom_retry_config
            attempt self w with
    | Leaves r self w => Some (r, self, w)
    | Again self w =>
      retry_loop fuel' E func args kwargs context custom_retry_config
        (attempt + 1) self w
    end
  end.

(** No stored policy allows an attempt number above this. *)
Definition attempt_bound (self : ETLErrorHandler) : Z :=
  foldr Z.max 0 (max_attempts <$> (map_to_list (retry_configs self)).*2).

Definition handle_error_with_retry {A} (E : Env) (func : Callable A)
    (args kwargs : string) (context : option dict)
    (custom_retry_config : option RetryConfig)
    (self : ETLErrorHandler) (w : World)
    : option (result A * ETLErrorHandler * World) :=
  retry_loop (S (Z.to_nat (attempt_bound self))) E func args kwargs context
    custom_retry_config 1 self w.

(** [get_error_history]; [since] is given by its ISO form. *)
Definition get_error_history (self : ETLErrorHandler) (limit : option Z)
    (error_type : option ETLErrorType) (severity : option ETLErrorSeverity)
    (since : option string) : list LogEntry :=
  let filtered_errors := error_history self in
  let filtered_errors :=
    match error_type with
    | Some t =>
      filter (fun e => e_error_type e = ETLErrorType_value t) filtered_errors
    | None => filtered_errors
    end in
  let filtered_errors :=
    match severity with
    | Some s =>
      filter (fun e => e_severity e = ETLErrorSeverity_value s) filtered_errors
    | None => filtered_errors
    end in
  let filtered_errors :=
    match since with
    | Some since_str =>
      filter (fun e => String.leb since_str (e_timestamp e) = true) filtered_errors
    | None => filtered_errors
    end in
  match limit with
  | Some n => if n =? 0 then filtered_errors else slice_from (- n) filtered_errors
  | None => filtered_errors
  end.

(** [get_error_statistics]: the returned dictionary, whose two period
    keys exist only when some error is counted. *)
Record Statistics : Type := mkStatistics {
  total_errors : Z;
  by_type : gmap string Z;
  by_severity : gmap string Z;
  recent_critical : list LogEntry;
  period : option (option string * string)
}.

Definition count_by (key : LogEntry -> string) (errors : list LogEntry)
    : gmap string Z :=
  foldl (fun m e => <[key e := default 0 (m !! key e) + 1]> m) ∅ errors.

Definition get_error_statistics (E : Env) (self : ETLErrorHandler)
    (since : option string) (w : World) : Statistics * World :=
  let errors := get_error_history self None None None since in
  match errors with
  | [] => (mkStatistics 0 ∅ ∅ [] None, w)
  | _ =>
    (mkStatistics (Z.of_nat (length errors))
       (count_by e_error_type errors) (count_by e_severity errors)
       (filter (fun e => e_severity e = ETLErrorSeverity_value CRITICAL)
          (slice_from (- 10) errors))
       (Some (since, utcnow E (clock w))),
     tick w)
  end.

(** Handler objects live in a store, by address; the module-level
    [etl_error_handler] is one address of it. *)
Abbreviation store := (gmap nat ETLErrorHandler).

(** [ETLErrorHandler()]: a new object at an unused address. *)
Definition new_handler (st : store) : nat * store :=
  let l := fresh (dom st) in (l, <[l := ETLErrorHandler_init]> st).

(** A method call on the object at [self]. *)
Definition handle_error_with_retry_at {A} (E : Env) (self : nat)
    (func : Callable A) (args kwargs : string) (context : option dict)
    (custom_retry_config : option RetryConfig) (st : store) (w : World)
    : option (result A * store * World) :=
  match st !! self with
  | None => None
  | Some h =>
    match handle_error_with_retry E func args kwargs context
            custom_retry_config h w with
    | None => None
    | Some (r, h', w') => Some (r, <[self := h']> st, w')
    end
  end.

(** The [wrapper] that [with_etl_error_handling(context, retry_config)]
    puts around [func]. *)
Definition with_etl_error_handling {A} (E : Env) (context : option dict)
    (retry_config : option RetryConfig) (func : Callable A)
    (args kwargs : string) (st : store) (w : World)
    : option (result A * store * World) :=
  let '(error_handler, st) := new_handler st in
  handle_error_with_retry_at E error_handler func args kwargs context
    retry_config st w.

(** ** [scheduler.py] *)

Module Scheduler.

Record ETLScheduler : Type := mkETLScheduler {
  job_history : list dict;
  max_history_size : Z
}.

(** The history fields of [ETLScheduler.__init__]. *)
Definition ETLScheduler_init : ETLScheduler := mkETLScheduler [] 100.

Definition _cleanup_job_history (self : ETLScheduler) : ETLScheduler :=
  if Z.of_nat (length (job_history self)) >? max_history_size self
  then mkETLScheduler
         (slice_from (- max_history_size self) (job_history self))
         (max_history_size self)
  else self.

(** [len(self.job_history) > self.max_history_size * 1.2] *)
Definition over_slack (n : nat) (max : Z) : bool :=
  negb (Qle_bool (inject_Z (Z.of_nat n)) (inject_Z max * (6 # 5))).

Definition _add_job_to_history (E : Env) (self : ETLScheduler)
    (job_info : dict) (w : World) : ETLScheduler * World :=
  let job_info := <["timestamp" := VStr (utcnow E (clock w))]> job_info in
  let history := job_history self ++ [job_info] in
  let history :=
    if over_slack (length history) (max_history_size self)
    then slice_from (- max_history_size self) history
    else history in
  (mkETLScheduler history (max_history_size self), tick w).

(** The two entry points of [ETLOrchestrator] that the scheduler awaits,
    with dates as day numbers. *)
Record ETLOrchestrator : Type := mkETLOrchestrator {
  run_full_etl : Z -> Z -> outcome dict;
  run_incremental_etl : string -> Z -> Z -> outcome dict
}.

(** [d.get(key)] and [d.get(key, {})] *)
Definition get (d : dict) (key : string) : value := default VNone (d !! key).
Definition get_or_empty (d : dict) (key : string) : value :=
  default (VDict ∅) (d !! key).

(** [job_name or f"Manual ETL - {data_type}"] *)
Definition job_name_or (job_name : option string) (data_type : string)
    : string :=
  match job_name with
  | Some (String c s) => String c s
  | _ => ("Manual ETL - " ++ data_type)%string
  end.

(** The database session of one job: what [next(get_db())] does when
    [_get_db_session] is entered, and what [db.close()] does in its
    [finally]. *)
Record Session : Type := mkSession {
  get_db : outcome unit;
  db_close : outcome unit
}.

(** Leaving the [async with self._get_db_session()] block with the outcome
    [body]: [db.close()] runs either way, and what it raises replaces the
    outcome of the block. *)
Definition leave_session {A} (session : Session) (body : outcome A)
    : outcome A :=
  match db_close session with
  | Raises msg => Raises msg
  | Returns _ => body
  end.

(** [trigger_manual_etl]. The record of a finished run is appended inside
    the [async with] block, which is inside the [try]: an exception while
    the block is left reaches the [except] branch after that append. *)
Definition trigger_manual_etl (E : Env) (etl_orchestrator : ETLOrchestrator)
    (session : Session) (self : ETLScheduler) (data_type : string)
    (start_date end_date : Z) (job_name : option string) (w : World)
    : dict * ETLScheduler * World :=
  let job_id :=
    ("manual_etl_" ++ data_type ++ "_" ++ utcnow_compact E (clock w))%string in
  let w := tick w in
  let '(tried, self, w) :=
    match get_db session with
    | Raises msg => (Raises msg, self, w)
    | Returns _ =>
      let awaited :=
        if String.eqb data_type "all"
        then run_full_etl etl_orchestrator start_date end_date
        else run_incremental_etl etl_orchestrator data_type start_date
               end_date in
      match awaited with
      | Raises msg => (leave_session session (Raises msg), self, w)
      | Returns result =>
        let job_info : dict :=
          <["job_id" := VStr job_id]>
          (<["job_type" := VStr ("manual_etl_" ++ data_type)%string]>
          (<["job_name" := VStr (job_name_or job_name data_type)]>
          (<["start_time" := get result "start_time"]>
          (<["end_time" := get result "end_time"]>
          (<["status" := get result "status"]>
          (<["data_exports" := get_or_empty result "data_exports"]>
          (<["error" := get result "error"]> ∅))))))) in
        let job_info :=
          if String.eqb data_type "all"
          then <["pipeline_runs" := get_or_empty result "pipeline_runs"]> job_info
          else <["pipeline_run" := get_or_empty result "pipeline_run"]> job_info in
        let '(self, w) := _add_job_to_history E self job_info w in
        (leave_session session (Returns result), self, w)
      end
    end in
  match tried with
  | Returns result => (result, self, w)
  | Raises msg =>
    let error_result : dict :=
      <["job_id" := VStr job_id]>
      (<["status" := VStr "failed"]>
      (<["error" := VStr msg]>
      (<["start_time" := VStr (utcnow E (clock w))]>
      (<["end_time" := VStr (utcnow E (S (clock w)))]> ∅)))) in
    let w := tick (tick w) in
    let job_info :=
      <["job_type" := VStr ("manual_etl_" ++ data_type)%string]>
      (<["job_name" := VStr (job_name_or job_name data_type)]> error_result) in
    let '(self, w) := _add_job_to_history E self job_info w in
    (error_result, self, w)
  end.

(** [get_job_history] *)
Definition get_job_history (self : ETLScheduler) (limit : option Z)
    : list dict :=
  match limit with
  | Some n => if n =? 0 then job_history self else slice_from (- n) (job_history self)
  | None => job_history self
  end.

(** The record that the four scheduled jobs log for a finished run;
    [runs_key] is ["pipeline_runs"] for the full run and ["pipeline_run"]
    for the incremental ones. *)
Definition finished_record (job_id job_type runs_key : string) (result : dict)
    : dict :=
  <["job_id" := VStr job_id]>
  (<["job_type" := VStr job_type]>
  (<["start_time" := get result "start_time"]>
  (<["end_time" := get result "end_time"]>
  (<["status" := get result "status"]>
  (<["data_exports" := get_or_empty result "data_exports"]>
  (<[runs_key := get_or_empty result runs_key]>
  (<["error" := get result "error"]> ∅))))))).

(** The record that their [except] branch logs, at clock reading [n]. *)
Definition failed_record (E : Env) (job_id job_type msg : string) (n : nat)
    : dict :=
  <["job_id" := VStr job_id]>
  (<["job_type" := VStr job_type]>
  (<["start_time" := VStr (utcnow E n)]>
  (<["end_time" := VStr (utcnow E (S n))]>
  (<["status" := VStr "failed"]>
  (<["error" := VStr msg]> ∅))))).

(** The common shape of the four scheduled jobs: the job id is taken from
    the clock, then the [try] block takes a session, awaits [run] and logs
    the finished run before it leaves the session; any exception of the
    block, that of leaving the session included, is logged by the [except]
    branch. *)
Definition run_scheduled (E : Env) (job_type runs_key : string)
    (session : Session) (run : outcome dict) (self : ETLScheduler) (w : World)
    : ETLScheduler * World :=
  let job_id := (job_type ++ "_" ++ utcnow_compact E (clock w))%string in
  let w := tick w in
  let '(tried, self, w) :=
    match get_db session with
    | Raises msg => (Raises msg, self, w)
    | Returns _ =>
      match run with
      | Raises msg => (leave_session session (Raises msg), self, w)
      | Returns result =>
        let '(self, w) :=
          _add_job_to_history E self
            (finished_record job_id job_type runs_key result) w in
        (leave_session session (Returns tt), self, w)
      end
    end in
  match tried with
  | Returns _ => (self, w)
  | Raises msg =>
    _add_job_to_history E self
      (failed_record E job_id job_type msg (clock w)) (tick (tick w))
  end.

(** The scheduled jobs; [today] is [date.today()] as a day number. *)
Definition _run_daily_full_etl (E : Env) (etl_orchestrator : ETLOrchestrator)
    (session : Session) (today : Z) (self : ETLScheduler) (w : World)
    : ETLScheduler * World :=
  let end_date := today - 1 in
  let start_date := end_date - 1 in
  run_scheduled E "daily_full_etl" "pipeline_runs" session
    (run_full_etl etl_orchestrator start_date end_date) self w.

Definition _run_hourly_appointments_etl (E : Env)
    (etl_orchestrator : ETLOrchestrator) (session : Session) (today : Z)
    (self : ETLScheduler) (w : World) : ETLScheduler * World :=
  let end_date := today in
  let start_date := end_date in
  run_scheduled E "hourly_appointments_etl" "pipeline_run" session
    (run_incremental_etl etl_orchestrator "appointments" start_date end_date)
    self w.

Definition _run_resource_utilization_etl (E : Env)
    (etl_orchestrator : ETLOrchestrator) (session : Session) (today : Z)
    (self : ETLScheduler) (w : World) : ETLScheduler * World :=
  let end_date := today in
  let start_date := end_date in
  run_scheduled E "resource_utilization_etl" "pipeline_run" session
    (run_incremental_etl etl_orchestrator "resources" start_date end_date)
    self w.

Definition _run_weekly_doctor_performance_etl (E : Env)
    (etl_orchestrator : ETLOrchestrator) (session : Session) (today : Z)
    (self : ETLScheduler) (w : World) : ETLScheduler * World :=
  let end_date := today - 1 in
  let start_date := end_date - 7 in
  run_scheduled E "weekly_doctor_performance_etl" "pipeline_run" session
    (run_incremental_etl etl_orchestrator "doctors" start_date end_date)
    self w.

End Scheduler.

(** ** [synapse_integration.py]: the orchestrator *)

Module Synapse.

(** What [ETLOrchestrator] calls: the analytics service, the exporter and
    the pipeline trigger, as functions of their arguments, and
    [date.isoformat()] on day numbers. Clock readings made inside them are
    not counted by the [World]. *)
Record Services : Type := mkServices {
  export_data_for_synapse : string -> option Z -> option Z -> outcome value;
  export_and_upload_data : value -> string -> string -> outcome value;
  trigger_pipeline : string -> dict -> outcome value;
  isoformat : Z -> string
}.

(** [{"status": "failed", "error": str(e)}] *)
Definition failed_run (msg : string) : value :=
  VDict (<["status" := VStr "failed"]> (<["error" := VStr msg]> ∅)).

(** [d.isoformat() if d else None] *)
Definition iso_or_none (S : Services) (d : option Z) : value :=
  match d with
  | Some d => VStr (isoformat S d)
  | None => VNone
  end.

(** One turn of the loop of [run_full_etl], on the two dictionaries
    [etl_results["data_exports"]] and [etl_results["pipeline_runs"]]. *)
Definition full_etl_step (S : Services) (start_date end_date : option Z)
    (acc : dict * dict) (data_type : string) : dict * dict :=
  let '(data_exports, pipeline_runs) := acc in
  match export_data_for_synapse S data_type start_date end_date with
  | Raises msg => (data_exports, <[data_type := failed_run msg]> pipeline_runs)
  | Returns data =>
    match export_and_upload_data S data data_type "parquet" with
    | Raises msg =>
      (data_exports, <[data_type := failed_run msg]> pipeline_runs)
    | Returns uploaded_files =>
      let data_exports := <[data_type := uploaded_files]> data_exports in
      let pipeline_name := ("hospital_" ++ data_type ++ "_etl_pipeline")%string in
      let pipeline_params : dict :=
        <["start_date" := iso_or_none S start_date]>
        (<["end_date" := iso_or_none S end_date]>
        (<["data_files" := uploaded_files]> ∅)) in
      match trigger_pipeline S pipeline_name pipeline_params with
      | Raises msg =>
        (data_exports, <[data_type := failed_run msg]> pipeline_runs)
      | Returns pipeline_result =>
        (data_exports, <[data_type := pipeline_result]> pipeline_runs)
      end
    end
  end.

Definition data_types : list string := ["appointments"; "resources"; "doctors"].

(** [run_full_etl]; nothing outside the inner [try] raises, so its outer
    [except] branch is never entered. *)
Definition run_full_etl (E : Env) (S : Services)
    (start_date end_date : option Z) (w : World) : dict * World :=
  let start_time := utcnow E (clock w) in
  let w := tick w in
  let '(data_exports, pipeline_runs) :=
    foldl (full_etl_step S start_date end_date) (∅, ∅) data_types in
  let etl_results : dict :=
    <["start_time" := VStr start_time]>
    (<["data_exports" := VDict data_exports]>
    (<["pipeline_runs" := VDict pipeline_runs]>
    (<["status" := VStr "running"]> ∅))) in
  let etl_results := <["end_time" := VStr (utcnow E (clock w))]> etl_results in
  let etl_results := <["status" := VStr "completed"]> etl_results in
  (etl_results, tick w).

(** The [except] branch of [run_incremental_etl]. *)
Definition incremental_failed (E : Env) (etl_result : dict) (msg : string)
    (w : World) : dict * World :=
  let etl_result := <["status" := VStr "failed"]> etl_result in
  let etl_result := <["error" := VStr msg]> etl_result in
  let etl_result := <["end_time" := VStr (utcnow E (clock w))]> etl_result in
  (etl_result, tick w).

Definition run_incremental_etl (E : Env) (S : Services) (data_type : string)
    (start_date end_date : Z) (w : World) : dict * World :=
  let etl_result : dict :=
    <["start_time" := VStr (utcnow E (clock w))]>
    (<["data_type" := VStr data_type]>
    (<["date_range" :=
         VDict (<["start" := VStr (isoformat S start_date)]>
               (<["end" := VStr (isoformat S end_date)]> ∅))]>
    (<["status" := VStr "running"]> ∅))) in
  let w := tick w in
  match export_data_for_synapse S data_type (Some start_date) (Some end_date)
  with
  | Raises msg => incremental_failed E etl_result msg w
  | Returns data =>
    match export_and_upload_data S data (data_type ++ "_incremental")%string
            "parquet" with
    | Raises msg => incremental_failed E etl_result msg w
    | Returns uploaded_files =>
      let etl_result := <["data_exports" := uploaded_files]> etl_result in
      let pipeline_name :=
        ("hospital_" ++ data_type ++ "_incremental_etl_pipeline")%string in
      let pipeline_params : dict :=
        <["start_date" := VStr (isoformat S start_date)]>
        (<["end_date" := VStr (isoformat S end_date)]>
        (<["data_files" := uploaded_files]>
        (<["mode" := VStr "incremental"]> ∅))) in
      match trigger_pipeline S pipeline_name pipeline_params with
      | Raises msg => incremental_failed E etl_result msg w
      | Returns pipeline_result =>
        let etl_result := <["pipeline_run" := pipeline_result]> etl_result in
        let etl_result :=
          <["end_time" := VStr (utcnow E (clock w))]> etl_result in
        let etl_result := <["status" := VStr "completed"]> etl_result in
        (etl_result, tick w)
      end
    end
  end.

End Synapse.

(** ** Notions used to state the properties *)

(** The most recent [n] elements of a chronological list, in the order
    of the list. *)
Definition most_recent {A} (n : nat) (l : list A) : list A :=
  drop (length l - n) l.

(** A run of [log_error] calls by a caller that goes on after a call that
    raised: what each call did, and the handler and world left. *)
Fixpoint log_errors (E : Env) (self : ETLErrorHandler)
    (errs : list (ETLError * option dict)) (w : World)
    : list (result unit) * ETLErrorHandler * World :=
  match errs with
  | [] => ([], self, w)
  | (error, context) :: errs' =>
    let '(r, self, w) := log_error E self error context w in
    let '(rs, self, w) := log_errors E self errs' w in
    (r :: rs, self, w)
  end.

(** The entries of the calls that came back, [rs] being what each call
    did and [n] the clock reading at the start: a call that comes back has
    read the clock once. *)
Fixpoint logged (E : Env) (errs : list (ETLError * option dict))
    (rs : list (result unit)) (n : nat) : list LogEntry :=
  match errs, rs with
  | (error, context) :: errs', Ok _ :: rs' =>
    to_entry error (default ∅ context) (utcnow E n) :: logged E errs' rs' (S n)
  | _ :: errs', Raise _ :: rs' => logged E errs' rs' n
  | _, _ => []
  end.

(** The entry that the loop logs for a failure with message [msg] at
    [attempt], when the clock has been read [n] times before. *)
Definition failure_entry (E : Env) {A} (func : Callable A)
    (args kwargs : string) (context : option dict) (attempt : Z)
    (msg : string) (n : nat) : LogEntry :=
  to_entry (wrap_error func args kwargs attempt msg (utcnow E n))
    (default ∅ context) (utcnow E (S n)).

(** The entries that a run of failed attempts logs: the first failure is
    at [attempt] and at clock reading [n], and every failure reads the
    clock twice. *)
Fixpoint failure_entries (E : Env) {A} (func : Callable A)
    (args kwargs : string) (context : option dict) (attempt : Z) (n : nat)
    (msgs : list string) : list LogEntry :=
  match msgs with
  | [] => []
  | msg :: msgs' =>
    failure_entry E func args kwargs context attempt msg n
    :: failure_entries E func args kwargs context (attempt + 1) (S (S n)) msgs'
  end.

(** The levels at which the failures with the messages [msgs] are handed
    to the [logger] are all disabled. *)
Definition quiet_for (E : Env) (msgs : list string) : Prop :=
  Forall (fun msg =>
            isEnabledFor E
              (severity_level (determine_severity (classify_error msg)))
            = false) msgs.

(** A float that is not an infinity. *)
Definition finite_float (x : Q) : Prop := (Qabs x < float_overflow)%Q.

(** The policy from which the loop computes the delay after a failure of
    category [t]. *)
Definition delay_config (self : ETLErrorHandler)
    (custom_retry_config : option RetryConfig) (t : ETLErrorType)
    : result RetryConfig :=
  match custom_retry_config with
  | Some c => Ok c
  | None => config_for self t
  end.

(** A run of [_add_job_to_history] calls. *)
Fixpoint add_jobs (E : Env) (self : Scheduler.ETLScheduler)
    (jobs : list dict) (w : World) : Scheduler.ETLScheduler * World :=
  match jobs with
  | [] => (self, w)
  | job_info :: jobs' =>
    let '(self, w) := Scheduler._add_job_to_history E self job_info w in
    add_jobs E self jobs' w
  end.

(** The records that a run of [_add_job_to_history] calls hands to the
    history when it starts at clock reading [n]: each with its
    ["timestamp"]. *)
Fixpoint stamped_jobs (E : Env) (jobs : list dict) (n : nat) : list dict :=
  match jobs with
  | [] => []
  | job_info :: jobs' =>
    <["timestamp" := VStr (utcnow E n)]> job_info :: stamped_jobs E jobs' (S n)
  end.

(** What one firing of a scheduled job of type [job_type] does, [run]
    being what the orchestrator does for the job's window and [out] the
    scheduler and world that the job leaves. Every record that the job
    hands to [_add_job_to_history] has the job's type and clock-made id.
    Without a session, or with a run that raises, there is one record,
    failed, with the message of the error (that of [db.close()] when it
    raises as well). With a run that returns there is the record of the
    run, with its status and error, and after it, when [db.close()]
    raises, a failed record with that message. *)
Definition logs_run (E : Env) (job_type : string)
    (session : Scheduler.Session) (run : outcome dict)
    (self : Scheduler.ETLScheduler) (w : World)
    (out : Scheduler.ETLScheduler * World) : Prop :=
  let about (job_info : dict) :=
    job_info !! "job_type" = Some (VStr job_type)
    /\ job_info !! "job_id"
       = Some (VStr (job_type ++ "_" ++ utcnow_compact E (clock w))%string) in
  let failed (msg : string) (job_info : dict) :=
    job_info !! "status" = Some (VStr "failed")
    /\ job_info !! "error" = Some (VStr msg) in
  let finished (result : dict) (job_info : dict) :=
    job_info !! "status" = Some (Scheduler.get result "status")
    /\ job_info !! "error" = Some (Scheduler.get result "error") in
  (forall msg,
     Scheduler.get_db session = Raises msg ->
     exists job_info w1,
       out = Scheduler._add_job_to_history E self job_info w1
       /\ about job_info /\ failed msg job_info)
  /\ (forall msg,
        Scheduler.get_db session = Returns tt -> run = Raises msg ->
        exists job_info w1,
          out = Scheduler._add_job_to_history E self job_info w1
          /\ about job_info
          /\ failed match Scheduler.db_close session with
                    | Raises msg' => msg'
                    | Returns _ => msg
                    end job_info)
  /\ (forall result,
        Scheduler.get_db session = Returns tt -> run = Returns result ->
        match Scheduler.db_close session with
        | Returns _ =>
          exists job_info w1,
            out = Scheduler._add_job_to_history E self job_info w1
            /\ about job_info /\ finished result job_info
        | Raises msg' =>
          exists job_info1 w1 job_info2 w2,
            out = Scheduler._add_job_to_history E
                    (Scheduler._add_job_to_history E self job_info1 w1).1
                    job_info2 w2
            /\ about job_info1 /\ finished result job_info1
            /\ about job_info2 /\ failed msg' job_info2
        end).

(** The predicate that the optional filters of a ledger query select. *)
Definition selected (error_type : option ETLErrorType)
    (severity : option ETLErrorSeverity) (since : option string)
    (e : LogEntry) : Prop :=
  from_option (fun t => e_error_type e = ETLErrorType_value t) True error_type
  /\ from_option (fun s => e_severity e = ETLErrorSeverity_value s) True severity
  /\ from_option (fun since_str => String.leb since_str (e_timestamp e) = true)
       True since.

Global Instance selected_dec error_type severity since e :
  Decision (selected error_type severity since e).
Proof. unfold selected. destruct error_type, severity, since; simpl; apply _. Defined.

(** The classification rules as a priority table: the keywords of a
    category, in the order in which the categories are tried. *)
Definition priority_table : list (list string * ETLErrorType) :=
  [ (["connection"; "database"], DATABASE_CONNECTION);
    (["azure"; "blob"; "synapse"], AZURE_SERVICE);
    (["timeout"; "timed out"], NETWORK_TIMEOUT);
    (["pipeline"; "data factory"], PIPELINE_EXECUTION);
    (["export"; "upload"], DATA_EXPORT);
    (["auth"; "credential"; "permission"], AUTHENTICATION);
    (["limit"; "quota"; "throttle"], RESOURCE_LIMIT);
    (["validation"; "invalid"], DATA_VALIDATION) ].

(** The category of the first row one of whose keywords is a substring of
    [text]; [UNKNOWN] when no row matches. *)
Fixpoint first_match (table : list (list string * ETLErrorType))
    (text : string) : ETLErrorType :=
  match table with
  | [] => UNKNOWN
  | (keywords, t) :: table' =>
    if existsb (fun kw => contains kw text) keywords then t
    else first_match table' text
  end.

(** [kw] occurs in [msg] up to the case of the letters of [msg]. *)
Definition occurs_ci (kw msg : string) : Prop :=
  exists pre k post, msg = (pre ++ k ++ post)%string /\ lower k = kw.

(** ** Concrete runs

    The inputs of the repository's tests, used below to run the model. *)
Module Run.

(** Three settings of the logger: silenced (as after
    [logging.disable(logging.CRITICAL)]), the default of the standard
    library (WARNING and above), and the level INFO. The clock and the
    random generator are constant. *)
Definition silenced (level : logging.level) : bool := false.

Definition default_level (level : logging.level) : bool :=
  match level with
  | logging.INFO => false
  | _ => true
  end.

Definition info_level (level : logging.level) : bool := true.

Definition E : Env :=
  mkEnv (fun _ => "2024-01-15T10:00:00") (fun _ => "20240115_100000")
    (fun _ => 0%Q) silenced.

Definition E_default : Env :=
  mkEnv (fun _ => "2024-01-15T10:00:00") (fun _ => "20240115_100000")
    (fun _ => 0%Q) default_level.

Definition E_info : Env :=
  mkEnv (fun _ => "2024-01-15T10:00:00") (fun _ => "20240115_100000")
    (fun _ => 0%Q) info_level.

(** [ETLError("DB error 1", DATABASE_CONNECTION, HIGH)] *)
Definition db_error : ETLError :=
  mkETLError "DB error 1" DATABASE_CONNECTION HIGH ∅ None
    "2024-01-15T10:00:00".

Definition auth_error : ETLError :=
  mkETLError "Auth error" AUTHENTICATION CRITICAL ∅ None
    "2024-01-15T10:00:00".

(** [ETLError("Validation error", DATA_VALIDATION, LOW)] *)
Definition validation_error : ETLError :=
  mkETLError "Validation error" DATA_VALIDATION LOW ∅ None
    "2024-01-15T10:00:00".

(** A fresh handler after [log_error(db_error)] with the logger
    silenced. *)
Definition one_error_handler : ETLErrorHandler :=
  (log_error E ETLErrorHandler_init db_error None World_init).1.2.

(** [{"job_id": "job", "status": "completed"}] *)
Definition completed_job : dict :=
  <["job_id" := VStr "job"]> (<["status" := VStr "completed"]> ∅).


(** [RetryConfig(max_delay=-1.0)] *)
Definition negative_cap : RetryConfig := mkRetryConfig 3 1 (-1) 2 true.

(** The work functions of [test_handle_error_with_retry_max_attempts] and
    [test_error_recovery_workflow], and one whose message no rule
    matches. *)
Definition async_def {A} (name : string) (body : nat -> outcome A)
    : Callable A :=
  mkCallable (Some name) ("<function " ++ name ++ ">")%string
    (fun n => Returns (Awaitable (body n))).

Definition always_failing_function : Callable string :=
  async_def "always_failing_function"
    (fun _ => Raises "Database connection failed").

Definition unreliable_function : Callable string :=
  async_def "unreliable_function"
    (fun n => if (n <? 2)%nat then Raises "Temporary Azure service error"
              else Returns "success").

Definition obscure_function : Callable string :=
  async_def "obscure_function" (fun _ => Raises "boom").

(** A function whose input never passes validation, one that fails
    validation twice before it returns, a [functools.partial] of the
    first, and a plain function, whose result cannot be awaited. *)
Definition rejecting_function : Callable string :=
  async_def "rejecting_function" (fun _ => Raises "Data validation error").

Definition settling_function : Callable string :=
  async_def "settling_function"
    (fun n => if (n <? 2)%nat then Raises "Invalid record"
              else Returns "success").

Definition partial_function : Callable string :=
  mkCallable None "functools.partial(<function rejecting_function>)"
    (fun _ => Returns (Awaitable (Raises "Data validation error"))).

Definition plain_function : Callable string :=
  mkCallable (Some "plain_function") "<function plain_function>"
    (fun _ => Returns (NotAwaitable
                         "object str can't be used in 'await' expression")).

(** [RetryConfig(max_attempts=5, exponential_base=1e200)] *)
Definition exploding : RetryConfig :=
  mkRetryConfig 5 1 60 (inject_Z (10 ^ 200)) true.

(** Sessions: one that works, one that cannot be had, and one whose
    [close] raises. *)
Definition session : Scheduler.Session :=
  Scheduler.mkSession (Returns tt) (Returns tt).

Definition no_session : Scheduler.Session :=
  Scheduler.mkSession (Raises "could not connect to server") (Returns tt).

Definition unclosable_session : Scheduler.Session :=
  Scheduler.mkSession (Returns tt) (Raises "connection already closed").

(** [RetryConfig(max_attempts=n, base_delay=0.1)] *)
Definition quick (n : Z) : RetryConfig := RetryConfig_init n (1 # 10).

(** An orchestrator whose runs raise, and one whose runs complete. *)
Definition failing_orchestrator : Scheduler.ETLOrchestrator :=
  Scheduler.mkETLOrchestrator
    (fun _ _ => Raises "database connection failed")
    (fun _ _ _ => Raises "database connection failed").

Definition completed_result : dict :=
  <["status" := VStr "completed"]>
  (<["start_time" := VStr "2024-01-15T10:00:00"]>
  (<["end_time" := VStr "2024-01-15T10:05:00"]> ∅)).

Definition working_orchestrator : Scheduler.ETLOrchestrator :=
  Scheduler.mkETLOrchestrator
    (fun _ _ => Returns completed_result)
    (fun _ _ _ => Returns completed_result).

(** Services whose pipeline trigger always raises, and services that all
    work. *)
Definition broken_pipeline : Synapse.Services :=
  Synapse.mkServices (fun _ _ _ => Returns (VDict ∅))
    (fun _ _ _ => Returns (VDict ∅))
    (fun _ _ => Raises "pipeline trigger failed") (fun _ => "2024-01-15").

Definition working_services : Synapse.Services :=
  Synapse.mkServices (fun _ _ _ => Returns (VDict ∅))
    (fun _ _ _ => Returns (VDict ∅))
    (fun _ _ => Returns (VDict (<["status" := VStr "simulated"]> ∅)))
    (fun _ => "2024-01-15").

(** A scheduler-side orchestrator that returns what [ETLOrchestrator]
    makes with the services whose pipeline trigger raises. *)
Definition orchestrated : Scheduler.ETLOrchestrator :=
  Scheduler.mkETLOrchestrator
    (fun s e =>
       Returns (Synapse.run_full_etl E broken_pipeline (Some s) (Some e)
                  World_init).1)
    (fun d s e =>
       Returns (Synapse.run_incremental_etl E broken_pipeline d s e
                  World_init).1).

End Run.

(** ** Lists and slices *)

Section Slices.
Context {A : Type}.
Implicit Types (l k : list A) (n : nat).

Lemma slice_from_neg (c : Z) l :
  0 < c -> slice_from (- c) l = most_recent (Z.to_nat c) l.
Proof.
  intros Hc. unfold slice_from, most_recent.
  destruct (Z.ltb_spec (- c) 0) as [_|?]; [|lia].
  f_equal. lia.
Qed.

Lemma slice_from_zero l : slice_from 0 l = l.
Proof.
  unfold slice_from. simpl.
  replace (Z.to_nat (Z.min 0 (Z.of_nat (length l)))) with 0%nat by lia.
  reflexivity.
Qed.

Lemma most_recent_all n l : (length l <= n)%nat -> most_recent n l = l.
Proof.
  intros H. unfold most_recent.
  replace (length l - n)%nat with 0%nat by lia. reflexivity.
Qed.

Lemma length_most_recent n l :
  length (most_recent n l) = Nat.min n (length l).
Proof. unfold most_recent. rewrite length_drop. lia. Qed.

Lemma most_recent_suffix n l : most_recent n l `suffix_of` l.
Proof. apply suffix_drop. Qed.

Lemma most_recent_app n l k :
  most_recent n (most_recent n l ++ k) = most_recent n (l ++ k).
Proof.
  destruct (Nat.le_gt_cases (length l) n) as [Hle|Hgt].
  - by rewrite (most_recent_all n l).
  - unfold most_recent at 1 3.
    rewrite !length_app, length_most_recent.
    unfold most_recent.
    replace (Nat.min n (length l) + length k - n)%nat with (length k) by lia.
    replace (length l + length k - n)%nat
      with ((length l - n) + length k)%nat by lia.
    rewrite <- drop_drop.
    f_equal. rewrite drop_app_le by lia. reflexivity.
Qed.

Lemma filter_all (P : A -> Prop) `{!forall x, Decision (P x)} l :
  (forall x, P x) -> filter P l = l.
Proof.
  intros HP. induction l as [|x l IH]; [done|].
  by rewrite filter_cons_True, IH.
Qed.
End Slices.

(** ** The error-history ledger *)

Section Ledger.
Variable E : Env.
Implicit Types (self : ETLErrorHandler) (w : World).

(** With the keys of [log_data], an enabled [logger] call raises. *)
Lemma logger_log_data (level : logging.level) :
  logger_log E level log_data_keys
  = if isEnabledFor E level
    then Raise (ExcKeyError "Attempt to overwrite 'message' in LogRecord")
    else Ok tt.
Proof. unfold logger_log. by destruct (isEnabledFor E level). Qed.

Lemma log_error_returns self error context w :
  isEnabledFor E (severity_level (severity error)) = false ->
  log_error E self error context w
  = (Ok tt,
     record_entry self
       (to_entry error (default ∅ context) (utcnow E (clock w))),
     tick w).
Proof. intros H. unfold log_error. by rewrite logger_log_data, H. Qed.

Lemma log_error_raises self error context w :
  isEnabledFor E (severity_level (severity error)) = true ->
  log_error E self error context w
  = (Raise (ExcKeyError "Attempt to overwrite 'message' in LogRecord"),
     self, w).
Proof. intros H. unfold log_error. by rewrite logger_log_data, H. Qed.

(** A call either raises the [KeyError] and changes nothing, or comes back
    with the entry recorded and the clock read once. *)
Lemma log_error_cases self error context w r self' w' :
  log_error E self error context w = (r, self', w') ->
  (r = Raise (ExcKeyError "Attempt to overwrite 'message' in LogRecord")
   /\ isEnabledFor E (severity_level (severity error)) = true
   /\ self' = self /\ w' = w)
  \/ (r = Ok tt
      /\ isEnabledFor E (severity_level (severity error)) = false
      /\ self' = record_entry self
                  (to_entry error (default ∅ context) (utcnow E (clock w)))
      /\ w' = tick w).
Proof.
  destruct (isEnabledFor E (severity_level (severity error))) eqn:Hlevel.
  - rewrite log_error_raises by done. intros [= <- <- <-]. by left.
  - rewrite log_error_returns by done. intros [= <- <- <-]. by right.
Qed.

Lemma record_entry_configs self entry :
  retry_configs (record_entry self entry) = retry_configs self
  /\ max_history_size (record_entry self entry) = max_history_size self.
Proof. split; reflexivity. Qed.

Lemma log_error_configs self error context w :
  retry_configs (log_error E self error context w).1.2 = retry_configs self
  /\ max_history_size (log_error E self error context w).1.2
     = max_history_size self.
Proof.
  destruct (log_error E self error context w) as [[r self'] w'] eqn:Hlog.
  by destruct (log_error_cases _ _ _ _ _ _ _ Hlog)
    as [(_ & _ & -> & _)|(_ & _ & -> & _)].
Qed.

(** Recording an entry keeps the latest [max_history_size] entries of the
    extended ledger. *)
Lemma record_entry_history self entry :
  0 < max_history_size self ->
  error_history (record_entry self entry)
  = most_recent (Z.to_nat (max_history_size self))
      (error_history self ++ [entry]).
Proof.
  intros Hcap. unfold record_entry. simpl.
  set (h := error_history self ++ _).
  destruct (Z.gtb_spec (Z.of_nat (length h)) (max_history_size self)).
  - by apply slice_from_neg.
  - symmetry. apply most_recent_all. lia.
Qed.

Lemma log_errors_cons self error context errs w :
  log_errors E self ((error, context) :: errs) w
  = let '(r, self1, w1) := log_error E self error context w in
    let '(rs, self2, w2) := log_errors E self1 errs w1 in
    (r :: rs, self2, w2).
Proof. reflexivity. Qed.

Lemma log_errors_history self errs w :
  0 < max_history_size self ->
  (length (error_history self) <= Z.to_nat (max_history_size self))%nat ->
  error_history (log_errors E self errs w).1.2
  = most_recent (Z.to_nat (max_history_size self))
      (error_history self
       ++ logged E errs (log_errors E self errs w).1.1 (clock w))
  /\ length (log_errors E self errs w).1.1 = length errs.
Proof.
  intros Hcap. revert self w Hcap.
  induction errs as [|[error context] errs IH]; intros self w Hcap Hlen.
  - simpl. rewrite app_nil_r. split; [|done]. symmetry.
    by apply most_recent_all.
  - rewrite log_errors_cons.
    destruct (log_error E self error context w) as [[r self1] w1] eqn:Hlog.
    specialize (IH self1 w1).
    destruct (log_errors E self1 errs w1) as [[rs self2] w2] eqn:Hrest.
    cbn [fst snd] in *.
    destruct (log_error_cases _ _ _ _ _ _ _ Hlog)
      as [(-> & _ & -> & ->)|(-> & _ & -> & ->)].
    + destruct (IH Hcap Hlen) as [IH1 IH2]. cbn [logged length].
      by rewrite IH1, IH2.
    + pose proof (record_entry_history self
                    (to_entry error (default ∅ context) (utcnow E (clock w)))
                    Hcap) as Hh.
      set (self1 := record_entry self _) in *.
      assert (Hmax : max_history_size self1 = max_history_size self)
        by reflexivity.
      assert (Hlen1 : (length (error_history self1)
                       <= Z.to_nat (max_history_size self1))%nat).
      { rewrite Hh, Hmax, length_most_recent. lia. }
      rewrite Hmax in IH. destruct (IH Hcap) as [IH1 IH2].
      { by rewrite <- Hmax. }
      cbn [logged length]. rewrite IH1, IH2, Hh. split; [|done].
      rewrite most_recent_app. by rewrite <- app_assoc.
Qed.
End Ledger.

(** C8. Whatever sequence of [log_error] calls is made on a handler built
    with the capacity of 1000, each call either raises and leaves the
    ledger as it was or comes back having appended its entry, and the
    ledger afterwards is exactly the most recent 1000 of the entries it was
    given (earlier ledger followed by the entries of the calls that came
    back), as a suffix of that sequence and hence in its oldest-first
    order; it never holds more than 1000 entries. *)
Theorem log_error_keeps_most_recent_1000 (E : Env) (self : ETLErrorHandler)
    (errs : list (ETLError * option dict)) (w : World) :
  max_history_size self = 1000 ->
  (length (error_history self) <= 1000)%nat ->
  let rs := (log_errors E self errs w).1.1 in
  let self' := (log_errors E self errs w).1.2 in
  let all := error_history self ++ logged E errs rs (clock w) in
  length rs = length errs
  /\ error_history self' = most_recent 1000 all
  /\ error_history self' `suffix_of` all
  /\ (length (error_history self') <= 1000)%nat.
Proof.
  intros Hmax Hlen rs self' all.
  destruct (log_errors_history E self errs w) as [Hh Hrs];
    [rewrite Hmax; lia | rewrite Hmax; lia |].
  rewrite Hmax in Hh. change (Z.to_nat 1000) with 1000%nat in Hh.
  fold rs self' in Hh, Hrs. fold all in Hh.
  split; [done|]. rewrite Hh. split; [done|]. split.
  - apply most_recent_suffix.
  - rewrite length_most_recent. lia.
Qed.

(** One call on a handler with the capacity of 1000: when it comes back,
    the ledger holds at most 1000 entries and ends with the entry of the
    call; when it raises, the ledger is as before. *)
Lemma log_error_bounded (E : Env) (self : ETLErrorHandler) (error : ETLError)
    (context : option dict) (w : World) r self' w' :
  max_history_size self = 1000 ->
  log_error E self error context w = (r, self', w') ->
  match r with
  | Ok _ =>
    (length (error_history self') <= 1000)%nat
    /\ last (error_history self')
       = Some (to_entry error (default ∅ context) (utcnow E (clock w)))
  | Raise _ => self' = self
  end.
Proof.
  intros Hmax Hlog.
  destruct (log_error_cases _ _ _ _ _ _ _ _ Hlog)
    as [(-> & _ & -> & ->)|(-> & _ & -> & ->)]; [done|].
  rewrite record_entry_history by lia. rewrite Hmax.
  change (Z.to_nat 1000) with 1000%nat. split.
  - rewrite length_most_recent. lia.
  - unfold most_recent. rewrite length_app. cbn [length].
    set (n := length (error_history self)).
    destruct (decide (n + 1 - 1000 <= n)%nat) as [Hle|Hgt]; [|lia].
    rewrite drop_app_le by done.
    rewrite last_snoc. done.
Qed.

(** ** Ledger queries *)

Lemma get_error_history_unlimited (self : ETLErrorHandler)
    (error_type : option ETLErrorType) (severity : option ETLErrorSeverity)
    (since : option string) :
  get_error_history self None error_type severity since
  = filter (selected error_type severity since) (error_history self).
Proof.
  unfold get_error_history.
  destruct error_type, severity, since; simpl;
    rewrite ?list_filter_filter;
    first [ apply list_filter_iff; unfold selected; simpl; intros; tauto
          | symmetry; apply filter_all; unfold selected; simpl; tauto ].
Qed.

Lemma get_error_history_limited (self : ETLErrorHandler) (n : Z)
    (error_type : option ETLErrorType) (severity : option ETLErrorSeverity)
    (since : option string) :
  get_error_history self (Some n) error_type severity since
  = if n =? 0 then get_error_history self None error_type severity since
    else slice_from (- n)
           (get_error_history self None error_type severity since).
Proof. reflexivity. Qed.

(** C2, as the code has it. A query returns the entries that pass the
    given filters, in ledger order; a limit [n >= 1] keeps the most recent
    [n] of them, in that order; the limit 0 is the same as no limit. *)
Theorem get_error_history_most_recent (self : ETLErrorHandler) (n : Z)
    (error_type : option ETLErrorType) (severity : option ETLErrorSeverity)
    (since : option string) :
  let filtered := filter (selected error_type severity since)
                    (error_history self) in
  get_error_history self None error_type severity since = filtered
  /\ get_error_history self (Some 0) error_type severity since = filtered
  /\ (1 <= n ->
      get_error_history self (Some n) error_type severity since
      = most_recent (Z.to_nat n) filtered).
Proof.
  intros filtered. subst filtered.
  rewrite !get_error_history_limited, get_error_history_unlimited.
  split; [done|]. split; [done|].
  intros Hn. destruct (Z.eqb_spec n 0); [lia|].
  apply slice_from_neg. lia.
Qed.

Lemma get_error_history_most_recent_witness :
  1 <= 1 /\
  get_error_history Run.one_error_handler (Some 1) (Some DATABASE_CONNECTION)
    None None
  = most_recent (Z.to_nat 1)
      (filter (selected (Some DATABASE_CONNECTION) None None)
         (error_history Run.one_error_handler)).
Proof.
  split; [lia|].
  apply (get_error_history_most_recent Run.one_error_handler 1
           (Some DATABASE_CONNECTION) None None).
  lia.
Defined.

(** With the limit 0 the query of a non-empty ledger is not the empty
    list of its most recent 0 entries. *)
Lemma get_error_history_limit_zero_counterexample :
  get_error_history Run.one_error_handler (Some 0) None None None
  <> most_recent 0
       (filter (selected None None None)
          (error_history Run.one_error_handler)).
Proof. vm_compute. discriminate. Qed.

(** ** The job history of the scheduler *)

Lemma over_slack_100 (n : nat) :
  Scheduler.over_slack n 100 = true <-> (120 < n)%nat.
Proof.
  unfold Scheduler.over_slack, Qle_bool. simpl.
  rewrite negb_true_iff, Z.leb_gt. lia.
Qed.

(** One append with the capacity of 100: the history is cut back to the
    most recent 100 only when it has passed 120 entries. *)
Lemma add_job_to_history_history (E : Env) (self : Scheduler.ETLScheduler)
    (job_info : dict) (w : World) :
  Scheduler.max_history_size self = 100 ->
  let stamped := <["timestamp" := VStr (utcnow E (clock w))]> job_info in
  let extended := Scheduler.job_history self ++ [stamped] in
  Scheduler.job_history (Scheduler._add_job_to_history E self job_info w).1
  = if decide (120 < length extended)%nat
    then most_recent 100 extended else extended.
Proof.
  intros Hmax stamped extended. unfold Scheduler._add_job_to_history. simpl.
  fold stamped. fold extended. rewrite Hmax.
  pose proof (over_slack_100 (length extended)) as Hs.
  destruct (Scheduler.over_slack (length extended) 100);
    case_decide as Hd; try reflexivity.
  - by apply slice_from_neg.
  - exfalso. apply Hd, Hs. reflexivity.
  - exfalso. apply Hs in Hd. discriminate.
Qed.

(** The daily [_cleanup_job_history] does cut the history back to 100. *)
Lemma cleanup_job_history_bound (self : Scheduler.ETLScheduler) :
  Scheduler.max_history_size self = 100 ->
  (length (Scheduler.job_history (Scheduler._cleanup_job_history self))
   <= 100)%nat.
Proof.
  intros Hmax. unfold Scheduler._cleanup_job_history. rewrite Hmax.
  destruct (Z.gtb_spec (Z.of_nat (length (Scheduler.job_history self))) 100);
    simpl; [|lia].
  rewrite slice_from_neg, length_most_recent by lia. lia.
Qed.

(** C3. Run from a new scheduler, 101 appends leave 101 entries in the
    job history, and the 150 appends of the repository's own
    [test_job_history_management] leave 108: the history is past
    [max_history_size = 100] after an append. *)
Theorem add_job_to_history_exceeds_max (E : Env) :
  let after n :=
    (add_jobs E Scheduler.ETLScheduler_init (replicate n Run.completed_job)
       World_init).1 in
  length (Scheduler.job_history (after 101%nat)) = 101%nat
  /\ length (Scheduler.job_history (after 150%nat)) = 108%nat
  /\ Scheduler.max_history_size (after 150%nat) = 100.
Proof. vm_compute. repeat split. Qed.

(** ** Retry policies *)

(** C6. [should_retry] answers [attempt < max_attempts] for the policy
    stored for the category, or for the UNKNOWN policy when the category
    has none; the handler built by [__init__] has a policy for every
    category, and never retries a DATA_VALIDATION failure. *)
Theorem should_retry_below_max_attempts (t : ETLErrorType) (attempt : Z) :
  (forall self fallback,
     retry_configs self !! UNKNOWN = Some fallback ->
     should_retry self t attempt
     = Ok (attempt <? max_attempts
                        (default fallback (retry_configs self !! t))))
  /\ (exists policy,
        retry_configs ETLErrorHandler_init !! t = Some policy
        /\ should_retry ETLErrorHandler_init t attempt
           = Ok (attempt <? max_attempts policy))
  /\ (1 <= attempt ->
      should_retry ETLErrorHandler_init DATA_VALIDATION attempt = Ok false).
Proof.
  split; [|split].
  - intros self fallback Hu. unfold should_retry, config_for. by rewrite Hu.
  - destruct t; eexists; (split; [vm_compute; reflexivity|reflexivity]).
  - intros Ha. change (should_retry ETLErrorHandler_init DATA_VALIDATION attempt)
      with (@Ok bool (attempt <? 1)).
    f_equal. apply Z.ltb_ge. lia.
Qed.

Lemma should_retry_below_max_attempts_witness :
  retry_configs ETLErrorHandler_init !! UNKNOWN = Some (RetryConfig_init 2 5)
  /\ 1 <= 1
  /\ should_retry ETLErrorHandler_init DATABASE_CONNECTION 1 = Ok true
  /\ should_retry ETLErrorHandler_init DATA_VALIDATION 1 = Ok false.
Proof.
  destruct (should_retry_below_max_attempts DATABASE_CONNECTION 1)
    as (Hgen & _ & _).
  destruct (should_retry_below_max_attempts DATA_VALIDATION 1)
    as (_ & _ & Hval).
  split; [reflexivity|]. split; [lia|]. split.
  - rewrite (Hgen ETLErrorHandler_init (RetryConfig_init 2 5)); reflexivity.
  - apply Hval. lia.
Defined.

(** ** Classification *)

Section Substrings.
Local Open Scope string_scope.

Lemma prefix_app (n post : string) : String.prefix n (n ++ post) = true.
Proof.
  induction n as [|c n IH]; simpl.
  - by destruct post.
  - destruct (ascii_dec c c); [exact IH|congruence].
Qed.

Lemma prefix_inv (n h : string) :
  String.prefix n h = true -> exists post, h = n ++ post.
Proof.
  revert h. induction n as [|c n IH]; intros h Hp.
  - by exists h.
  - destruct h as [|d h]; simpl in Hp; [discriminate|].
    destruct (ascii_dec c d) as [->|]; [|discriminate].
    destruct (IH h Hp) as [post ->]. by exists post.
Qed.

Lemma contains_true (n h : string) :
  contains n h = true <-> exists pre post, h = pre ++ n ++ post.
Proof.
  split.
  - induction h as [|c h IH]; cbn [contains]; intros Hc.
    + apply orb_true_iff in Hc as [Hc|Hc]; [|discriminate].
      apply prefix_inv in Hc as [post ->]. by exists "", post.
    + apply orb_true_iff in Hc as [Hc|Hc].
      * apply prefix_inv in Hc as [post ->]. by exists "", post.
      * destruct (IH Hc) as (pre & post & ->). by exists (String c pre), post.
  - intros (pre & post & ->).
    induction pre as [|c pre IH].
    + change (contains n (n ++ post) = true).
      destruct (n ++ post) eqn:Heq; cbn [contains]; rewrite <- Heq;
        by rewrite prefix_app.
    + change (contains n (String c (pre ++ n ++ post)) = true).
      cbn [contains]. by rewrite IH, orb_true_r.
Qed.

Lemma lower_app (a b : string) : lower (a ++ b) = lower a ++ lower b.
Proof. induction a as [|c a IH]; simpl; [done|by rewrite IH]. Qed.

Lemma lower_split (s a b : string) :
  lower s = a ++ b ->
  exists a' b', s = a' ++ b' /\ lower a' = a /\ lower b' = b.
Proof.
  revert s. induction a as [|c a IH]; intros s Hs.
  - by exists "", s.
  - destruct s as [|d s]; simpl in Hs; [discriminate|].
    injection Hs as Hc Hs.
    destruct (IH s Hs) as (a' & b' & -> & Ha & Hb).
    exists (String d a'), b'. simpl. by rewrite Hc, Ha, Hb.
Qed.

(** The test [kw in str(error).lower()] is the occurrence of [kw] in
    the message up to case. *)
Lemma contains_lower (kw msg : string) :
  contains kw (lower msg) = true <-> occurs_ci kw msg.
Proof.
  rewrite contains_true. split.
  - intros (pre & post & Hl).
    apply lower_split in Hl as (pre' & rest & -> & Hpre & Hrest).
    apply lower_split in Hrest as (k & post' & -> & Hk & Hpost).
    by exists pre', k, post'.
  - intros (pre & k & post & -> & Hk).
    exists (lower pre), (lower post). by rewrite !lower_app, Hk.
Qed.
End Substrings.

Example classify_examples :
  classify_error "Database connection failed" = DATABASE_CONNECTION /\
  classify_error "Request timed out" = NETWORK_TIMEOUT /\
  classify_error "Rate limit exceeded" = RESOURCE_LIMIT /\
  classify_error "Unknown error" = UNKNOWN /\
  default_retry_configs !! NETWORK_TIMEOUT = Some (RetryConfig_init 3 1).
Proof. vm_compute. repeat split. Qed.

Lemma classify_error_first_match (msg : string) :
  classify_error msg = first_match priority_table (lower msg).
Proof.
  unfold classify_error, priority_table. simpl.
  repeat match goal with
  | |- context [contains ?kw (lower msg)] =>
      destruct (contains kw (lower msg)); simpl; try reflexivity
  end.
Qed.



(** ** Backoff delays *)

Section Backoff.
Local Open Scope Q_scope.

Lemma float_pow_Ok (x : Q) (n : Z) (p : Q) :
  float_pow x n = Ok p -> p = x ^ n /\ Qabs (x ^ n) < float_overflow.
Proof.
  unfold float_pow. destruct ((n <? 0)%Z && Qeq_bool x 0); [done|].
  destruct (Qle_bool float_overflow (Qabs (x ^ n))) eqn:Hrange; [done|].
  intros [= <-]. split; [done|]. apply Qnot_le_lt. intros Hle.
  apply Qle_bool_iff in Hle. congruence.
Qed.

(** From the first attempt on, the power can only fail by leaving the
    range of the floats. *)
Lemma float_pow_from_1 (x : Q) (n : Z) :
  (0 <= n)%Z ->
  float_pow x n
  = if Qle_bool float_overflow (Qabs (x ^ n)) then Raise ExcOverflowError
    else Ok (x ^ n).
Proof.
  intros Hn. unfold float_pow.
  by destruct (Z.ltb_spec n 0); [lia|].
Qed.

Lemma capped_delay_Ok (attempt : Z) (config : RetryConfig) (d : Q) :
  capped_delay attempt config = Ok d ->
  d = Qmin (base_delay config * exponential_base config ^ (attempt - 1))
        (max_delay config).
Proof.
  unfold capped_delay.
  destruct (float_pow _ _) as [p|] eqn:Hp; [|done].
  apply float_pow_Ok in Hp as [-> _]. by intros [= <-].
Qed.

Lemma capped_delay_le_max (attempt : Z) (config : RetryConfig) (d : Q) :
  capped_delay attempt config = Ok d -> d <= max_delay config.
Proof. intros ->%capped_delay_Ok. apply Q.le_min_r. Qed.


Lemma jitter_le (delay cap r : Q) :
  delay <= cap -> 0 <= cap -> 0 <= r -> r <= 1 ->
  delay * ((1 # 2) + r * (1 # 2)) <= cap.
Proof.
  intros Hd Hcap Hr0 Hr1.
  destruct (Qlt_le_dec delay 0) as [Hneg|Hpos]; nra.
Qed.

(** [calculate_delay] in terms of the delay before jitter: the generator
    is drawn from once when the policy has jitter, and not at all when the
    power raises. *)
Lemma calculate_delay_Ok (E : Env) (attempt : Z) (config : RetryConfig)
    (w : World) (d : Q) :
  capped_delay attempt config = Ok d ->
  calculate_delay E attempt config w
  = if jitter config
    then (Ok (d * ((1 # 2) + random E (draws w) * (1 # 2))), drawn w)
    else (Ok d, w).
Proof. intros H. unfold calculate_delay. by rewrite H. Qed.

Lemma calculate_delay_Raise (E : Env) (attempt : Z) (config : RetryConfig)
    (w : World) (e : exn) :
  capped_delay attempt config = Raise e ->
  calculate_delay E attempt config w = (Raise e, w).
Proof. intros H. unfold calculate_delay. by rewrite H. Qed.

(** What [calculate_delay] can raise. *)
Lemma capped_delay_exn (attempt : Z) (config : RetryConfig) (e : exn) :
  capped_delay attempt config = Raise e ->
  e = ExcOverflowError \/ e = ExcZeroDivisionError.
Proof.
  unfold capped_delay, float_pow.
  destruct (_ && _); [intros [= <-]; by right|].
  destruct (Qle_bool _ _); [intros [= <-]; by left|done].
Qed.

Lemma calculate_delay_exn (E : Env) (attempt : Z) (config : RetryConfig)
    (w w' : World) (e : exn) :
  calculate_delay E attempt config w = (Raise e, w') ->
  w' = w /\ (e = ExcOverflowError \/ e = ExcZeroDivisionError).
Proof.
  unfold calculate_delay.
  destruct (capped_delay attempt config) as [d|e'] eqn:Hd.
  - by destruct (jitter config).
  - intros [= <- <-]. split; [done|]. by eapply capped_delay_exn.
Qed.

(** The first two delays need no power beyond the base itself. *)
Lemma capped_delay_1 (config : RetryConfig) :
  capped_delay 1 config
  = Ok (Qmin (base_delay config * 1) (max_delay config)).
Proof. reflexivity. Qed.

Lemma capped_delay_2 (config : RetryConfig) :
  finite_float (exponential_base config) ->
  capped_delay 2 config
  = Ok (Qmin (base_delay config * exponential_base config)
          (max_delay config)).
Proof.
  intros Hfinite. unfold capped_delay. rewrite float_pow_from_1 by lia.
  change (exponential_base config ^ (2 - 1))
    with (exponential_base config).
  destruct (Qle_bool _ _) eqn:Hle; [|done].
  apply Qle_bool_iff in Hle. unfold finite_float in Hfinite. lra.
Qed.

Lemma calculate_delay_returns (E : Env) (attempt : Z) (config : RetryConfig)
    (w : World) (d : Q) :
  capped_delay attempt config = Ok d ->
  exists delay w',
    calculate_delay E attempt config w = (Ok delay, w')
    /\ calls w' = calls w /\ clock w' = clock w.
Proof.
  intros Hd. rewrite (calculate_delay_Ok E _ _ w d Hd).
  destruct (jitter config); eauto.
Qed.

End Backoff.




(** With [max_delay = -1.0] the delay after jitter, -0.5 for the draw 0,
    is above [max_delay]. *)
Example calculate_delay_negative_cap :
  exists delay,
    (calculate_delay Run.E 1 Run.negative_cap World_init).1 = Ok delay
    /\ ~ (delay <= max_delay Run.negative_cap)%Q.
Proof.
  eexists. split; [reflexivity|].
  intros H. vm_compute in H. apply H. reflexivity.
Qed.

(** ** The retry loop *)

Lemma foldr_max_ge (x : Z) (l : list Z) : x ∈ l -> x <= foldr Z.max 0 l.
Proof.
  induction l as [|y l IH]; intros Hx.
  - by apply elem_of_nil in Hx.
  - apply elem_of_cons in Hx as [->|Hx]; simpl; [lia|].
    specialize (IH Hx). lia.
Qed.

Lemma config_for_bound (self : ETLErrorHandler) (t : ETLErrorType)
    (c : RetryConfig) :
  config_for self t = Ok c -> max_attempts c <= attempt_bound self.
Proof.
  unfold config_for, attempt_bound. intros Hc.
  destruct (retry_configs self !! UNKNOWN) as [fallback|] eqn:Hu;
    [|discriminate].
  injection Hc as <-.
  assert (exists k, retry_configs self !! k
                    = Some (default fallback (retry_configs self !! t)))
    as [k Hk].
  { destruct (retry_configs self !! t) eqn:Ht; [by exists t|by exists UNKNOWN]. }
  apply foldr_max_ge, list_elem_of_fmap.
  eexists. split; [reflexivity|].
  apply list_elem_of_fmap. exists (k, default fallback (retry_configs self !! t)).
  split; [reflexivity|]. by apply elem_of_map_to_list.
Qed.

Lemma should_retry_true (self : ETLErrorHandler) (t : ETLErrorType)
    (attempt : Z) :
  should_retry self t attempt = Ok true ->
  exists c, config_for self t = Ok c /\ attempt < max_attempts c.
Proof.
  unfold should_retry. destruct (config_for self t) as [c|]; [|discriminate].
  intros [= Hlt]. exists c. split; [done|]. by apply Z.ltb_lt.
Qed.

Lemma should_retry_false (self : ETLErrorHandler) (t : ETLErrorType)
    (attempt : Z) :
  should_retry self t attempt = Ok false ->
  exists c, config_for self t = Ok c /\ max_attempts c <= attempt.
Proof.
  unfold should_retry. destruct (config_for self t) as [c|]; [|discriminate].
  intros [= Hlt]. exists c. split; [done|]. by apply Z.ltb_ge.
Qed.

Lemma calculate_delay_world (E : Env) (attempt : Z) (config : RetryConfig)
    (w : World) :
  calls (calculate_delay E attempt config w).2 = calls w
  /\ clock (calculate_delay E attempt config w).2 = clock w
  /\ slept (calculate_delay E attempt config w).2 = slept w.
Proof.
  unfold calculate_delay.
  destruct (capped_delay attempt config); [|done]. by destruct (jitter config).
Qed.

Section Retry.
Context {A : Type}.
Variables (E : Env) (func : Callable A) (args kwargs : string).
Variables (context : option dict) (custom_retry_config : option RetryConfig).

Local Abbreviation once :=
  (attempt_once E func args kwargs context custom_retry_config).
Local Abbreviation loop fuel :=
  (retry_loop fuel E func args kwargs context custom_retry_config).
Local Abbreviation entry attempt msg n :=
  (failure_entry E func args kwargs context attempt msg n).
Local Abbreviation level msg :=
  (severity_level (determine_severity (classify_error msg))).
Local Abbreviation overwrite :=
  (ExcKeyError "Attempt to overwrite 'message' in LogRecord").

Lemma retry_loop_step fuel attempt self w :
  loop (S fuel) attempt self w
  = match once attempt self w with
    | Leaves r self' w' => Some (r, self', w')
    | Again self' w' => loop fuel (attempt + 1) self' w'
    end.
Proof. reflexivity. Qed.

(** A returning invocation ends the loop. *)
Lemma attempt_once_returns attempt self w v :
  await_call func (calls w) = Returns v ->
  once attempt self w = Leaves (Ok v) self (called w).
Proof. intros Hcall. unfold attempt_once. by rewrite Hcall. Qed.

(** A failure that is handed to an enabled [logger] ends the loop with the
    [KeyError] of the [logger] call: the clock has been read once, for the
    timestamp of the [ETLError], and nothing is logged. *)
Lemma attempt_once_log_raises attempt self w msg :
  await_call func (calls w) = Raises msg ->
  isEnabledFor E (level msg) = true ->
  once attempt self w = Leaves (Raise overwrite) self (tick (called w)).
Proof.
  intros Hcall Hlevel. unfold attempt_once. rewrite Hcall. cbn zeta.
  by rewrite log_error_raises.
Qed.

(** A failure that [log_error] records: what follows the recording. *)
Lemma attempt_once_logged attempt self w msg :
  await_call func (calls w) = Raises msg ->
  isEnabledFor E (level msg) = false ->
  let self1 := record_entry self (entry attempt msg (clock w)) in
  let w1 := tick (tick (called w)) in
  let etl_error :=
    wrap_error func args kwargs attempt msg (utcnow E (clock w)) in
  once attempt self w
  = match delay_config self custom_retry_config (classify_error msg) with
    | Raise e => Leaves (Raise e) self1 w1
    | Ok config =>
      match should_retry self (classify_error msg) attempt with
      | Raise e => Leaves (Raise e) self1 w1
      | Ok false =>
        match __name__ func with
        | Raise e => Leaves (Raise e) self1 w1
        | Ok _ => Leaves (Raise (ExcETLError etl_error)) self1 w1
        end
      | Ok true =>
        match calculate_delay E attempt config w1 with
        | (Raise e, w2) => Leaves (Raise e) self1 w2
        | (Ok delay, w2) =>
          match __name__ func with
          | Raise e => Leaves (Raise e) self1 w2
          | Ok _ => Again self1 (sleep delay w2)
          end
        end
      end
    end.
Proof.
  intros Hcall Hlevel self1 w1 etl_error.
  unfold attempt_once. rewrite Hcall. cbn zeta.
  by rewrite log_error_returns.
Qed.

(** The failure is recorded and the loop goes round again. *)
Lemma attempt_once_retries attempt self w msg c name delay w2 :
  await_call func (calls w) = Raises msg ->
  isEnabledFor E (level msg) = false ->
  config_for self (classify_error msg) = Ok c ->
  attempt < max_attempts c ->
  calculate_delay E attempt (default c custom_retry_config)
    (tick (tick (called w))) = (Ok delay, w2) ->
  fn_name func = Some name ->
  once attempt self w
  = Again (record_entry self (entry attempt msg (clock w))) (sleep delay w2).
Proof.
  intros Hcall Hlevel Hc Hlt Hdelay Hname.
  rewrite (attempt_once_logged _ _ _ msg) by done.
  unfold should_retry, delay_config, __name__. rewrite Hc, Hname.
  replace (attempt <? max_attempts c) with true
    by (symmetry; by apply Z.ltb_lt).
  destruct custom_retry_config; simpl in Hdelay; by rewrite Hdelay.
Qed.

(** The failure is recorded and raised: the stored policy allows no
    further attempt. *)
Lemma attempt_once_exhausted attempt self w msg c name :
  await_call func (calls w) = Raises msg ->
  isEnabledFor E (level msg) = false ->
  config_for self (classify_error msg) = Ok c ->
  max_attempts c <= attempt ->
  fn_name func = Some name ->
  once attempt self w
  = Leaves
      (Raise (ExcETLError
                (wrap_error func args kwargs attempt msg
                   (utcnow E (clock w)))))
      (record_entry self (entry attempt msg (clock w)))
      (tick (tick (called w))).
Proof.
  intros Hcall Hlevel Hc Hle Hname.
  rewrite (attempt_once_logged _ _ _ msg) by done.
  unfold should_retry, delay_config, __name__. rewrite Hc, Hname.
  replace (attempt <? max_attempts c) with false
    by (symmetry; by apply Z.ltb_ge).
  by destruct custom_retry_config.
Qed.

(** The failure is recorded and the policy lookup raises. *)
Lemma attempt_once_lookup_raises attempt self w msg :
  await_call func (calls w) = Raises msg ->
  isEnabledFor E (level msg) = false ->
  retry_configs self !! UNKNOWN = None ->
  once attempt self w
  = Leaves (Raise (ExcKeyError "unknown"))
      (record_entry self (entry attempt msg (clock w)))
      (tick (tick (called w))).
Proof.
  intros Hcall Hlevel Hunknown.
  rewrite (attempt_once_logged _ _ _ msg) by done.
  unfold should_retry, delay_config, config_for. rewrite Hunknown.
  by destruct custom_retry_config.
Qed.

(** What a turn that goes round again has done. *)
Lemma attempt_once_Again attempt self w self' w' :
  once attempt self w = Again self' w' ->
  exists msg c delay w2,
    await_call func (calls w) = Raises msg
    /\ isEnabledFor E (level msg) = false
    /\ config_for self (classify_error msg) = Ok c
    /\ attempt < max_attempts c
    /\ calculate_delay E attempt (default c custom_retry_config)
         (tick (tick (called w))) = (Ok delay, w2)
    /\ is_Some (fn_name func)
    /\ self' = record_entry self (entry attempt msg (clock w))
    /\ w' = sleep delay w2.
Proof.
  destruct (await_call func (calls w)) as [v|msg] eqn:Hcall.
  { by rewrite (attempt_once_returns _ _ _ v). }
  destruct (isEnabledFor E (level msg)) eqn:Hlevel.
  { by rewrite (attempt_once_log_raises _ _ _ msg). }
  rewrite (attempt_once_logged _ _ _ msg) by done.
  unfold delay_config, should_retry, __name__.
  destruct (config_for self (classify_error msg)) as [c|e] eqn:Hc.
  2:{ by destruct custom_retry_config. }
  assert (Hcfg : match custom_retry_config with
                 | Some c' => Ok c' | None => Ok c end
                 = Ok (default c custom_retry_config))
    by (by destruct custom_retry_config).
  rewrite Hcfg.
  destruct (Z.ltb_spec attempt (max_attempts c)) as [Hlt|Hge].
  2:{ by destruct (fn_name func). }
  destruct (calculate_delay E attempt (default c custom_retry_config) _)
    as [[delay|e] w2] eqn:Hdelay; [|done].
  destruct (fn_name func) as [name|] eqn:Hname; [|done].
  intros [= <- <-]. exists msg, c, delay, w2. eauto 10.
Qed.

(** What a turn that leaves the method has done: it returned the value of
    the invocation, or the invocation failed and either the [logger] call
    raised before anything was recorded, or the failure was recorded and
    an error raised without a sleep. *)
Lemma attempt_once_Leaves attempt self w r self' w' :
  once attempt self w = Leaves r self' w' ->
  (exists v,
     await_call func (calls w) = Returns v
     /\ r = Ok v /\ self' = self /\ w' = called w)
  \/ (exists msg,
        await_call func (calls w) = Raises msg
        /\ ((isEnabledFor E (level msg) = true
             /\ r = Raise overwrite /\ self' = self /\ w' = tick (called w))
            \/ (isEnabledFor E (level msg) = false
                /\ self' = record_entry self (entry attempt msg (clock w))
                /\ calls w' = S (calls w)
                /\ clock w' = S (S (clock w))
                /\ slept w' = slept w
                /\ exists e,
                     r = Raise e
                     /\ e <> overwrite
                     /\ forall err, e = ExcETLError err ->
                          err = wrap_error func args kwargs attempt msg
                                  (utcnow E (clock w))
                          /\ should_retry self (classify_error msg) attempt
                             = Ok false))).
Proof.
  destruct (await_call func (calls w)) as [v|msg] eqn:Hcall.
  { rewrite (attempt_once_returns _ _ _ v) by done.
    intros [= <- <- <-]. left. by exists v. }
  intros Hturn. right. exists msg. split; [done|]. revert Hturn.
  destruct (isEnabledFor E (level msg)) eqn:Hlevel.
  { rewrite (attempt_once_log_raises _ _ _ msg) by done.
    intros [= <- <- <-]. by left. }
  intros Hturn. right. split; [done|]. revert Hturn.
  rewrite (attempt_once_logged _ _ _ msg) by done.
  unfold delay_config, should_retry, __name__.
  destruct (config_for self (classify_error msg)) as [c|e] eqn:Hc.
  2:{ unfold config_for in Hc.
      destruct (retry_configs self !! UNKNOWN); [done|].
      injection Hc as <-.
      destruct custom_retry_config; intros [= <- <- <-];
        (do 4 (split; [done|])); eexists; by repeat split. }
  assert (Hcfg : match custom_retry_config with
                 | Some c' => Ok c' | None => Ok c end
                 = Ok (default c custom_retry_config))
    by (by destruct custom_retry_config).
  rewrite Hcfg.
  destruct (Z.ltb_spec attempt (max_attempts c)) as [Hlt|Hge].
  - pose proof (calculate_delay_world E attempt
                  (default c custom_retry_config) (tick (tick (called w))))
      as (Hcalls & Hclock & Hslept).
    destruct (calculate_delay E attempt (default c custom_retry_config) _)
      as [[delay|e] w2] eqn:Hdelay; cbn [fst snd] in *.
    + destruct (fn_name func); [done|]. intros [= <- <- <-].
      (do 4 (split; [done|])). eexists. by repeat split.
    + intros [= <- <- <-]. (do 4 (split; [done|])).
      exists e. split; [done|].
      by apply calculate_delay_exn in Hdelay as [_ [->| ->]].
  - destruct (fn_name func); intros [= <- <- <-];
      (do 4 (split; [done|])); eexists; (split; [done|]); (split; [done|]);
      [|done].
    by intros err [= <-].
Qed.

(** Both kinds of turn invoke the function once and keep the policies and
    the capacity of the handler. *)
Lemma attempt_once_frame attempt self w :
  match once attempt self w with
  | Leaves _ self' w' | Again self' w' =>
    calls w' = S (calls w)
    /\ retry_configs self' = retry_configs self
    /\ max_history_size self' = max_history_size self
  end.
Proof.
  destruct (once attempt self w) as [r self' w'|self' w'] eqn:Hturn.
  - apply attempt_once_Leaves in Hturn
      as [(v & _ & _ & -> & ->)
         |(msg & _ & [(_ & _ & -> & ->)|(_ & -> & Hcalls & _)])]; done.
  - apply attempt_once_Again in Hturn
      as (msg & c & delay & w2 & _ & _ & _ & _ & Hdelay & _ & -> & ->).
    pose proof (calculate_delay_world E attempt
                  (default c custom_retry_config) (tick (tick (called w))))
      as (Hcalls & _).
    rewrite Hdelay in Hcalls. done.
Qed.

(** The loop ends before the fuel of [handle_error_with_retry] does. *)
Lemma retry_loop_total fuel attempt self w :
  (0 < fuel)%nat ->
  attempt_bound self < attempt + Z.of_nat fuel ->
  is_Some (loop fuel attempt self w).
Proof.
  revert attempt self w.
  induction fuel as [|fuel IH]; intros attempt self w Hpos Hb; [lia|].
  rewrite retry_loop_step.
  destruct (once attempt self w) as [r self' w'|self' w'] eqn:Hturn;
    [eauto|].
  apply attempt_once_Again in Hturn
    as (msg & c & delay & w2 & _ & _ & Hc & Hlt & _ & _ & -> & _).
  apply config_for_bound in Hc.
  apply IH; change (attempt_bound (record_entry self ?e))
              with (attempt_bound self); lia.
Qed.

(** [handle_error_with_retry] always comes back. *)
Lemma handle_error_with_retry_total self w :
  is_Some (handle_error_with_retry E func args kwargs context
             custom_retry_config self w).
Proof.
  apply retry_loop_total; [lia|].
  pose proof (Z.le_max_l 0 (attempt_bound self)). lia.
Qed.
End Retry.

Lemma record_entry_room (self : ETLErrorHandler) (r : LogEntry) :
  Z.of_nat (length (error_history self)) + 1 <= max_history_size self ->
  error_history (record_entry self r) = error_history self ++ [r].
Proof.
  intros Hroom. unfold record_entry. simpl.
  destruct (Z.gtb_spec (Z.of_nat (length (error_history self ++ [r])))
              (max_history_size self)) as [Hgt|]; [|done].
  rewrite length_app in Hgt. simpl in Hgt. lia.
Qed.

(** With both failures recorded, and functions that have a name, the third
    attempt is reached. When the work function raises on its first two
    invocations and returns [v] on the third, the levels at which the two
    failures are handed to the [logger] are disabled, the function has a
    [__name__], the stored policies of the two failures' categories allow
    at least 3 attempts and the [exponential_base] used after the second
    failure is finite, [handle_error_with_retry] returns [v] after exactly
    3 invocations, having logged exactly the two failure entries (attempts
    1 and 2) and none for the third attempt; when the ledger has room for
    two entries they are its two new last entries. *)
Theorem handle_error_with_retry_third_attempt {A} (E : Env)
    (func : Callable A) (args kwargs : string) (context : option dict)
    (custom_retry_config : option RetryConfig) (self : ETLErrorHandler)
    (w : World) (m1 m2 : string) (v : A) (c1 c2 : RetryConfig) :
  await_call func (calls w) = Raises m1 ->
  await_call func (S (calls w)) = Raises m2 ->
  await_call func (S (S (calls w))) = Returns v ->
  quiet_for E [m1; m2] ->
  is_Some (fn_name func) ->
  config_for self (classify_error m1) = Ok c1 -> 3 <= max_attempts c1 ->
  config_for self (classify_error m2) = Ok c2 -> 3 <= max_attempts c2 ->
  finite_float (exponential_base (default c2 custom_retry_config)) ->
  let r1 := failure_entry E func args kwargs context 1 m1 (clock w) in
  let r2 := failure_entry E func args kwargs context 2 m2 (S (S (clock w))) in
  let self' := record_entry (record_entry self r1) r2 in
  (exists w',
     handle_error_with_retry E func args kwargs context custom_retry_config
       self w = Some (Ok v, self', w')
     /\ calls w' = (calls w + 3)%nat
     /\ length (slept w') = (length (slept w) + 2)%nat)
  /\ (Z.of_nat (length (error_history self)) + 2 <= max_history_size self ->
      error_history self' = error_history self ++ [r1; r2]).
Proof.
  intros H1 H2 H3 Hquiet [name Hname] Hc1 Hm1 Hc2 Hm2 Hfinite r1 r2 self'.
  split.
  - apply Forall_cons in Hquiet as [Hq1 Hquiet].
    apply Forall_cons in Hquiet as [Hq2 _].
    pose proof (config_for_bound _ _ _ Hc1) as Hb.
    unfold handle_error_with_retry.
    destruct (Z.to_nat (attempt_bound self)) as [|[|[|k]]] eqn:Hfuel;
      try lia.
    destruct (calculate_delay_returns E 1 (default c1 custom_retry_config)
                (tick (tick (called w))) _ (capped_delay_1 _))
      as (delay1 & w1 & Hdelay1 & Hcalls1 & Hclock1).
    rewrite retry_loop_step.
    rewrite (attempt_once_retries E func args kwargs context
               custom_retry_config 1 self w m1 c1 name delay1 w1)
      by (done || lia).
    fold r1.
    assert (Hcalls1' : calls (sleep delay1 w1) = S (calls w))
      by (simpl; by rewrite Hcalls1).
    assert (Hclock1' : clock (sleep delay1 w1) = S (S (clock w)))
      by (simpl; by rewrite Hclock1).
    destruct (calculate_delay_returns E (1 + 1)
                (default c2 custom_retry_config)
                (tick (tick (called (sleep delay1 w1)))) _
                (capped_delay_2 _ Hfinite))
      as (delay2 & w2 & Hdelay2 & Hcalls2 & Hclock2).
    rewrite retry_loop_step.
    rewrite (attempt_once_retries E func args kwargs context
               custom_retry_config (1 + 1) (record_entry self r1)
               (sleep delay1 w1) m2 c2 name delay2 w2);
      [|by rewrite Hcalls1'|done|done|lia|done|done].
    rewrite Hclock1'.
    rewrite retry_loop_step.
    rewrite (attempt_once_returns E func args kwargs context
               custom_retry_config (1 + 1 + 1) _ (sleep delay2 w2) v).
    2:{ simpl. rewrite Hcalls2. simpl. by rewrite Hcalls1. }
    eexists. split; [reflexivity|]. simpl. rewrite Hcalls2. simpl.
    rewrite Hcalls1. simpl. split; [lia|].
    pose proof (calculate_delay_world E (1 + 1)
                  (default c2 custom_retry_config)
                  (tick (tick (called (sleep delay1 w1)))))
      as (_ & _ & Hs2).
    rewrite Hdelay2 in Hs2. simpl in Hs2.
    pose proof (calculate_delay_world E 1 (default c1 custom_retry_config)
                  (tick (tick (called w)))) as (_ & _ & Hs1).
    rewrite Hdelay1 in Hs1. simpl in Hs1.
    rewrite length_app, Hs2, length_app, Hs1. simpl. lia.
  - intros Hroom. subst self'.
    assert (Hr1 : error_history (record_entry self r1)
                  = error_history self ++ [r1])
      by (apply record_entry_room; lia).
    rewrite record_entry_room; rewrite Hr1.
    + by rewrite <- app_assoc.
    + rewrite length_app. simpl.
      change (max_history_size (record_entry self r1))
        with (max_history_size self). lia.
Qed.

Lemma handle_error_with_retry_third_attempt_witness :
  let r1 := failure_entry Run.E_default Run.settling_function "()" "{}" None
              1 "Invalid record" 0 in
  let r2 := failure_entry Run.E_default Run.settling_function "()" "{}" None
              2 "Invalid record" 2 in
  let self := mkETLErrorHandler [] 1000
                (<[DATA_VALIDATION := RetryConfig_init 3 1]>
                   default_retry_configs) in
  (exists w',
     handle_error_with_retry Run.E_default Run.settling_function "()" "{}"
       None None self World_init
     = Some (Ok "success", record_entry (record_entry self r1) r2, w')
     /\ calls w' = 3%nat /\ length (slept w') = 2%nat)
  /\ error_history (record_entry (record_entry self r1) r2) = [r1; r2].
Proof.
  intros r1 r2 self.
  assert (Hquiet : quiet_for Run.E_default ["Invalid record"; "Invalid record"])
    by (repeat constructor).
  assert (Hname : is_Some (fn_name Run.settling_function)) by (by eexists).
  assert (Hfinite : finite_float (exponential_base (RetryConfig_init 3 1)))
    by (vm_compute; reflexivity).
  assert (H3 : 3 <= max_attempts (RetryConfig_init 3 1)) by (simpl; lia).
  destruct (handle_error_with_retry_third_attempt Run.E_default
              Run.settling_function "()" "{}" None None
              self World_init "Invalid record" "Invalid record"
              "success" (RetryConfig_init 3 1) (RetryConfig_init 3 1)
              eq_refl eq_refl eq_refl Hquiet Hname eq_refl H3 eq_refl H3
              Hfinite)
    as [Hrun Hledger].
  split; [exact Hrun|]. apply Hledger. simpl. lia.
Defined.

(** C4. The call of [test_error_recovery_workflow], whose work function
    raises "Temporary Azure service error" twice and then returns
    "success", with policies that allow 3 attempts. With the [logger] at
    its default level, and also at the level INFO, the first failure (of
    severity HIGH) is handed to [logger.error] with [extra=log_data], which
    raises [KeyError]: the call raises it after one invocation, with
    nothing logged and no sleep, instead of returning "success" after three
    invocations and two entries. Only with the [logger] silenced does the
    call return "success", after 3 invocations and with 2 entries. *)
Theorem handle_error_with_retry_third_attempt_key_error :
  handle_error_with_retry Run.E_default Run.unreliable_function "()" "{}"
    None (Some (Run.quick 3)) ETLErrorHandler_init World_init
  = Some (Raise (ExcKeyError "Attempt to overwrite 'message' in LogRecord"),
          ETLErrorHandler_init, tick (called World_init))
  /\ handle_error_with_retry Run.E_info Run.unreliable_function "()" "{}"
       None (Some (Run.quick 3)) ETLErrorHandler_init World_init
     = Some (Raise (ExcKeyError "Attempt to overwrite 'message' in LogRecord"),
             ETLErrorHandler_init, tick (called World_init))
  /\ match handle_error_with_retry Run.E Run.unreliable_function "()" "{}"
             None (Some (Run.quick 3)) ETLErrorHandler_init World_init with
     | Some (Ok v, self', w') =>
       v = "success" /\ calls w' = 3%nat
       /\ length (error_history self') = 2%nat
     | _ => False
     end.
Proof. vm_compute. repeat split. Qed.

(** C1. With the [logger] at its default level, a function that always
    raises "Data validation error" (severity LOW, which [logger.info] drops)
    and the override [RetryConfig(max_attempts=3)]: the error is raised at
    attempt 1, after one invocation and without a sleep, though 1 < 3: the
    stored DATA_VALIDATION policy, of one attempt, decides. The call of
    [test_handle_error_with_retry_max_attempts], with the override
    [RetryConfig(max_attempts=2)], raises the [KeyError] of the [logger]
    call at the first failure; with the [logger] silenced it invokes the
    function 5 times and logs 5 entries before the error is raised at
    attempt 5, as the stored DATABASE_CONNECTION policy says, and a failure
    of category UNKNOWN under the override [RetryConfig(max_attempts=3)] is
    raised at attempt 2, though 2 < 3. *)
Theorem handle_error_with_retry_ignores_override :
  match handle_error_with_retry Run.E_default Run.rejecting_function "()"
          "{}" None (Some (Run.quick 3)) ETLErrorHandler_init World_init with
  | Some (Raise (ExcETLError e), self', w') =>
    calls w' = 1%nat /\ length (error_history self') = 1%nat
    /\ details e !! "attempt" = Some (VInt 1)
    /\ slept w' = []
  | _ => False
  end
  /\ handle_error_with_retry Run.E_default Run.always_failing_function "()"
       "{}" None (Some (Run.quick 2)) ETLErrorHandler_init World_init
     = Some (Raise (ExcKeyError "Attempt to overwrite 'message' in LogRecord"),
             ETLErrorHandler_init, tick (called World_init))
  /\ match handle_error_with_retry Run.E Run.always_failing_function "()"
             "{}" None (Some (Run.quick 2)) ETLErrorHandler_init World_init
     with
     | Some (Raise (ExcETLError e), self', w') =>
       calls w' = 5%nat /\ length (error_history self') = 5%nat
       /\ details e !! "attempt" = Some (VInt 5)
       /\ length (slept w') = 4%nat
     | _ => False
     end
  /\ match handle_error_with_retry Run.E Run.obscure_function "()" "{}" None
            (Some (Run.quick 3)) ETLErrorHandler_init World_init with
     | Some (Raise (ExcETLError e), self', w') =>
       calls w' = 2%nat /\ length (error_history self') = 2%nat
       /\ details e !! "attempt" = Some (VInt 2)
     | _ => False
     end.
Proof. vm_compute. repeat split. Qed.

(** Callables of other kinds. A [functools.partial] has no [__name__]: its
    first failure is recorded, with [str(func)] as its "function", and then
    the log line that reads [func.__name__] raises [AttributeError]. A
    plain function hands back a value that cannot be awaited: the
    [TypeError] of [await] is a failure like any other, here of category
    UNKNOWN, with two attempts. An override whose [exponential_base] is
    1e200 makes the third delay raise [OverflowError]. *)
Example handle_error_with_retry_other_exits :
  match handle_error_with_retry Run.E_default Run.partial_function "()" "{}"
          None None ETLErrorHandler_init World_init with
  | Some (Raise (ExcAttributeError "__name__"), self', w') =>
    calls w' = 1%nat
    /\ e_details <$> error_history self'
       = [ <["attempt" := VInt 1]>
           (<["function" :=
                VStr "functools.partial(<function rejecting_function>)"]>
           (<["args" := VStr "()"]> (<["kwargs" := VStr "{}"]> ∅))) ]
  | _ => False
  end
  /\ match handle_error_with_retry Run.E Run.plain_function "()" "{}" None
            None ETLErrorHandler_init World_init with
     | Some (Raise (ExcETLError e), self', w') =>
       calls w' = 2%nat /\ error_type e = UNKNOWN
       /\ message e = "object str can't be used in 'await' expression"
     | _ => False
     end
  /\ match handle_error_with_retry Run.E Run.always_failing_function "()"
             "{}" None (Some Run.exploding) ETLErrorHandler_init World_init
     with
     | Some (Raise ExcOverflowError, self', w') =>
       calls w' = 3%nat /\ length (error_history self') = 3%nat
       /\ length (slept w') = 2%nat
     | _ => False
     end.
Proof. vm_compute. repeat split. Qed.

(** ** The decorator *)

(** C10. A decorated call always comes back, and what it did to the store
    of handler objects is to add one object at a new address: the result
    is that of [handle_error_with_retry] run on a new handler, and every
    handler that was in the store (the module-level [etl_error_handler]
    among them) is the same object as before, with the same
    [error_history] and the same query and statistics results. *)
Theorem with_etl_error_handling_frame {A} (E : Env) (context : option dict)
    (retry_config : option RetryConfig) (func : Callable A)
    (args kwargs : string) (st : store) (w : World) :
  exists r h' w',
    with_etl_error_handling E context retry_config func args kwargs st w
    = Some (r, <[fresh (dom st) := h']> st, w')
    /\ handle_error_with_retry E func args kwargs context retry_config
         ETLErrorHandler_init w = Some (r, h', w')
    /\ st !! fresh (dom st) = None
    /\ forall g h,
         st !! g = Some h ->
         (<[fresh (dom st) := h']> st) !! g = Some h
         /\ (forall h1, (<[fresh (dom st) := h']> st) !! g = Some h1 ->
             error_history h1 = error_history h
             /\ (forall limit t s since,
                   get_error_history h1 limit t s since
                   = get_error_history h limit t s since)
             /\ (forall since w0,
                   get_error_statistics E h1 since w0
                   = get_error_statistics E h since w0)).
Proof.
  destruct (handle_error_with_retry_total E func args kwargs context
              retry_config ETLErrorHandler_init w) as [[[r h'] w'] Hrun].
  assert (Hfresh : st !! fresh (dom st) = None).
  { apply not_elem_of_dom, is_fresh. }
  exists r, h', w'.
  split; [|split; [exact Hrun|split; [exact Hfresh|]]].
  - unfold with_etl_error_handling, new_handler, handle_error_with_retry_at.
    rewrite lookup_insert_eq, Hrun. by rewrite insert_insert_eq.
  - intros g h Hg.
    assert (Hg' : (<[fresh (dom st) := h']> st) !! g = Some h).
    { rewrite lookup_insert_ne; [done|]. intros <-. congruence. }
    split; [exact Hg'|].
    intros h1 Hh1. rewrite Hg' in Hh1. by injection Hh1 as <-.
Qed.

Lemma with_etl_error_handling_frame_witness :
  let st : store := {[ 0%nat := Run.one_error_handler ]} in
  exists r st' w',
    with_etl_error_handling Run.E None (Some (Run.quick 2))
      Run.always_failing_function "()" "{}" st World_init = Some (r, st', w')
    /\ st' !! 0%nat = Some Run.one_error_handler.
Proof.
  intros st.
  destruct (with_etl_error_handling_frame Run.E None (Some (Run.quick 2))
              Run.always_failing_function "()" "{}" st World_init)
    as (r & h' & w' & Hrun & _ & _ & Hframe).
  exists r, (<[fresh (dom st) := h']> st), w'.
  split; [exact Hrun|].
  apply (Hframe 0%nat Run.one_error_handler). reflexivity.
Defined.

(** ** Manual triggers *)

Lemma add_job_to_history_room (E : Env) (self : Scheduler.ETLScheduler)
    (job_info : dict) (w : World) :
  Scheduler.max_history_size self = 100 ->
  (length (Scheduler.job_history self) < 120)%nat ->
  Scheduler.job_history (Scheduler._add_job_to_history E self job_info w).1
  = Scheduler.job_history self
    ++ [<["timestamp" := VStr (utcnow E (clock w))]> job_info].
Proof.
  intros Hmax Hlen.
  rewrite add_job_to_history_history by done. cbn zeta.
  rewrite decide_False; [done|]. rewrite length_app. simpl. lia.
Qed.

(** C9, as the code has it. When closing the database session does not
    raise, a manual trigger comes back with a dictionary and with the
    history that one [_add_job_to_history] call makes of the old one; the
    record carries the job id and the job type. When the session cannot be
    had, or the orchestrator's run for the data type raises, the returned
    dictionary and the record both have the status "failed" and the string
    form of that error; when the run returns, its result is returned and
    the record has its status and error. With the capacity of 100 and fewer
    than 120 entries before, the history grows by exactly one entry. *)
Theorem trigger_manual_etl_one_record (E : Env)
    (etl_orchestrator : Scheduler.ETLOrchestrator)
    (session : Scheduler.Session)
    (self : Scheduler.ETLScheduler) (data_type : string)
    (start_date end_date : Z) (job_name : option string) (w : World) :
  Scheduler.db_close session = Returns tt ->
  let run :=
    if String.eqb data_type "all"
    then Scheduler.run_full_etl etl_orchestrator start_date end_date
    else Scheduler.run_incremental_etl etl_orchestrator data_type start_date
           end_date in
  let job_id :=
    ("manual_etl_" ++ data_type ++ "_" ++ utcnow_compact E (clock w))%string in
  exists result job_info w1,
    Scheduler.trigger_manual_etl E etl_orchestrator session self data_type
      start_date end_date job_name w
    = (result, (Scheduler._add_job_to_history E self job_info w1).1,
       (Scheduler._add_job_to_history E self job_info w1).2)
    /\ job_info !! "job_id" = Some (VStr job_id)
    /\ job_info !! "job_type" = Some (VStr ("manual_etl_" ++ data_type)%string)
    /\ (forall msg,
          Scheduler.get_db session = Raises msg
          \/ (Scheduler.get_db session = Returns tt /\ run = Raises msg) ->
          result !! "status" = Some (VStr "failed")
          /\ result !! "error" = Some (VStr msg)
          /\ result !! "job_id" = Some (VStr job_id)
          /\ job_info !! "status" = Some (VStr "failed")
          /\ job_info !! "error" = Some (VStr msg))
    /\ (forall res,
          Scheduler.get_db session = Returns tt -> run = Returns res ->
          result = res
          /\ job_info !! "status" = Some (Scheduler.get res "status")
          /\ job_info !! "error" = Some (Scheduler.get res "error"))
    /\ (Scheduler.max_history_size self = 100 ->
        (length (Scheduler.job_history self) < 120)%nat ->
        Scheduler.job_history
          (Scheduler._add_job_to_history E self job_info w1).1
        = Scheduler.job_history self
          ++ [<["timestamp" := VStr (utcnow E (clock w1))]> job_info]).
Proof.
  intros Hclose run job_id. unfold Scheduler.trigger_manual_etl.
  unfold Scheduler.leave_session. rewrite Hclose. fold run. fold job_id.
  destruct (Scheduler.get_db session) as [[]|msg0].
  - destruct run as [res|msg0].
    + destruct (String.eqb data_type "all");
        (eexists _, _, _; split; [reflexivity|]);
        (split; [reflexivity|]); (split; [reflexivity|]);
        (split; [by intros ? [[=]|[_ [=]]]|]);
        (split; [|apply add_job_to_history_room]);
        by intros ? _ [= <-].
    + eexists _, _, _. split; [reflexivity|].
      split; [reflexivity|]. split; [reflexivity|].
      split; [|split; [by intros ? _ [=]|apply add_job_to_history_room]].
      intros ? [[=]|[_ [= <-]]]. repeat split; reflexivity.
  - eexists _, _, _. split; [reflexivity|].
    split; [reflexivity|]. split; [reflexivity|].
    split; [|split; [by intros ? [=]|apply add_job_to_history_room]].
    intros ? [[= <-]|[[=] _]]. repeat split; reflexivity.
Qed.

Lemma trigger_manual_etl_one_record_witness :
  Scheduler.db_close Run.session = Returns tt
  /\ (exists result h w',
        Scheduler.trigger_manual_etl Run.E Run.failing_orchestrator
          Run.session Scheduler.ETLScheduler_init "appointments" 0 30 None
          World_init
        = (result, h, w')
        /\ result !! "status" = Some (VStr "failed")
        /\ result !! "error" = Some (VStr "database connection failed")
        /\ length (Scheduler.job_history h) = 1%nat)
  /\ (exists h w',
        Scheduler.trigger_manual_etl Run.E Run.working_orchestrator
          Run.session Scheduler.ETLScheduler_init "appointments" 0 30 None
          World_init
        = (Run.completed_result, h, w')
        /\ length (Scheduler.job_history h) = 1%nat)
  /\ (exists result h w',
        Scheduler.trigger_manual_etl Run.E Run.working_orchestrator
          Run.no_session Scheduler.ETLScheduler_init "all" 0 30 None
          World_init
        = (result, h, w')
        /\ result !! "error" = Some (VStr "could not connect to server")
        /\ length (Scheduler.job_history h) = 1%nat).
Proof.
  split; [reflexivity|]. split; [|split].
  - destruct (trigger_manual_etl_one_record Run.E Run.failing_orchestrator
                Run.session Scheduler.ETLScheduler_init "appointments" 0 30
                None World_init eq_refl)
      as (result & job_info & w1 & Hrun & _ & _ & Hfail & _ & Hroom).
    destruct (Hfail "database connection failed" (or_intror (conj eq_refl eq_refl)))
      as (Hstatus & Herror & _).
    eexists _, _, _. split; [exact Hrun|].
    split; [exact Hstatus|]. split; [exact Herror|].
    rewrite Hroom; [reflexivity|reflexivity|simpl; lia].
  - destruct (trigger_manual_etl_one_record Run.E Run.working_orchestrator
                Run.session Scheduler.ETLScheduler_init "appointments" 0 30
                None World_init eq_refl)
      as (result & job_info & w1 & Hrun & _ & _ & _ & Hok & Hroom).
    destruct (Hok Run.completed_result eq_refl eq_refl) as (-> & _).
    eexists _, _. split; [exact Hrun|].
    rewrite Hroom; [reflexivity|reflexivity|simpl; lia].
  - destruct (trigger_manual_etl_one_record Run.E Run.working_orchestrator
                Run.no_session Scheduler.ETLScheduler_init "all" 0 30
                None World_init eq_refl)
      as (result & job_info & w1 & Hrun & _ & _ & Hfail & _ & Hroom).
    destruct (Hfail "could not connect to server" (or_introl eq_refl))
      as (_ & Herror & _).
    eexists _, _, _. split; [exact Hrun|]. split; [exact Herror|].
    rewrite Hroom; [reflexivity|reflexivity|simpl; lia].
Defined.

(** When [db.close()] raises after a run that completed, the trigger has
    already appended the record of the run: the [except] branch appends a
    second, failed record and the failed dictionary is returned in place of
    the result of the run. *)
Lemma trigger_manual_etl_two_records_counterexample :
  exists result h w',
    Scheduler.trigger_manual_etl Run.E Run.working_orchestrator
      Run.unclosable_session Scheduler.ETLScheduler_init "appointments" 0 30
      None World_init
    = (result, h, w')
    /\ result !! "status" = Some (VStr "failed")
    /\ result !! "error" = Some (VStr "connection already closed")
    /\ (fun job_info : dict => job_info !! "status")
       <$> Scheduler.job_history h
       = [Some (VStr "completed"); Some (VStr "failed")].
Proof. eexists _, _, _. split; [reflexivity|]. by vm_compute. Qed.

(** The run of [test_trigger_manual_etl]. *)
Example trigger_manual_etl_completed :
  let '(result, h, _) :=
    Scheduler.trigger_manual_etl Run.E Run.working_orchestrator Run.session
      Scheduler.ETLScheduler_init "appointments" 0 30 None World_init in
  result !! "status" = Some (VStr "completed")
  /\ length (Scheduler.job_history h) = 1%nat.
Proof. vm_compute. split; reflexivity. Qed.

(** In general: when [db.close()] raises [msg], the trigger returns the
    failed dictionary with the string form of that error, whatever the run
    did, and a run that returned is in the history as well, before the
    failed record. *)
Lemma trigger_manual_etl_close_raises (E : Env)
    (etl_orchestrator : Scheduler.ETLOrchestrator)
    (session : Scheduler.Session)
    (self : Scheduler.ETLScheduler) (data_type : string)
    (start_date end_date : Z) (job_name : option string) (w : World)
    (msg : string) :
  Scheduler.get_db session = Returns tt ->
  Scheduler.db_close session = Raises msg ->
  Scheduler.max_history_size self = 100 ->
  (length (Scheduler.job_history self) < 119)%nat ->
  let run :=
    if String.eqb data_type "all"
    then Scheduler.run_full_etl etl_orchestrator start_date end_date
    else Scheduler.run_incremental_etl etl_orchestrator data_type start_date
           end_date in
  let out :=
    Scheduler.trigger_manual_etl E etl_orchestrator session self data_type
      start_date end_date job_name w in
  out.1.1 !! "status" = Some (VStr "failed")
  /\ out.1.1 !! "error" = Some (VStr msg)
  /\ length (Scheduler.job_history out.1.2)
     = (length (Scheduler.job_history self)
        + match run with Returns _ => 2 | Raises _ => 1 end)%nat.
Proof.
  intros Hget Hclose Hmax Hlen run out. subst out.
  unfold Scheduler.trigger_manual_etl, Scheduler.leave_session.
  rewrite Hget, Hclose. fold run.
  destruct run as [res|msg0].
  - destruct (String.eqb data_type "all"); cbn zeta;
      repeat match goal with
             | |- context [Scheduler._add_job_to_history ?E ?s ?j ?w0] =>
               let Hr := fresh "Hr" in
               pose proof (add_job_to_history_room E s j w0) as Hr;
               destruct (Scheduler._add_job_to_history E s j w0)
                 as [? ?] eqn:?
             end; cbn [fst snd] in *;
      (split; [reflexivity|]); (split; [reflexivity|]).
    all: rewrite Hr0, Hr, !length_app; simpl; try lia.
    all: try (apply (f_equal fst) in Heqp; simpl in Heqp; by subst).
    all: rewrite Hr, length_app by (done || lia); simpl; lia.
  - cbn zeta.
    match goal with
    | |- context [Scheduler._add_job_to_history ?E ?s ?j ?w0] =>
      pose proof (add_job_to_history_room E s j w0 Hmax ltac:(lia)) as Hr;
      destruct (Scheduler._add_job_to_history E s j w0) as [? ?]
    end. cbn [fst snd] in *.
    split; [reflexivity|]. split; [reflexivity|].
    rewrite Hr, length_app. simpl. lia.
Qed.

Lemma trigger_manual_etl_close_raises_witness :
  exists result h w',
    Scheduler.trigger_manual_etl Run.E Run.failing_orchestrator
      Run.unclosable_session Scheduler.ETLScheduler_init "all" 0 30 None
      World_init
    = (result, h, w')
    /\ result !! "error" = Some (VStr "connection already closed")
    /\ length (Scheduler.job_history h) = 1%nat.
Proof.
  pose proof (trigger_manual_etl_close_raises Run.E Run.failing_orchestrator
                Run.unclosable_session Scheduler.ETLScheduler_init "all" 0 30
                None World_init "connection already closed" eq_refl eq_refl
                eq_refl ltac:(simpl; lia))
    as (_ & Herror & Hlen).
  destruct (Scheduler.trigger_manual_etl Run.E Run.failing_orchestrator
              Run.unclosable_session Scheduler.ETLScheduler_init "all" 0 30
              None World_init) as [[result h] w'].
  exists result, h, w'. split; [reflexivity|].
  split; [exact Herror|exact Hlen].
Defined.

Lemma log_error_keeps_most_recent_1000_witness :
  let errs :=
    [(Run.validation_error, None); (Run.db_error, None);
     (Run.validation_error, Some (<["job" := VStr "daily"]> ∅))] in
  max_history_size ETLErrorHandler_init = 1000
  /\ (length (error_history ETLErrorHandler_init) <= 1000)%nat
  /\ (log_errors Run.E_default ETLErrorHandler_init errs World_init).1.1
     = [Ok tt;
        Raise (ExcKeyError "Attempt to overwrite 'message' in LogRecord");
        Ok tt]
  /\ error_history
       (log_errors Run.E_default ETLErrorHandler_init errs World_init).1.2
     = [to_entry Run.validation_error ∅ "2024-01-15T10:00:00";
        to_entry Run.validation_error (<["job" := VStr "daily"]> ∅)
          "2024-01-15T10:00:00"].
Proof.
  intros errs.
  destruct (log_error_keeps_most_recent_1000 Run.E_default
              ETLErrorHandler_init errs World_init) as (_ & Hh & _);
    [reflexivity|simpl; lia|].
  split; [reflexivity|]. split; [simpl; lia|]. split; [reflexivity|].
  rewrite Hh. reflexivity.
Defined.

(** ** Runs of the retry loop as a whole *)

Section RetryRuns.
Context {A : Type}.
Variables (E : Env) (func : Callable A) (args kwargs : string).
Variables (context : option dict) (custom_retry_config : option RetryConfig).

Local Abbreviation once :=
  (attempt_once E func args kwargs context custom_retry_config).
Local Abbreviation loop fuel :=
  (retry_loop fuel E func args kwargs context custom_retry_config).
Local Abbreviation entry attempt msg n :=
  (failure_entry E func args kwargs context attempt msg n).
Local Abbreviation entries attempt n msgs :=
  (failure_entries E func args kwargs context attempt n msgs).
Local Abbreviation level msg :=
  (severity_level (determine_severity (classify_error msg))).
Local Abbreviation overwrite :=
  (ExcKeyError "Attempt to overwrite 'message' in LogRecord").

(** Every run of the loop is a run of failed invocations ended by a
    returning invocation or by an error after the last failure. The
    failures before the last were recorded, each with its attempt number,
    and slept after; the last one is recorded too unless the [logger] call
    made for it raised. *)
Lemma retry_loop_trace fuel attempt self w r self' w' :
  loop fuel attempt self w = Some (r, self', w') ->
  exists msgs recorded,
    (forall i msg, msgs !! i = Some msg ->
       await_call func (calls w + i) = Raises msg)
    /\ self' = foldl record_entry self (entries attempt (clock w) recorded)
    /\ quiet_for E recorded
    /\ match r with
       | Ok v =>
         await_call func (calls w + length msgs) = Returns v
         /\ recorded = msgs
         /\ calls w' = (calls w + length msgs + 1)%nat
         /\ clock w' = (clock w + 2 * length msgs)%nat
         /\ length (slept w') = (length (slept w) + length msgs)%nat
       | Raise e =>
         calls w' = (calls w + length msgs)%nat
         /\ (length (slept w') + 1 = length (slept w) + length msgs)%nat
         /\ exists msg,
              last msgs = Some msg
              /\ ((e = overwrite
                   /\ isEnabledFor E (level msg) = true
                   /\ recorded ++ [msg] = msgs
                   /\ (clock w' + 1 = clock w + 2 * length msgs)%nat)
                  \/ (e <> overwrite
                      /\ recorded = msgs
                      /\ clock w' = (clock w + 2 * length msgs)%nat
                      /\ forall err, e = ExcETLError err ->
                           err = wrap_error func args kwargs
                                   (attempt + Z.of_nat (length msgs) - 1) msg
                                   (utcnow E
                                      (clock w + 2 * (length msgs - 1)))))
       end.
Proof.
  revert attempt self w.
  induction fuel as [|fuel IH]; intros attempt self w Hrun; [discriminate|].
  rewrite retry_loop_step in Hrun.
  destruct (once attempt self w) as [r0 self0 w0|self0 w0] eqn:Hturn.
  - injection Hrun as -> -> ->.
    apply attempt_once_Leaves in Hturn
      as [(v & Hcall & -> & -> & ->)
         |(msg & Hcall
           & [(Hlevel & -> & -> & ->)
             |(Hlevel & -> & Hcalls & Hclock & Hslept & e & -> & Hne & Herr)])].
    + exists [], []. simpl. rewrite !Nat.add_0_r.
      repeat split; try done; try lia. constructor.
    + exists [msg], []. simpl. split; [|split; [done|split; [constructor|]]].
      { intros [|i] m Hi; simpl in Hi; [|done].
        injection Hi as <-. by rewrite Nat.add_0_r. }
      split; [lia|]. split; [lia|]. exists msg. split; [done|].
      left. repeat split; try done; lia.
    + exists [msg], [msg]. simpl.
      split; [|split; [done|split; [by repeat constructor|]]].
      { intros [|i] m Hi; simpl in Hi; [|done].
        injection Hi as <-. by rewrite Nat.add_0_r. }
      rewrite Hslept.
      split; [lia|]. split; [lia|]. exists msg. split; [done|].
      right. split; [done|]. split; [done|]. split; [lia|].
      intros err He. destruct (Herr err He) as [-> _].
      f_equal; [lia|f_equal; lia].
  - pose proof Hturn as Hagain.
    apply attempt_once_Again in Hagain
      as (msg & c & delay & w2 & Hcall & Hlevel & Hc & Hlt & Hdelay & _
          & -> & ->).
    pose proof (calculate_delay_world E attempt
                  (default c custom_retry_config) (tick (tick (called w))))
      as (Hcalls & Hclock & Hslept).
    rewrite Hdelay in Hcalls, Hclock, Hslept. simpl in Hcalls, Hclock, Hslept.
    destruct (IH _ _ _ Hrun) as (msgs & recorded & Hmsgs & Hself & Hq & Hr).
    simpl in Hmsgs, Hself, Hr. rewrite Hcalls, Hclock in *.
    exists (msg :: msgs), (msg :: recorded).
    split; [|split; [exact Hself|split; [by constructor|]]].
    { intros [|i] m Hi; simpl in Hi.
      - injection Hi as <-. by rewrite Nat.add_0_r.
      - replace (calls w + S i)%nat with (S (calls w) + i)%nat by lia.
        by apply Hmsgs. }
    destruct r as [v|e].
    + destruct Hr as (Hv & -> & Hc' & Hk' & Hsl). simpl.
      replace (calls w + S (length msgs))%nat
        with (S (calls w) + length msgs)%nat by lia.
      rewrite length_app, Hslept in Hsl. simpl in Hsl.
      split; [done|]. split; [done|]. split; [lia|]. split; lia.
    + destruct Hr as (Hc' & Hsl & m & Hlast & Hend). simpl length.
      rewrite length_app, Hslept in Hsl. simpl in Hsl.
      split; [lia|]. split; [lia|].
      exists m. split.
      { destruct msgs; [discriminate|]. exact Hlast. }
      destruct Hend as [(-> & Hen & <- & Hk)|(Hne & -> & Hk & Herr)].
      * left. repeat split; try done; lia.
      * right. split; [done|]. split; [done|]. split; [lia|].
        intros err ->. rewrite (Herr err eq_refl).
        destruct msgs as [|m0 msgs]; [discriminate|]. simpl length.
        f_equal; [lia|f_equal; lia].
Qed.

(** The work function is invoked at most as often as the greatest stored
    [max_attempts] allows from [attempt] on, and at least once. *)
Lemma retry_loop_calls_bound fuel attempt self w r self' w' :
  loop fuel attempt self w = Some (r, self', w') ->
  (calls w < calls w')%nat
  /\ Z.of_nat (calls w')
     <= Z.of_nat (calls w) + Z.max 1 (attempt_bound self - attempt + 1).
Proof.
  revert attempt self w.
  induction fuel as [|fuel IH]; intros attempt self w Hrun; [discriminate|].
  rewrite retry_loop_step in Hrun.
  pose proof (attempt_once_frame E func args kwargs context
                custom_retry_config attempt self w) as Hframe.
  destruct (once attempt self w) as [r0 self0 w0|self0 w0] eqn:Hturn.
  - injection Hrun as -> -> ->. lia.
  - apply attempt_once_Again in Hturn
      as (msg & c & delay & w2 & _ & _ & Hc & Hlt & _ & _ & -> & ->).
    apply config_for_bound in Hc.
    destruct (IH _ _ _ Hrun) as [Hlo Hhi].
    change (attempt_bound (record_entry self ?e)) with (attempt_bound self)
      in Hhi.
    lia.
Qed.
End RetryRuns.

(** X1. A call of [handle_error_with_retry] always comes back, and what
    it did is a run of failed invocations followed by its end. Every
    failure but the last is recorded, in order and with the attempt numbers
    1, 2, ..., and followed by a sleep. A returned value is that of the
    invocation after the failures, which are then all recorded. A raised
    error comes after the last failure: it is the [KeyError] of the
    [logger] call made for that failure, which is then not recorded, or
    another error, with the failure recorded; a raised [ETLError] is the
    wrapped last failure with its attempt number. *)
Theorem handle_error_with_retry_accounting {A} (E : Env) (func : Callable A)
    (args kwargs : string) (context : option dict)
    (custom_retry_config : option RetryConfig) (self : ETLErrorHandler)
    (w : World) :
  exists r self' w' msgs recorded,
    handle_error_with_retry E func args kwargs context custom_retry_config
      self w = Some (r, self', w')
    /\ (forall i msg, msgs !! i = Some msg ->
          await_call func (calls w + i) = Raises msg)
    /\ self' = foldl record_entry self
                 (failure_entries E func args kwargs context 1 (clock w)
                    recorded)
    /\ quiet_for E recorded
    /\ match r with
       | Ok v =>
         await_call func (calls w + length msgs) = Returns v
         /\ recorded = msgs
         /\ calls w' = (calls w + length msgs + 1)%nat
         /\ length (slept w') = (length (slept w) + length msgs)%nat
       | Raise e =>
         calls w' = (calls w + length msgs)%nat
         /\ (length (slept w') + 1 = length (slept w) + length msgs)%nat
         /\ exists msg,
              last msgs = Some msg
              /\ ((e = ExcKeyError "Attempt to overwrite 'message' in LogRecord"
                   /\ isEnabledFor E
                        (severity_level
                           (determine_severity (classify_error msg))) = true
                   /\ recorded ++ [msg] = msgs)
                  \/ (e <> ExcKeyError
                             "Attempt to overwrite 'message' in LogRecord"
                      /\ recorded = msgs
                      /\ forall err, e = ExcETLError err ->
                           err = wrap_error func args kwargs
                                   (Z.of_nat (length msgs)) msg
                                   (utcnow E
                                      (clock w + 2 * (length msgs - 1)))))
       end.
Proof.
  destruct (handle_error_with_retry_total E func args kwargs context
              custom_retry_config self w) as [[[r self'] w'] Hrun].
  pose proof Hrun as Hrun'. unfold handle_error_with_retry in Hrun'.
  destruct (retry_loop_trace _ _ _ _ _ _ _ _ _ _ _ _ _ Hrun')
    as (msgs & recorded & Hmsgs & Hself & Hq & Hr).
  exists r, self', w', msgs, recorded. split; [exact Hrun|].
  split; [exact Hmsgs|]. split; [exact Hself|]. split; [exact Hq|].
  destruct r as [v|e].
  - destruct Hr as (Hv & Hrec & Hc & _ & Hs). by repeat split.
  - destruct Hr as (Hc & Hs & msg & Hlast & Hend).
    split; [exact Hc|]. split; [exact Hs|].
    exists msg. split; [exact Hlast|].
    destruct Hend as [(-> & Hen & Hrec & _)|(Hne & Hrec & _ & Herr)].
    + by left.
    + right. split; [done|]. split; [done|].
      intros err He. rewrite (Herr err He). f_equal. lia.
Qed.

Lemma handle_error_with_retry_accounting_witness :
  (exists self' w',
     handle_error_with_retry Run.E_default Run.settling_function "()" "{}"
       None None ETLErrorHandler_init World_init
     = Some (Raise (ExcETLError
                      (wrap_error Run.settling_function "()" "{}" 1
                         "Invalid record" "2024-01-15T10:00:00")),
             self', w')
     /\ calls w' = 1%nat /\ length (error_history self') = 1%nat)
  /\ (exists w',
        handle_error_with_retry Run.E_default Run.unreliable_function "()"
          "{}" None None ETLErrorHandler_init World_init
        = Some (Raise (ExcKeyError
                         "Attempt to overwrite 'message' in LogRecord"),
                ETLErrorHandler_init, w')
        /\ calls w' = 1%nat).
Proof.
  split.
  - destruct (handle_error_with_retry_accounting Run.E_default
                Run.settling_function "()" "{}" None None
                ETLErrorHandler_init World_init)
      as (r & self' & w' & msgs & recorded & Hrun & _).
    vm_compute in Hrun. injection Hrun as <- <- <-.
    eexists _, _. split; [vm_compute; reflexivity|]. split; reflexivity.
  - destruct (handle_error_with_retry_accounting Run.E_default
                Run.unreliable_function "()" "{}" None None
                ETLErrorHandler_init World_init)
      as (r & self' & w' & msgs & recorded & Hrun & _).
    vm_compute in Hrun. injection Hrun as <- <- <-.
    eexists. split; [vm_compute; reflexivity|]. reflexivity.
Defined.

Section Exhaustion.
Context {A : Type}.
Variables (E : Env) (func : Callable A) (args kwargs : string).
Variables (context : option dict) (custom_retry_config : option RetryConfig).
Variables (msg : string) (c : RetryConfig) (name : string).
Hypothesis Halways : forall k, await_call func k = Raises msg.
Hypothesis Hquiet :
  isEnabledFor E (severity_level (determine_severity (classify_error msg)))
  = false.
Hypothesis Hname : fn_name func = Some name.
Hypothesis Hdelays :
  forall attempt, 1 <= attempt < max_attempts c ->
    exists d, capped_delay attempt (default c custom_retry_config) = Ok d.

Local Abbreviation loop fuel :=
  (retry_loop fuel E func args kwargs context custom_retry_config).

Lemma retry_loop_always_failing (d : nat) :
  forall fuel attempt self w,
    1 <= attempt ->
    config_for self (classify_error msg) = Ok c ->
    d = Z.to_nat (max_attempts c - attempt) ->
    (d < fuel)%nat ->
    exists w',
      loop fuel attempt self w
      = Some (Raise (ExcETLError
                       (wrap_error func args kwargs (attempt + Z.of_nat d) msg
                          (utcnow E (clock w + 2 * d)))),
              foldl record_entry self
                (failure_entries E func args kwargs context attempt (clock w)
                   (replicate (S d) msg)),
              w')
      /\ calls w' = (calls w + S d)%nat
      /\ length (slept w') = (length (slept w) + d)%nat.
Proof.
  induction d as [|d IH]; intros fuel attempt self w Hattempt Hc Hd Hfuel;
    (destruct fuel as [|fuel]; [lia|]); rewrite retry_loop_step.
  - rewrite (attempt_once_exhausted E func args kwargs context
               custom_retry_config attempt self w msg c name) by (done || lia).
    eexists. split.
    + simpl. rewrite Z.add_0_r, Nat.add_0_r. reflexivity.
    + simpl. lia.
  - assert (Hlt : attempt < max_attempts c) by lia.
    destruct (Hdelays attempt) as [d0 Hd0]; [lia|].
    destruct (calculate_delay_returns E attempt
                (default c custom_retry_config) (tick (tick (called w)))
                d0 Hd0) as (delay & w2 & Hdelay & Hcalls & Hclock).
    pose proof (calculate_delay_world E attempt
                  (default c custom_retry_config) (tick (tick (called w))))
      as (_ & _ & Hslept).
    rewrite Hdelay in Hslept. simpl in Hcalls, Hclock, Hslept.
    rewrite (attempt_once_retries E func args kwargs context
               custom_retry_config attempt self w msg c name delay w2)
      by done.
    destruct (IH fuel (attempt + 1)
                (record_entry self
                   (failure_entry E func args kwargs context attempt msg
                      (clock w)))
                (sleep delay w2) ltac:(lia) Hc) as (w' & Hrun & Hc' & Hs');
      [lia..|].
    exists w'. simpl in Hrun, Hc', Hs'.
    rewrite Hcalls, Hclock in *. rewrite length_app, Hslept in Hs'.
    simpl in Hs'. split; [|split; lia].
    rewrite Hrun.
    replace (attempt + 1 + Z.of_nat d) with (attempt + Z.of_nat (S d)) by lia.
    replace (S (S (clock w)) + (d + (d + 0)))%nat
      with (clock w + 2 * S d)%nat by lia.
    reflexivity.
Qed.
End Exhaustion.

(** X2. When every invocation of the work function raises the same
    message, whose category has the stored policy [c], the level at which
    that failure is handed to the [logger] is disabled, the function has a
    [__name__], and the policy that sets the delays (the override if there
    is one) gives a delay at each attempt below [c.max_attempts], the call
    raises the wrapped error of attempt [max(1, c.max_attempts)] after
    exactly that many invocations, that many recorded entries and one sleep
    less: the number of attempts is that of the stored policy, not of the
    override. *)
Theorem handle_error_with_retry_exhausts {A} (E : Env) (func : Callable A)
    (args kwargs : string) (context : option dict)
    (custom_retry_config : option RetryConfig) (self : ETLErrorHandler)
    (w : World) (msg : string) (c : RetryConfig) :
  (forall k, await_call func k = Raises msg) ->
  isEnabledFor E (severity_level (determine_severity (classify_error msg)))
  = false ->
  is_Some (fn_name func) ->
  config_for self (classify_error msg) = Ok c ->
  (forall attempt, 1 <= attempt < max_attempts c ->
     exists d, capped_delay attempt (default c custom_retry_config) = Ok d) ->
  let n := Z.to_nat (Z.max 1 (max_attempts c)) in
  exists w',
    handle_error_with_retry E func args kwargs context custom_retry_config
      self w
    = Some (Raise (ExcETLError
                     (wrap_error func args kwargs (Z.max 1 (max_attempts c))
                        msg (utcnow E (clock w + 2 * (n - 1))))),
            foldl record_entry self
              (failure_entries E func args kwargs context 1 (clock w)
                 (replicate n msg)),
            w')
    /\ calls w' = (calls w + n)%nat
    /\ (length (slept w') + 1 = length (slept w) + n)%nat.
Proof.
  intros Halways Hquiet [name Hname] Hc Hdelays n.
  pose proof (config_for_bound _ _ _ Hc) as Hb.
  destruct (retry_loop_always_failing E func args kwargs context
              custom_retry_config msg c name Halways Hquiet Hname Hdelays
              (Z.to_nat (max_attempts c - 1))
              (S (Z.to_nat (attempt_bound self))) 1 self w ltac:(lia) Hc
              eq_refl)
    as (w' & Hrun & Hcalls & Hslept); [lia|].
  exists w'. unfold handle_error_with_retry.
  replace n with (S (Z.to_nat (max_attempts c - 1))) by lia.
  replace (Z.max 1 (max_attempts c))
    with (1 + Z.of_nat (Z.to_nat (max_attempts c - 1))) by lia.
  replace (S (Z.to_nat (max_attempts c - 1)) - 1)%nat
    with (Z.to_nat (max_attempts c - 1)) by lia.
  split; [exact Hrun|]. split; lia.
Qed.

Lemma handle_error_with_retry_exhausts_witness :
  exists self' w',
    handle_error_with_retry Run.E Run.always_failing_function "()" "{}" None
      (Some (Run.quick 2)) ETLErrorHandler_init World_init
    = Some (Raise (ExcETLError
                     (wrap_error Run.always_failing_function "()" "{}" 5
                        "Database connection failed" (utcnow Run.E 8))),
            self', w')
    /\ calls w' = 5%nat.
Proof.
  assert (Hdelays : forall attempt, 1 <= attempt < 5 ->
            exists d, capped_delay attempt (Run.quick 2) = Ok d).
  { intros attempt Hattempt.
    assert (attempt = 1 \/ attempt = 2 \/ attempt = 3 \/ attempt = 4)
      as [->|[->|[->| ->]]] by lia; by eexists. }
  destruct (handle_error_with_retry_exhausts Run.E
              Run.always_failing_function "()" "{}" None (Some (Run.quick 2))
              ETLErrorHandler_init World_init "Database connection failed"
              (RetryConfig_init 5 2) (fun _ => eq_refl) eq_refl
              (mk_is_Some _ _ eq_refl) eq_refl Hdelays)
    as (w' & Hrun & Hcalls & _).
  eexists _, w'. split; [exact Hrun|exact Hcalls].
Defined.

(** X3. A call of [handle_error_with_retry] invokes the work function at
    least once and at most [max(1, m)] times, where [m] is the greatest
    [max_attempts] among the stored policies; the override does not enter
    the bound. *)
Theorem handle_error_with_retry_invocations {A} (E : Env)
    (func : Callable A) (args kwargs : string) (context : option dict)
    (custom_retry_config : option RetryConfig) (self : ETLErrorHandler)
    (w : World) :
  exists r self' w',
    handle_error_with_retry E func args kwargs context custom_retry_config
      self w = Some (r, self', w')
    /\ (calls w < calls w')%nat
    /\ Z.of_nat (calls w')
       <= Z.of_nat (calls w) + Z.max 1 (attempt_bound self)
    /\ forall t c, retry_configs self !! t = Some c ->
         max_attempts c <= attempt_bound self.
Proof.
  destruct (handle_error_with_retry_total E func args kwargs context
              custom_retry_config self w) as [[[r self'] w'] Hrun].
  exists r, self', w'. split; [exact Hrun|].
  unfold handle_error_with_retry in Hrun.
  destruct (retry_loop_calls_bound _ _ _ _ _ _ _ _ _ _ _ _ _ Hrun)
    as [Hlo Hhi].
  split; [exact Hlo|]. split.
  - replace (attempt_bound self - 1 + 1) with (attempt_bound self) in Hhi
      by lia. exact Hhi.
  - intros t c Ht. unfold attempt_bound.
    apply foldr_max_ge, list_elem_of_fmap.
    eexists. split; [reflexivity|].
    apply list_elem_of_fmap. exists (t, c).
    split; [reflexivity|]. by apply elem_of_map_to_list.
Qed.

Lemma with_etl_error_handling_run {A} (E : Env) (context : option dict)
    (retry_config : option RetryConfig) (func : Callable A)
    (args kwargs : string) (st : store) (w : World) r st' w' :
  with_etl_error_handling E context retry_config func args kwargs st w
  = Some (r, st', w') ->
  exists h',
    handle_error_with_retry E func args kwargs context retry_config
      ETLErrorHandler_init w = Some (r, h', w')
    /\ st' = <[fresh (dom st) := h']> st.
Proof.
  unfold with_etl_error_handling, new_handler, handle_error_with_retry_at.
  rewrite lookup_insert_eq.
  destruct (handle_error_with_retry E func args kwargs context retry_config
              ETLErrorHandler_init w) as [[[r0 h'] w0]|]; [|discriminate].
  intros [= <- <- <-]. exists h'. split; [done|]. by rewrite insert_insert_eq.
Qed.


Lemma delay_config_Ok (self : ETLErrorHandler)
    (custom_retry_config : option RetryConfig) (t : ETLErrorType)
    (c : RetryConfig) :
  config_for self t = Ok c ->
  delay_config self custom_retry_config t
  = Ok (default c custom_retry_config).
Proof. intros Hc. unfold delay_config. by destruct custom_retry_config. Qed.

(** X5. The override has no part in deciding how a turn of the loop ends,
    except through an error of the delay computation. From the same state
    and for any two overrides (present or absent): a turn that returns a
    value, raises a [KeyError] or raises the wrapped [ETLError] under one
    override does exactly the same under the other; and when the loop goes
    round again under one, then under the other it goes round again with
    the same handler, or the computation of the delay raises. *)
Theorem attempt_once_ignores_override {A} (E : Env) (func : Callable A)
    (args kwargs : string) (context : option dict)
    (custom1 custom2 : option RetryConfig) (attempt : Z)
    (self : ETLErrorHandler) (w : World) :
  (forall r self' w',
     attempt_once E func args kwargs context custom1 attempt self w
     = Leaves r self' w' ->
     (exists v, r = Ok v) \/ (exists key, r = Raise (ExcKeyError key))
     \/ (exists err, r = Raise (ExcETLError err)) ->
     attempt_once E func args kwargs context custom2 attempt self w
     = Leaves r self' w')
  /\ (forall self' w1,
        attempt_once E func args kwargs context custom1 attempt self w
        = Again self' w1 ->
        (exists w2,
           attempt_once E func args kwargs context custom2 attempt self w
           = Again self' w2
           /\ calls w2 = calls w1 /\ clock w2 = clock w1)
        \/ (exists e w2,
              attempt_once E func args kwargs context custom2 attempt self w
              = Leaves (Raise e) self' w2
              /\ (e = ExcOverflowError \/ e = ExcZeroDivisionError))).
Proof.
  split.
  - intros r self' w'.
    destruct (await_call func (calls w)) as [v|msg] eqn:Hcall.
    { by rewrite !(attempt_once_returns _ _ _ _ _ _ _ _ _ v). }
    destruct (isEnabledFor E
                (severity_level (determine_severity (classify_error msg))))
      eqn:Hlevel.
    { by rewrite !(attempt_once_log_raises _ _ _ _ _ _ _ _ _ msg). }
    rewrite !(attempt_once_logged _ _ _ _ _ _ _ _ _ msg) by done.
    cbn zeta. unfold should_retry.
    destruct (config_for self (classify_error msg)) as [c|e] eqn:Hc.
    2:{ unfold delay_config. destruct custom1, custom2; by rewrite ?Hc. }
    rewrite (delay_config_Ok self custom1 _ c Hc).
    rewrite (delay_config_Ok self custom2 _ c Hc).
    destruct (attempt <? max_attempts c); [|done].
    destruct (calculate_delay E attempt (default c custom1) _)
      as [[delay|e] w2] eqn:Hdelay.
    + unfold __name__. destruct (fn_name func); [done|].
      intros [= <- <- <-] [[v [=]]|[[key [=]]|[err [=]]]].
    + apply calculate_delay_exn in Hdelay as [_ He].
      intros [= <- <- <-] [[v [=]]|[[key [= ->]]|[err [= ->]]]];
        by destruct He.
  - intros self' w1 Hturn.
    apply attempt_once_Again in Hturn
      as (msg & c & delay & w2 & Hcall & Hlevel & Hc & Hlt & Hdelay
          & [name Hname] & -> & ->).
    rewrite (attempt_once_logged _ _ _ _ _ _ _ _ _ msg) by done.
    cbn zeta. unfold should_retry, __name__.
    rewrite (delay_config_Ok self custom2 _ c Hc), Hc, Hname.
    replace (attempt <? max_attempts c) with true
      by (symmetry; by apply Z.ltb_lt).
    pose proof (calculate_delay_world E attempt (default c custom1)
                  (tick (tick (called w)))) as (Hcalls1 & Hclock1 & _).
    rewrite Hdelay in Hcalls1, Hclock1.
    pose proof (calculate_delay_world E attempt (default c custom2)
                  (tick (tick (called w)))) as (Hcalls2 & Hclock2 & _).
    destruct (calculate_delay E attempt (default c custom2) _)
      as [[delay'|e] w2'] eqn:Hdelay'.
    + left. eexists. split; [done|]. simpl in *. split; congruence.
    + right. exists e, w2'. split; [done|].
      by apply calculate_delay_exn in Hdelay' as [_ He].
Qed.

Lemma attempt_once_ignores_override_witness :
  let once custom attempt w :=
    attempt_once Run.E Run.always_failing_function "()" "{}" None custom
      attempt ETLErrorHandler_init w in
  (exists err w',
     once (Some (Run.quick 2)) 5 World_init
     = Leaves (Raise (ExcETLError err)) 
         (record_entry ETLErrorHandler_init
            (failure_entry Run.E Run.always_failing_function "()" "{}" None
               5 "Database connection failed" 0)) w'
     /\ once None 5 World_init
        = once (Some (Run.quick 2)) 5 World_init)
  /\ (exists self' w1 w2,
        once (Some (Run.quick 2)) 3 World_init = Again self' w1
        /\ once (Some Run.exploding) 3 World_init
           = Leaves (Raise ExcOverflowError) self' w2).
Proof.
  intros once. split.
  - eexists _, _. split; [reflexivity|].
    apply (attempt_once_ignores_override Run.E Run.always_failing_function
             "()" "{}" None (Some (Run.quick 2)) None 5 ETLErrorHandler_init
             World_init).
    + reflexivity.
    + right. right. by eexists.
  - destruct (attempt_once_ignores_override Run.E
                Run.always_failing_function "()" "{}" None
                (Some (Run.quick 2)) (Some Run.exploding) 3
                ETLErrorHandler_init World_init) as [_ Hagain].
    eexists _, _, _. split; [reflexivity|].
    destruct (Hagain _ _ eq_refl) as [(w2 & Hrun & _)|(e & w2 & Hrun & _)].
    + vm_compute in Hrun. discriminate.
    + vm_compute. reflexivity.
Defined.

(** X6. On a handler whose [retry_configs] has no UNKNOWN entry, a call
    whose first invocation fails ends at that failure, after one invocation
    and without sleeping, even when the failure's own category has a policy
    and even when an override is passed: with the [KeyError] of the
    [logger] call and nothing recorded when the level of the failure is
    enabled, and otherwise with the failure recorded and the [KeyError] of
    the policy lookup. *)
Theorem handle_error_with_retry_missing_unknown {A} (E : Env)
    (func : Callable A) (args kwargs : string) (context : option dict)
    (custom_retry_config : option RetryConfig) (self : ETLErrorHandler)
    (w : World) (msg : string) :
  retry_configs self !! UNKNOWN = None ->
  await_call func (calls w) = Raises msg ->
  handle_error_with_retry E func args kwargs context custom_retry_config
    self w
  = Some
      (if isEnabledFor E
            (severity_level (determine_severity (classify_error msg)))
       then (Raise (ExcKeyError "Attempt to overwrite 'message' in LogRecord"),
             self, tick (called w))
       else (Raise (ExcKeyError "unknown"),
             record_entry self
               (failure_entry E func args kwargs context 1 msg (clock w)),
             tick (tick (called w)))).
Proof.
  intros Hu Hm. unfold handle_error_with_retry. rewrite retry_loop_step.
  destruct (isEnabledFor E _) eqn:Hlevel.
  - by rewrite (attempt_once_log_raises _ _ _ _ _ _ _ _ _ msg).
  - by rewrite (attempt_once_lookup_raises _ _ _ _ _ _ _ _ _ msg).
Qed.

Lemma handle_error_with_retry_missing_unknown_witness :
  let self := mkETLErrorHandler [] 1000 (delete UNKNOWN default_retry_configs) in
  retry_configs self !! DATA_VALIDATION = Some (RetryConfig_init 1 1)
  /\ (exists self' w',
        handle_error_with_retry Run.E_default Run.rejecting_function "()"
          "{}" None (Some (Run.quick 2)) self World_init
        = Some (Raise (ExcKeyError "unknown"), self', w')
        /\ calls w' = 1%nat /\ length (error_history self') = 1%nat)
  /\ handle_error_with_retry Run.E_default Run.always_failing_function "()"
       "{}" None (Some (Run.quick 2)) self World_init
     = Some (Raise (ExcKeyError "Attempt to overwrite 'message' in LogRecord"),
             self, tick (called World_init)).
Proof.
  intros self. split; [reflexivity|]. split.
  - eexists _, _. split.
    + rewrite (handle_error_with_retry_missing_unknown Run.E_default
                 Run.rejecting_function "()" "{}" None (Some (Run.quick 2))
                 self World_init "Data validation error");
        reflexivity.
    + split; reflexivity.
  - rewrite (handle_error_with_retry_missing_unknown Run.E_default
               Run.always_failing_function "()" "{}" None
               (Some (Run.quick 2)) self World_init
               "Database connection failed");
      reflexivity.
Defined.

Lemma calculate_delay_le_max (E : Env) (attempt : Z) (config : RetryConfig)
    (w w' : World) (delay : Q) :
  (0 <= max_delay config)%Q ->
  (0 <= random E (draws w))%Q -> (random E (draws w) < 1)%Q ->
  calculate_delay E attempt config w = (Ok delay, w') ->
  (delay <= max_delay config)%Q.
Proof.
  intros Hcap Hr0 Hr1. unfold calculate_delay.
  destruct (capped_delay attempt config) as [d|e] eqn:Hd; [|done].
  apply capped_delay_le_max in Hd.
  destruct (jitter config); intros [= <- _]; [|done].
  apply jitter_le; [done..|]. by apply Qlt_le_weak.
Qed.

Lemma retry_loop_sleeps_bounded {A} (E : Env) (func : Callable A)
    (args kwargs : string) (context : option dict)
    (custom_retry_config : option RetryConfig) (cap : Q) (fuel : nat) :
  (forall n, 0 <= random E n /\ random E n < 1)%Q ->
  forall attempt self w r self' w',
    (forall t c0, config_for self t = Ok c0 ->
       (0 <= max_delay (default c0 custom_retry_config)
        /\ max_delay (default c0 custom_retry_config) <= cap)%Q) ->
    retry_loop fuel E func args kwargs context custom_retry_config attempt
      self w = Some (r, self', w') ->
    exists delays,
      slept w' = slept w ++ delays /\ Forall (fun d => (d <= cap)%Q) delays.
Proof.
  intros Hrand.
  induction fuel as [|fuel IH]; intros attempt self w r self' w' Hcfg Hrun;
    [discriminate|].
  rewrite retry_loop_step in Hrun.
  destruct (attempt_once E func args kwargs context custom_retry_config
              attempt self w) as [r0 self0 w0|self0 w0] eqn:Hturn.
  - injection Hrun as -> -> ->. exists []. rewrite app_nil_r. split; [|done].
    by apply attempt_once_Leaves in Hturn
      as [(v & _ & _ & _ & ->)
         |(msg & _ & [(_ & _ & _ & ->)|(_ & _ & _ & _ & Hslept & _)])].
  - apply attempt_once_Again in Hturn
      as (msg & c & delay & w2 & _ & _ & Hc & _ & Hdelay & _ & -> & ->).
    destruct (Hcfg _ _ Hc) as [Hcap0 Hcap1].
    pose proof (calculate_delay_le_max E attempt _ _ _ _ Hcap0
                  (proj1 (Hrand _)) (proj2 (Hrand _)) Hdelay) as Hle.
    pose proof (calculate_delay_world E attempt
                  (default c custom_retry_config) (tick (tick (called w))))
      as (_ & _ & Hslept).
    rewrite Hdelay in Hslept. simpl in Hslept.
    apply IH in Hrun as (delays & Hsl & Hall); [|exact Hcfg].
    simpl in Hsl. rewrite Hslept in Hsl.
    exists (delay :: delays). split.
    + by rewrite Hsl, <- app_assoc.
    + constructor; [|done].
      by apply Qle_trans with (max_delay (default c custom_retry_config)).
Qed.

(** X7. When [random.random()] is in [0, 1) and every policy the call can
    sleep by (the override if there is one, the stored policies otherwise)
    has [0 <= max_delay <= cap], the call only adds sleeps to the trace,
    and none of them is longer than [cap]. *)
Theorem handle_error_with_retry_sleeps_bounded {A} (E : Env)
    (func : Callable A) (args kwargs : string) (context : option dict)
    (custom_retry_config : option RetryConfig) (self : ETLErrorHandler)
    (w : World) (cap : Q) :
  (forall n, 0 <= random E n /\ random E n < 1)%Q ->
  (forall t c0, config_for self t = Ok c0 ->
     (0 <= max_delay (default c0 custom_retry_config)
      /\ max_delay (default c0 custom_retry_config) <= cap)%Q) ->
  exists r self' w' delays,
    handle_error_with_retry E func args kwargs context custom_retry_config
      self w = Some (r, self', w')
    /\ slept w' = slept w ++ delays
    /\ Forall (fun d => (d <= cap)%Q) delays.
Proof.
  intros Hrand Hcfg.
  destruct (handle_error_with_retry_total E func args kwargs context
              custom_retry_config self w) as [[[r self'] w'] Hrun].
  pose proof Hrun as Hrun'. unfold handle_error_with_retry in Hrun'.
  destruct (retry_loop_sleeps_bounded E func args kwargs context
              custom_retry_config cap _ Hrand _ _ _ _ _ _ Hcfg Hrun')
    as (delays & Hsl & Hall).
  by exists r, self', w', delays.
Qed.

Lemma handle_error_with_retry_sleeps_bounded_witness :
  exists r self' w' delays,
    handle_error_with_retry Run.E Run.always_failing_function "()" "{}" None
      None ETLErrorHandler_init World_init = Some (r, self', w')
    /\ slept w' = delays
    /\ Forall (fun d => (d <= 60)%Q) delays.
Proof.
  apply (handle_error_with_retry_sleeps_bounded Run.E
           Run.always_failing_function "()" "{}" None None
           ETLErrorHandler_init World_init 60).
  - intros n. split; [vm_compute; discriminate|reflexivity].
  - intros t c0 Hc. destruct t; vm_compute in Hc; injection Hc as <-;
      split; vm_compute; discriminate.
Defined.

(** ** More on ledger queries *)

Lemma slice_from_drop {A} (start : Z) (l : list A) :
  exists n, slice_from start l = drop n l.
Proof. unfold slice_from. destruct (start <? 0); eauto. Qed.

Lemma most_recent_snoc {A} (n : nat) (l : list A) (x : A) :
  (0 < n)%nat -> exists k, most_recent n (l ++ [x]) = k ++ [x].
Proof.
  intros Hn. unfold most_recent. rewrite length_app. simpl.
  rewrite drop_app_le by lia. eauto.
Qed.

Lemma most_recent_1_snoc {A} (l : list A) (x : A) :
  most_recent 1 (l ++ [x]) = [x].
Proof.
  unfold most_recent. rewrite length_app. simpl.
  replace (length l + 1 - 1)%nat with (length l) by lia.
  by rewrite drop_app_length.
Qed.

(** X8. A failure that [log_error] has recorded is what the ledger
    returns last: when a call of [log_error] on a handler of positive
    capacity comes back, a query with limit 1, unfiltered or filtered by
    the error's own category and severity, returns exactly the entry made
    for that error. A call that does not come back raised the [KeyError]
    of the [logger] call, at a level that is enabled, and left the handler
    and the clock as they were. *)
Theorem log_error_then_query (E : Env) (self : ETLErrorHandler)
    (error : ETLError) (context : option dict) (w : World)
    (r : result unit) (self' : ETLErrorHandler) (w' : World) :
  0 < max_history_size self ->
  log_error E self error context w = (r, self', w') ->
  let entry := to_entry error (default ∅ context) (utcnow E (clock w)) in
  match r with
  | Ok _ =>
    isEnabledFor E (severity_level (severity error)) = false
    /\ last (error_history self') = Some entry
    /\ get_error_history self' (Some 1) None None None = [entry]
    /\ get_error_history self' (Some 1) (Some (error_type error))
         (Some (severity error)) None = [entry]
    /\ w' = tick w
  | Raise e =>
    e = ExcKeyError "Attempt to overwrite 'message' in LogRecord"
    /\ isEnabledFor E (severity_level (severity error)) = true
    /\ self' = self /\ w' = w
  end.
Proof.
  intros Hcap Hlog entry.
  destruct (log_error_cases _ _ _ _ _ _ _ _ Hlog)
    as [(-> & Hlevel & -> & ->)|(-> & Hlevel & -> & ->)]; [done|].
  subst entry.
  set (entry := to_entry error (default ∅ context) (utcnow E (clock w))).
  assert (Hh : exists k, error_history (record_entry self entry)
                         = k ++ [entry]).
  { rewrite record_entry_history by done. apply most_recent_snoc. lia. }
  destruct Hh as [k Hk].
  split; [done|]. split; [rewrite Hk; apply last_snoc|].
  rewrite !get_error_history_limited, !get_error_history_unlimited, Hk.
  simpl (1 =? 0). cbn iota.
  rewrite !slice_from_neg, !filter_app by lia.
  rewrite !filter_cons_True, !filter_nil; [|by repeat split..].
  change (Z.to_nat 1) with 1%nat. by rewrite !most_recent_1_snoc.
Qed.

Lemma log_error_then_query_witness :
  0 < max_history_size Run.one_error_handler
  /\ (exists self' w',
        log_error Run.E_default Run.one_error_handler Run.validation_error
          None World_init = (Ok tt, self', w')
        /\ get_error_history self' (Some 1) (Some DATA_VALIDATION) (Some LOW)
             None
           = [to_entry Run.validation_error ∅ "2024-01-15T10:00:00"]
        /\ length (error_history self') = 2%nat)
  /\ log_error Run.E_default Run.one_error_handler Run.auth_error None
       World_init
     = (Raise (ExcKeyError "Attempt to overwrite 'message' in LogRecord"),
        Run.one_error_handler, World_init).
Proof.
  split; [reflexivity|]. split.
  - eexists _, _. split; [reflexivity|].
    split; [|reflexivity].
    apply (log_error_then_query Run.E_default Run.one_error_handler
             Run.validation_error None World_init (Ok tt) _ _ eq_refl
             eq_refl).
  - pose proof (log_error_then_query Run.E_default Run.one_error_handler
                  Run.auth_error None World_init _ _ _ eq_refl eq_refl)
      as (_ & _ & _ & _).
    reflexivity.
Defined.

(** X9. Whatever the limit and the filters, a query returns entries of the
    ledger in ledger order, all of which pass the filters, and for a limit
    [n >= 1] at most [n] of them. *)
Theorem get_error_history_sublist (self : ETLErrorHandler) (limit : option Z)
    (error_type : option ETLErrorType) (severity : option ETLErrorSeverity)
    (since : option string) :
  let found := get_error_history self limit error_type severity since in
  found `sublist_of` error_history self
  /\ Forall (selected error_type severity since) found
  /\ (forall n, limit = Some n -> 1 <= n -> Z.of_nat (length found) <= n).
Proof.
  intros found.
  assert (Hd : exists n,
            found = drop n (filter (selected error_type severity since)
                              (error_history self))).
  { subst found. destruct limit as [n|].
    - rewrite get_error_history_limited, get_error_history_unlimited.
      destruct (n =? 0); [by exists 0%nat|apply slice_from_drop].
    - rewrite get_error_history_unlimited. by exists 0%nat. }
  destruct Hd as [d Hd]. split; [|split].
  - rewrite Hd. etrans; [apply sublist_drop|apply sublist_filter].
  - rewrite Hd. apply Forall_forall. intros e He.
    assert (He' : e ∈ filter (selected error_type severity since)
                      (error_history self)).
    { by apply (subseteq_drop d). }
    by apply list_elem_of_filter in He' as [? _].
  - intros n -> Hn. subst found.
    rewrite get_error_history_limited.
    destruct (Z.eqb_spec n 0); [lia|].
    rewrite slice_from_neg, length_most_recent by lia. lia.
Qed.

Lemma get_error_history_sublist_witness :
  1 <= 1
  /\ Z.of_nat (length (get_error_history Run.one_error_handler (Some 1) None
                         None None)) <= 1.
Proof.
  split; [lia|].
  apply (get_error_history_sublist Run.one_error_handler (Some 1) None None
           None); [reflexivity|lia].
Defined.

(** X10. A negative limit is not rejected: [limit = -k] returns the
    filtered entries without the [k] oldest ones. *)
Theorem get_error_history_negative_limit (self : ETLErrorHandler) (n : Z)
    (error_type : option ETLErrorType) (severity : option ETLErrorSeverity)
    (since : option string) :
  n < 0 ->
  get_error_history self (Some n) error_type severity since
  = drop (Z.to_nat (- n))
      (filter (selected error_type severity since) (error_history self)).
Proof.
  intros Hn.
  rewrite get_error_history_limited, get_error_history_unlimited.
  destruct (Z.eqb_spec n 0); [lia|].
  set (l := filter _ _). unfold slice_from.
  destruct (Z.ltb_spec (- n) 0); [lia|].
  destruct (Z.le_gt_cases (- n) (Z.of_nat (length l))).
  - f_equal. lia.
  - rewrite !drop_ge; [done|lia..].
Qed.

Lemma get_error_history_negative_limit_witness :
  -1 < 0
  /\ get_error_history Run.one_error_handler (Some (-1)) None None None = [].
Proof.
  split; [lia|].
  rewrite (get_error_history_negative_limit Run.one_error_handler (-1) None
             None None); [reflexivity|lia].
Defined.

Lemma ETLErrorType_value_inj (t1 t2 : ETLErrorType) :
  ETLErrorType_value t1 = ETLErrorType_value t2 -> t1 = t2.
Proof. destruct t1, t2; simpl; intros [=]; reflexivity. Qed.

Lemma ETLErrorSeverity_value_inj (s1 s2 : ETLErrorSeverity) :
  ETLErrorSeverity_value s1 = ETLErrorSeverity_value s2 -> s1 = s2.
Proof. destruct s1, s2; simpl; intros [=]; reflexivity. Qed.

(** X11. The stored strings tell the categories and severities apart: an
    entry made for an error passes the category and severity filters of a
    query exactly when the error has that category and that severity. *)
Theorem selected_entry_exact (error : ETLError) (context : dict)
    (logged_at : string) (t : ETLErrorType) (s : ETLErrorSeverity) :
  (selected (Some t) None None (to_entry error context logged_at)
   <-> error_type error = t)
  /\ (selected None (Some s) None (to_entry error context logged_at)
      <-> severity error = s)
  /\ (selected (Some t) (Some s) None (to_entry error context logged_at)
      <-> error_type error = t /\ severity error = s).
Proof.
  unfold selected. simpl. split; [|split]; split.
  - intros (H & _ & _). by apply ETLErrorType_value_inj.
  - by intros <-.
  - intros (_ & H & _). by apply ETLErrorSeverity_value_inj.
  - by intros <-.
  - intros (H1 & H2 & _).
    split; [by apply ETLErrorType_value_inj|by apply ETLErrorSeverity_value_inj].
  - by intros [<- <-].
Qed.

(** ** Statistics *)

Lemma count_by_foldl (key : LogEntry -> string) (k : string)
    (errors : list LogEntry) (m : gmap string Z) :
  foldl (fun m e => <[key e := default 0 (m !! key e) + 1]> m) m errors !! k
  = let n := length (filter (fun e => key e = k) errors) in
    if decide (n = 0%nat) then m !! k
    else Some (default 0 (m !! k) + Z.of_nat n).
Proof.
  revert m. induction errors as [|e errors IH]; intros m; [done|].
  simpl foldl. rewrite IH. cbn zeta. rewrite filter_cons.
  destruct (decide (key e = k)) as [->|Hne].
  - rewrite lookup_insert_eq. simpl length.
    repeat case_decide; try lia; simpl; f_equal; lia.
  - by rewrite lookup_insert_ne.
Qed.

Lemma count_by_lookup (key : LogEntry -> string) (errors : list LogEntry)
    (k : string) :
  count_by key errors !! k
  = let n := length (filter (fun e => key e = k) errors) in
    if decide (n = 0%nat) then None else Some (Z.of_nat n).
Proof.
  unfold count_by. rewrite count_by_foldl. cbn zeta.
  by rewrite lookup_empty.
Qed.

(** X12. The statistics count what the query since [since] returns:
    [total_errors] is its length; [by_type] and [by_severity] have a key
    exactly for the values that occur, with the number of occurrences;
    [recent_critical] is the critical entries among the 10 most recent.
    With nothing to count, all is zero or empty, no period is reported
    and the clock is not read; otherwise the period runs from [since] to
    the clock reading. *)
Theorem get_error_statistics_counts (E : Env) (self : ETLErrorHandler)
    (since : option string) (w : World) :
  let errors := get_error_history self None None None since in
  let stats := (get_error_statistics E self since w).1 in
  let occurrences (key : LogEntry -> string) (k : string) :=
    length (filter (fun e => key e = k) errors) in
  total_errors stats = Z.of_nat (length errors)
  /\ (forall k, by_type stats !! k
                = if decide (occurrences e_error_type k = 0%nat) then None
                  else Some (Z.of_nat (occurrences e_error_type k)))
  /\ (forall k, by_severity stats !! k
                = if decide (occurrences e_severity k = 0%nat) then None
                  else Some (Z.of_nat (occurrences e_severity k)))
  /\ recent_critical stats
     = filter (fun e => e_severity e = "critical") (most_recent 10 errors)
  /\ (errors = [] ->
      period stats = None /\ (get_error_statistics E self since w).2 = w)
  /\ (errors <> [] ->
      period stats = Some (since, utcnow E (clock w))
      /\ (get_error_statistics E self since w).2 = tick w).
Proof.
  intros errors stats occurrences. subst stats occurrences.
  unfold get_error_statistics. fold errors.
  destruct errors as [|e errors'] eqn:Herr.
  - simpl. repeat split; try done.
  - rewrite <- Herr. cbn [fst snd total_errors by_type by_severity
                          recent_critical period].
    split; [done|]. split; [intros k; apply count_by_lookup|].
    split; [intros k; apply count_by_lookup|].
    split.
    { replace (slice_from (-10) errors) with (most_recent 10 errors); [done|].
      symmetry. apply (slice_from_neg 10). lia. }
    split; [by rewrite Herr|done].
Qed.

Lemma get_error_statistics_counts_witness :
  let stats := (get_error_statistics Run.E Run.one_error_handler None
                  World_init).1 in
  total_errors stats = 1
  /\ by_type stats !! "database_connection" = Some 1
  /\ by_type stats !! "authentication" = None
  /\ period stats = Some (None, "2024-01-15T10:00:00").
Proof.
  intros stats.
  destruct (get_error_statistics_counts Run.E Run.one_error_handler None
              World_init) as (Htotal & Htype & _ & _ & _ & Hperiod).
  split; [exact Htotal|].
  split; [exact (Htype "database_connection")|].
  split; [exact (Htype "authentication")|].
  apply Hperiod. vm_compute. discriminate.
Defined.

(** ** More on classification *)

Lemma first_match_row (pre post : list (list string * ETLErrorType))
    (kws : list string) (t : ETLErrorType) (text : string) :
  (forall kws' t' kw, (kws', t') ∈ pre -> kw ∈ kws' ->
     contains kw text = false) ->
  (exists kw, kw ∈ kws /\ contains kw text = true) ->
  first_match (pre ++ (kws, t) :: post) text = t.
Proof.
  intros Hpre (kw & Hkw & Hc).
  induction pre as [|[kws' t'] pre IH]; simpl.
  - assert (He : existsb (fun kw => contains kw text) kws = true).
    { apply existsb_exists. exists kw. split; [|done].
      by apply list_elem_of_In. }
    by rewrite He.
  - assert (He : existsb (fun kw => contains kw text) kws' = false).
    { apply not_true_is_false. intros (kw' & Hin & Hc')%existsb_exists.
      apply list_elem_of_In in Hin.
      rewrite (Hpre kws' t' kw') in Hc'; [discriminate|by left|done]. }
    rewrite He. apply IH. intros kws0 t0 kw0 Hin.
    apply (Hpre kws0 t0 kw0). by right.
Qed.

Lemma first_match_sound (table : list (list string * ETLErrorType))
    (text : string) (t : ETLErrorType) :
  first_match table text = t ->
  (t = UNKNOWN
   /\ forall kws t' kw, (kws, t') ∈ table -> kw ∈ kws ->
        contains kw text = false)
  \/ exists kws kw, (kws, t) ∈ table /\ kw ∈ kws /\ contains kw text = true.
Proof.
  revert t. induction table as [|[kws t0] table IH]; intros t; simpl.
  - intros <-. left. split; [done|]. intros ? ? ? Hin.
    by apply elem_of_nil in Hin.
  - destruct (existsb (fun kw => contains kw text) kws) eqn:He.
    + intros <-. right.
      apply existsb_exists in He as (kw & Hin & Hc).
      exists kws, kw. split; [by left|]. split; [|done].
      by apply list_elem_of_In.
    + intros Ht. destruct (IH t Ht) as [[-> Hnone]|(kws' & kw & Hin & Hkw & Hc)].
      * left. split; [done|]. intros kws' t' kw Hin Hkw.
        apply elem_of_cons in Hin as [[= -> ->]|Hin]; [|by eapply Hnone].
        apply not_true_is_false. intros Hc.
        assert (existsb (fun kw => contains kw text) kws = true);
          [|congruence].
        apply existsb_exists. exists kw. split; [|done].
        by apply list_elem_of_In.
      * right. exists kws', kw. split; [by right|done].
Qed.

(** X13. For every row of the priority table: a message in which one of
    the row's keywords occurs up to case, and no keyword of an earlier row
    does, is classified as the row's category. *)
Theorem classify_error_priority (msg : string)
    (pre post : list (list string * ETLErrorType)) (kws : list string)
    (t : ETLErrorType) :
  priority_table = pre ++ (kws, t) :: post ->
  (exists kw, kw ∈ kws /\ occurs_ci kw msg) ->
  (forall kws' t' kw, (kws', t') ∈ pre -> kw ∈ kws' -> ~ occurs_ci kw msg) ->
  classify_error msg = t.
Proof.
  intros Htable (kw & Hkw & Hocc) Hpre.
  rewrite classify_error_first_match, Htable.
  apply first_match_row.
  - intros kws' t' kw' Hin Hkw'. apply not_true_is_false.
    rewrite contains_lower. by eapply Hpre.
  - exists kw. split; [done|]. by apply contains_lower.
Qed.

Lemma classify_error_priority_witness :
  classify_error "Permission denied for EXPORT job" = DATA_EXPORT.
Proof.
  apply (classify_error_priority "Permission denied for EXPORT job"
           [ (["connection"; "database"], DATABASE_CONNECTION);
             (["azure"; "blob"; "synapse"], AZURE_SERVICE);
             (["timeout"; "timed out"], NETWORK_TIMEOUT);
             (["pipeline"; "data factory"], PIPELINE_EXECUTION) ]
           [ (["auth"; "credential"; "permission"], AUTHENTICATION);
             (["limit"; "quota"; "throttle"], RESOURCE_LIMIT);
             (["validation"; "invalid"], DATA_VALIDATION) ]
           ["export"; "upload"] DATA_EXPORT).
  - reflexivity.
  - exists "export". split; [by left|].
    exists "Permission denied for ", "EXPORT", " job". split; reflexivity.
  - intros kws' t' kw Hin Hkw Hocc. apply contains_lower in Hocc.
    repeat (apply elem_of_cons in Hin as [[= -> ->]|Hin];
            [repeat (apply elem_of_cons in Hkw as [->|Hkw];
                     [vm_compute in Hocc; discriminate|]);
             by apply elem_of_nil in Hkw|]).
    by apply elem_of_nil in Hin.
Defined.

(** X14. A category other than UNKNOWN is returned only when one of its
    keywords occurs in the message up to case, and UNKNOWN is returned
    exactly when no keyword of the table occurs. *)
Theorem classify_error_sound (msg : string) :
  (forall t, classify_error msg = t -> t <> UNKNOWN ->
     exists kws kw,
       (kws, t) ∈ priority_table /\ kw ∈ kws /\ occurs_ci kw msg)
  /\ (classify_error msg = UNKNOWN <->
      forall kws t kw, (kws, t) ∈ priority_table -> kw ∈ kws ->
        ~ occurs_ci kw msg).
Proof.
  split.
  - intros t Ht Hne. rewrite classify_error_first_match in Ht.
    destruct (first_match_sound _ _ _ Ht)
      as [[-> _]|(kws & kw & Hin & Hkw & Hc)]; [done|].
    exists kws, kw. split; [done|]. split; [done|]. by apply contains_lower.
  - split.
    + intros Ht kws t kw Hin Hkw Hocc.
      rewrite classify_error_first_match in Ht.
      destruct (first_match_sound _ _ _ Ht)
        as [[_ Hnone]|(kws' & kw' & Hin' & _)].
      * apply contains_lower in Hocc.
        rewrite (Hnone kws t kw) in Hocc; [discriminate|done..].
      * exfalso. unfold priority_table in Hin'.
        repeat (apply elem_of_cons in Hin' as [[=]|Hin']).
        by apply elem_of_nil in Hin'.
    + intros Hnone.
      destruct (classify_error msg) eqn:Ht; try reflexivity; exfalso;
        (rewrite classify_error_first_match in Ht;
         destruct (first_match_sound _ _ _ Ht)
           as [[[=] _]|(kws & kw & Hin & Hkw & Hc)];
         apply (Hnone kws _ kw Hin Hkw); by apply contains_lower).
Qed.

Lemma classify_error_sound_witness :
  classify_error "Something odd happened" = UNKNOWN
  /\ forall kws t kw, (kws, t) ∈ priority_table -> kw ∈ kws ->
       ~ occurs_ci kw "Something odd happened".
Proof.
  assert (H : classify_error "Something odd happened" = UNKNOWN)
    by reflexivity.
  split; [exact H|].
  by apply (proj2 (classify_error_sound "Something odd happened")).
Defined.

(** ** More on backoff delays *)

(** X15. When the delay before jitter is computed: with jitter, one random
    value [r] is drawn and the delay is the one before jitter times
    [0.5 + r * 0.5], which for a non-negative delay before jitter and [r]
    from 0 to 1 is between half of it and all of it; without jitter the
    delay is the one before jitter and nothing is drawn. When the delay
    before jitter raises, [calculate_delay] raises the same and nothing is
    drawn. *)
Theorem calculate_delay_jitter_range (E : Env) (attempt : Z)
    (config : RetryConfig) (w : World) :
  let r := random E (draws w) in
  match capped_delay attempt config with
  | Ok d =>
    (jitter config = true ->
     calculate_delay E attempt config w
     = (Ok (d * ((1 # 2) + r * (1 # 2)))%Q, drawn w)
     /\ (0 <= d -> 0 <= r -> r <= 1 ->
         d * (1 # 2) <= d * ((1 # 2) + r * (1 # 2))
         /\ d * ((1 # 2) + r * (1 # 2)) <= d)%Q)
    /\ (jitter config = false ->
        calculate_delay E attempt config w = (Ok d, w))
  | Raise e =>
    calculate_delay E attempt config w = (Raise e, w)
    /\ (e = ExcOverflowError \/ e = ExcZeroDivisionError)
  end.
Proof.
  intros r. destruct (capped_delay attempt config) as [d|e] eqn:Hd.
  - rewrite (calculate_delay_Ok E _ _ w d Hd). split.
    + intros ->. split; [done|]. intros Hd0 Hr0 Hr1. split; nra.
    + by intros ->.
  - split; [by apply calculate_delay_Raise|]. by eapply capped_delay_exn.
Qed.

Lemma calculate_delay_jitter_range_witness :
  calculate_delay Run.E 2 (RetryConfig_init 3 1) World_init
  = (Ok (2 * ((1 # 2) + 0 * (1 # 2)))%Q, drawn World_init)
  /\ (2 * (1 # 2) <= 2 * ((1 # 2) + 0 * (1 # 2)))%Q
  /\ calculate_delay Run.E 1025 (RetryConfig_init 3 1) World_init
     = (Raise ExcOverflowError, World_init).
Proof.
  pose proof (calculate_delay_jitter_range Run.E 2 (RetryConfig_init 3 1)
                World_init) as Hjit.
  cbv zeta in Hjit.
  change (capped_delay 2 (RetryConfig_init 3 1)) with (Ok 2%Q) in Hjit.
  destruct Hjit as [Hjit _].
  destruct (Hjit eq_refl) as [Hrun Hrange].
  split; [exact Hrun|]. split.
  - apply Hrange; vm_compute; discriminate.
  - pose proof (calculate_delay_jitter_range Run.E 1025
                  (RetryConfig_init 3 1) World_init) as Hraise.
    cbv zeta in Hraise.
    assert (Hd : capped_delay 1025 (RetryConfig_init 3 1)
                 = Raise ExcOverflowError) by (vm_compute; reflexivity).
    rewrite Hd in Hraise. apply Hraise.
Defined.



(** ** More on the job history *)

Lemma add_jobs_cons (E : Env) (self : Scheduler.ETLScheduler)
    (job_info : dict) (jobs : list dict) (w : World) :
  add_jobs E self (job_info :: jobs) w
  = add_jobs E (Scheduler._add_job_to_history E self job_info w).1 jobs
      (tick w).
Proof. reflexivity. Qed.

(** X17. Under any run of appends to a job history that holds at most 120
    entries and has the capacity of 100, the history never holds more than
    120 entries; it is always the end of everything it was given, in the
    given order, at least the most recent 100 of it (or all, if fewer),
    and the record appended last is its last entry. *)
Theorem add_job_to_history_invariant (E : Env)
    (self : Scheduler.ETLScheduler) (jobs : list dict) (w : World) :
  Scheduler.max_history_size self = 100 ->
  (length (Scheduler.job_history self) <= 120)%nat ->
  let all := Scheduler.job_history self ++ stamped_jobs E jobs (clock w) in
  let self' := (add_jobs E self jobs w).1 in
  Scheduler.max_history_size self' = 100
  /\ (length (Scheduler.job_history self') <= 120)%nat
  /\ Scheduler.job_history self' `suffix_of` all
  /\ (Nat.min 100 (length all) <= length (Scheduler.job_history self'))%nat
  /\ (jobs <> [] -> last (Scheduler.job_history self') = last all).
Proof.
  revert self w.
  induction jobs as [|job_info jobs IH]; intros self w Hmax Hlen all self'.
  - subst all self'. cbn [add_jobs stamped_jobs fst]. rewrite app_nil_r.
    split; [done|]. split; [done|]. split; [done|].
    split; [apply Nat.le_min_r|done].
  - subst all self'. rewrite add_jobs_cons. simpl stamped_jobs.
    pose proof (add_job_to_history_history E self job_info w Hmax) as Hh.
    cbn zeta in Hh.
    set (stamped := <["timestamp" := VStr (utcnow E (clock w))]> job_info)
      in *.
    set (self1 := (Scheduler._add_job_to_history E self job_info w).1) in *.
    assert (Hmax1 : Scheduler.max_history_size self1 = 100) by exact Hmax.
    assert (H1 : (length (Scheduler.job_history self1) <= 120)%nat
                 /\ Scheduler.job_history self1
                      `suffix_of` (Scheduler.job_history self ++ [stamped])
                 /\ (Nat.min 100 (length (Scheduler.job_history self) + 1)
                      <= length (Scheduler.job_history self1))%nat
                 /\ last (Scheduler.job_history self1) = Some stamped).
    { rewrite Hh. case_decide as Hd.
      - rewrite length_most_recent.
        split; [lia|]. split; [apply most_recent_suffix|]. split; [lia|].
        destruct (most_recent_snoc 100 (Scheduler.job_history self) stamped)
          as [k ->]; [lia|]. apply last_snoc.
      - rewrite length_app in Hd |- *. cbn [length] in Hd |- *.
        split; [lia|]. split; [done|]. split; [lia|]. apply last_snoc. }
    destruct H1 as (Hlen1 & Hsuf1 & Hmin1 & Hlast1).
    destruct (IH self1 (tick w) Hmax1 Hlen1) as (Hm & Hl & Hs & Hn & Hlast).
    simpl clock in Hs, Hn, Hlast.
    split; [exact Hm|]. split; [exact Hl|]. split; [|split].
    + etrans; [exact Hs|].
      replace (Scheduler.job_history self
               ++ stamped :: stamped_jobs E jobs (S (clock w)))
        with ((Scheduler.job_history self ++ [stamped])
              ++ stamped_jobs E jobs (S (clock w)))
        by (by rewrite <- app_assoc).
      by apply suffix_app.
    + rewrite length_app in Hn |- *. cbn [length]. lia.
    + intros _. destruct jobs as [|job2 jobs].
      * simpl. rewrite last_snoc. exact Hlast1.
      * rewrite Hlast by done. cbn [stamped_jobs].
        by rewrite !last_app_cons.
Qed.

Lemma add_job_to_history_invariant_witness :
  let self' :=
    (add_jobs Run.E Scheduler.ETLScheduler_init
       (replicate 150 Run.completed_job) World_init).1 in
  (length (Scheduler.job_history self') <= 120)%nat
  /\ (100 <= length (Scheduler.job_history self'))%nat.
Proof.
  intros self'.
  destruct (add_job_to_history_invariant Run.E Scheduler.ETLScheduler_init
              (replicate 150 Run.completed_job) World_init)
    as (_ & Hle & _ & Hge & _); [reflexivity|simpl; lia|].
  split; [exact Hle|].
  eapply Nat.le_trans; [|exact Hge].
  apply Nat.min_glb; [lia|]. apply Nat.leb_le. vm_compute. reflexivity.
Defined.

(** X18. [_cleanup_job_history] on a scheduler of positive capacity keeps
    exactly the most recent [max_history_size] records, in order, leaves a
    history within the capacity as it is, and doing it twice is doing it
    once. *)
Theorem cleanup_job_history_most_recent (self : Scheduler.ETLScheduler) :
  0 < Scheduler.max_history_size self ->
  let self' := Scheduler._cleanup_job_history self in
  Scheduler.job_history self'
  = most_recent (Z.to_nat (Scheduler.max_history_size self))
      (Scheduler.job_history self)
  /\ Z.of_nat (length (Scheduler.job_history self'))
     <= Scheduler.max_history_size self
  /\ (Z.of_nat (length (Scheduler.job_history self))
      <= Scheduler.max_history_size self -> self' = self)
  /\ Scheduler._cleanup_job_history self' = self'.
Proof.
  intros Hcap self'. subst self'. unfold Scheduler._cleanup_job_history.
  destruct (Z.gtb_spec (Z.of_nat (length (Scheduler.job_history self)))
              (Scheduler.max_history_size self)) as [Hgt|Hle]; simpl.
  - rewrite slice_from_neg by done.
    split; [done|]. rewrite length_most_recent.
    split; [lia|]. split; [lia|].
    destruct (Z.gtb_spec
                (Z.of_nat (Nat.min (Z.to_nat (Scheduler.max_history_size self))
                             (length (Scheduler.job_history self))))
                (Scheduler.max_history_size self)); [lia|done].
  - split; [symmetry; apply most_recent_all; lia|].
    split; [lia|]. split; [done|].
    destruct (Z.gtb_spec (Z.of_nat (length (Scheduler.job_history self)))
                (Scheduler.max_history_size self)); [lia|done].
Qed.

Lemma cleanup_job_history_most_recent_witness :
  let self :=
    (add_jobs Run.E Scheduler.ETLScheduler_init
       (replicate 150 Run.completed_job) World_init).1 in
  length (Scheduler.job_history self) = 108%nat
  /\ Z.of_nat (length (Scheduler.job_history
                         (Scheduler._cleanup_job_history self))) <= 100.
Proof.
  intros self. split; [vm_compute; reflexivity|].
  apply (cleanup_job_history_most_recent self). reflexivity.
Defined.

(** X19. [get_job_history] returns the whole history for no limit and for
    the limit 0, its most recent [n] records for a limit [n >= 1], and for
    a negative limit [-k] the history without its [k] oldest records. *)
Theorem get_job_history_limit (self : Scheduler.ETLScheduler) (n : Z) :
  Scheduler.get_job_history self None = Scheduler.job_history self
  /\ Scheduler.get_job_history self (Some 0) = Scheduler.job_history self
  /\ (1 <= n ->
      Scheduler.get_job_history self (Some n)
      = most_recent (Z.to_nat n) (Scheduler.job_history self)
      /\ Z.of_nat (length (Scheduler.get_job_history self (Some n))) <= n)
  /\ (n < 0 ->
      Scheduler.get_job_history self (Some n)
      = drop (Z.to_nat (- n)) (Scheduler.job_history self)).
Proof.
  split; [done|]. split; [done|]. unfold Scheduler.get_job_history. split.
  - intros Hn. destruct (Z.eqb_spec n 0); [lia|].
    rewrite slice_from_neg, length_most_recent by lia. split; [done|lia].
  - intros Hn. destruct (Z.eqb_spec n 0); [lia|].
    set (l := Scheduler.job_history self). unfold slice_from.
    destruct (Z.ltb_spec (- n) 0); [lia|].
    destruct (Z.le_gt_cases (- n) (Z.of_nat (length l))).
    + f_equal. lia.
    + rewrite !drop_ge; [done|lia..].
Qed.

Lemma get_job_history_limit_witness :
  let self :=
    (add_jobs Run.E Scheduler.ETLScheduler_init
       (replicate 3 Run.completed_job) World_init).1 in
  1 <= 2 /\ -1 < 0
  /\ length (Scheduler.get_job_history self (Some 2)) = 2%nat
  /\ length (Scheduler.get_job_history self (Some (-1))) = 2%nat.
Proof.
  intros self.
  destruct (get_job_history_limit self 2) as (_ & _ & Hpos & _).
  destruct (get_job_history_limit self (-1)) as (_ & _ & _ & Hneg).
  split; [lia|]. split; [lia|]. split.
  - rewrite (proj1 (Hpos ltac:(lia))). reflexivity.
  - rewrite (Hneg ltac:(lia)). reflexivity.
Defined.

(** ** The scheduled jobs *)

Lemma run_scheduled_logs_run (E : Env) (job_type runs_key : string)
    (session : Scheduler.Session) (run : outcome dict)
    (self : Scheduler.ETLScheduler) (w : World) :
  runs_key <> "job_id" -> runs_key <> "job_type" -> runs_key <> "status" ->
  runs_key <> "error" -> runs_key <> "start_time" -> runs_key <> "end_time" ->
  runs_key <> "data_exports" ->
  logs_run E job_type session run self w
    (Scheduler.run_scheduled E job_type runs_key session run self w).
Proof.
  intros Hk1 Hk2 Hk3 Hk4 Hk5 Hk6 Hk7.
  assert (Hfinished : forall result,
            let job_info :=
              Scheduler.finished_record
                (job_type ++ "_" ++ utcnow_compact E (clock w))%string
                job_type runs_key result in
            (job_info !! "job_type" = Some (VStr job_type)
             /\ job_info !! "job_id"
                = Some (VStr (job_type ++ "_"
                              ++ utcnow_compact E (clock w))%string))
            /\ job_info !! "status" = Some (Scheduler.get result "status")
            /\ job_info !! "error" = Some (Scheduler.get result "error")).
  { intros result job_info. subst job_info. unfold Scheduler.finished_record.
    repeat split;
      repeat (rewrite lookup_insert_eq || rewrite lookup_insert_ne by done);
      done. }
  unfold logs_run, Scheduler.run_scheduled, Scheduler.leave_session.
  destruct (Scheduler.get_db session) as [[]|msg0];
    destruct run as [result0|msg1];
    destruct (Scheduler.db_close session) as [[]|msg2];
    cbn zeta; (split; [|split]); try (by intros ? [=]);
    try (by intros ? _ [=]).
  all: try (intros ? [= <-]; eexists _, _; split; [reflexivity|];
            by repeat split).
  all: try (intros ? _ [= <-]; eexists _, _; split; [reflexivity|];
            by repeat split).
  - intros ? _ [= <-]. eexists _, _. split; [reflexivity|].
    exact (Hfinished result0).
  - intros ? _ [= <-].
    destruct (Hfinished result0) as (Habout & Hstatus & Herror).
    destruct (Scheduler._add_job_to_history E self _ (tick w))
      as [self1 w1] eqn:Hadd.
    eexists _, (tick w), _, _. rewrite Hadd. split; [reflexivity|].
    split; [exact Habout|]. split; [by split|]. by repeat split.
Qed.

(** X20. Each firing of the four scheduled jobs hands to
    [_add_job_to_history] records with the job's type and an id made from
    the clock, and raises nothing. What the job awaits is the
    orchestrator's run for the daily window [today-2, today-1], for today
    (hourly appointments and resource utilization), or for the weekly
    window [today-8, today-1]. When getting the session or the run raises,
    there is one record, with the status "failed" and the message of the
    error, which is that of [db.close()] when that raises too. When the run
    returns, its record is logged with the run's status and error; when
    [db.close()] then raises, a second record follows it, failed, with the
    message of that error. *)
Theorem scheduled_jobs_log_one_record (E : Env)
    (etl_orchestrator : Scheduler.ETLOrchestrator)
    (session : Scheduler.Session)
    (today : Z) (self : Scheduler.ETLScheduler) (w : World) :
  logs_run E "daily_full_etl" session
    (Scheduler.run_full_etl etl_orchestrator (today - 2) (today - 1))
    self w
    (Scheduler._run_daily_full_etl E etl_orchestrator session today self w)
  /\ logs_run E "hourly_appointments_etl" session
       (Scheduler.run_incremental_etl etl_orchestrator "appointments"
          today today)
       self w
       (Scheduler._run_hourly_appointments_etl E etl_orchestrator session
          today self w)
  /\ logs_run E "resource_utilization_etl" session
       (Scheduler.run_incremental_etl etl_orchestrator "resources"
          today today)
       self w
       (Scheduler._run_resource_utilization_etl E etl_orchestrator session
          today self w)
  /\ logs_run E "weekly_doctor_performance_etl" session
       (Scheduler.run_incremental_etl etl_orchestrator "doctors"
          (today - 8) (today - 1))
       self w
       (Scheduler._run_weekly_doctor_performance_etl E etl_orchestrator
          session today self w).
Proof.
  unfold Scheduler._run_daily_full_etl, Scheduler._run_hourly_appointments_etl,
    Scheduler._run_resource_utilization_etl,
    Scheduler._run_weekly_doctor_performance_etl.
  cbn zeta.
  replace (today - 1 - 1) with (today - 2) by lia.
  replace (today - 1 - 7) with (today - 8) by lia.
  repeat split; by apply run_scheduled_logs_run.
Qed.

Lemma scheduled_jobs_log_one_record_witness :
  (exists h w',
     Scheduler._run_daily_full_etl Run.E Run.failing_orchestrator Run.session
       10 Scheduler.ETLScheduler_init World_init = (h, w')
     /\ exists job_info,
          Scheduler.job_history h = [job_info]
          /\ job_info !! "status" = Some (VStr "failed")
          /\ job_info !! "error" = Some (VStr "database connection failed"))
  /\ (exists job_info1 w1 job_info2 w2,
        Scheduler._run_hourly_appointments_etl Run.E Run.working_orchestrator
          Run.unclosable_session 10 Scheduler.ETLScheduler_init World_init
        = Scheduler._add_job_to_history Run.E
            (Scheduler._add_job_to_history Run.E Scheduler.ETLScheduler_init
               job_info1 w1).1
            job_info2 w2
        /\ job_info1 !! "status" = Some (VStr "completed")
        /\ job_info2 !! "status" = Some (VStr "failed")
        /\ job_info2 !! "error" = Some (VStr "connection already closed"))
  /\ (exists job_info w1,
        Scheduler._run_weekly_doctor_performance_etl Run.E
          Run.working_orchestrator Run.no_session 10
          Scheduler.ETLScheduler_init World_init
        = Scheduler._add_job_to_history Run.E Scheduler.ETLScheduler_init
            job_info w1
        /\ job_info !! "error" = Some (VStr "could not connect to server")).
Proof.
  split; [|split].
  - destruct (scheduled_jobs_log_one_record Run.E Run.failing_orchestrator
                Run.session 10 Scheduler.ETLScheduler_init World_init)
      as [(_ & Hfail & _) _].
    destruct (Hfail "database connection failed" eq_refl eq_refl)
      as (job_info & w1 & Hrun & _ & Hstatus & Herror).
    eexists _, _. split; [exact Hrun|].
    exists (<["timestamp" := VStr (utcnow Run.E (clock w1))]> job_info).
    split; [reflexivity|].
    rewrite !lookup_insert_ne by done. split; [exact Hstatus|exact Herror].
  - destruct (scheduled_jobs_log_one_record Run.E Run.working_orchestrator
                Run.unclosable_session 10 Scheduler.ETLScheduler_init
                World_init)
      as (_ & (_ & _ & Htwo) & _).
    destruct (Htwo Run.completed_result eq_refl eq_refl)
      as (job_info1 & w1 & job_info2 & w2 & Hrun & _ & [Hs1 _] & _
          & [Hs2 He2]).
    exists job_info1, w1, job_info2, w2. split; [exact Hrun|].
    split; [exact Hs1|]. split; [exact Hs2|exact He2].
  - destruct (scheduled_jobs_log_one_record Run.E Run.working_orchestrator
                Run.no_session 10 Scheduler.ETLScheduler_init World_init)
      as (_ & _ & _ & (Hnone & _)).
    destruct (Hnone "could not connect to server" eq_refl)
      as (job_info & w1 & Hrun & _ & _ & Herror).
    exists job_info, w1. split; [exact Hrun|exact Herror].
Defined.

(** ** The orchestrator *)

Section FullETL.
Variables (S : Synapse.Services) (start_date end_date : option Z).

Local Abbreviation step := (Synapse.full_etl_step S start_date end_date).

(** A turn of the loop leaves the entries of the other data types alone. *)
Lemma full_etl_step_other (acc : dict * dict) (data_type other : string) :
  other <> data_type ->
  (step acc data_type).1 !! other = acc.1 !! other
  /\ (step acc data_type).2 !! other = acc.2 !! other.
Proof.
  intros Hne. destruct acc as [data_exports pipeline_runs].
  unfold Synapse.full_etl_step.
  destruct (Synapse.export_data_for_synapse S data_type start_date end_date)
    as [data|msg]; simpl; [|by rewrite lookup_insert_ne].
  destruct (Synapse.export_and_upload_data S data data_type "parquet")
    as [files|msg]; simpl; [|by rewrite lookup_insert_ne].
  destruct (Synapse.trigger_pipeline S _ _); simpl;
    by rewrite !lookup_insert_ne.
Qed.

Lemma full_etl_step_other_exports (acc : dict * dict)
    (data_type other : string) :
  other <> data_type -> (step acc data_type).1 !! other = acc.1 !! other.
Proof. intros Hne. by apply full_etl_step_other. Qed.

Lemma full_etl_step_other_runs (acc : dict * dict)
    (data_type other : string) :
  other <> data_type -> (step acc data_type).2 !! other = acc.2 !! other.
Proof. intros Hne. by apply full_etl_step_other. Qed.

(** The entries it makes for its own data type do not depend on what the
    earlier turns made. *)
Lemma full_etl_step_own (acc : dict * dict) (data_type : string) :
  acc.1 !! data_type = None ->
  (step acc data_type).1 !! data_type = (step (∅, ∅) data_type).1 !! data_type
  /\ (step acc data_type).2 !! data_type
     = (step (∅, ∅) data_type).2 !! data_type.
Proof.
  intros Hnone. destruct acc as [data_exports pipeline_runs].
  simpl in Hnone. unfold Synapse.full_etl_step.
  destruct (Synapse.export_data_for_synapse S data_type start_date end_date)
    as [data|msg]; simpl; [|by rewrite !lookup_insert_eq, lookup_empty].
  destruct (Synapse.export_and_upload_data S data data_type "parquet")
    as [files|msg]; simpl; [|by rewrite !lookup_insert_eq, lookup_empty].
  destruct (Synapse.trigger_pipeline S _ _); simpl;
    by rewrite !lookup_insert_eq.
Qed.

(** What a turn alone makes for its data type: a pipeline entry always, a
    failed one with the message when a step raises, and an export entry
    exactly when exporting and uploading returned. *)
Lemma full_etl_step_alone (data_type : string) :
  is_Some ((step (∅, ∅) data_type).2 !! data_type)
  /\ (forall msg,
        Synapse.export_data_for_synapse S data_type start_date end_date
        = Raises msg ->
        (step (∅, ∅) data_type).1 !! data_type = None
        /\ (step (∅, ∅) data_type).2 !! data_type
           = Some (Synapse.failed_run msg))
  /\ (forall data,
        Synapse.export_data_for_synapse S data_type start_date end_date
        = Returns data ->
        (forall msg,
           Synapse.export_and_upload_data S data data_type "parquet"
           = Raises msg ->
           (step (∅, ∅) data_type).1 !! data_type = None
           /\ (step (∅, ∅) data_type).2 !! data_type
              = Some (Synapse.failed_run msg))
        /\ (forall files,
              Synapse.export_and_upload_data S data data_type "parquet"
              = Returns files ->
              (step (∅, ∅) data_type).1 !! data_type = Some files
              /\ forall msg,
                   Synapse.trigger_pipeline S
                     ("hospital_" ++ data_type ++ "_etl_pipeline")%string
                     (<["start_date" := Synapse.iso_or_none S start_date]>
                      (<["end_date" := Synapse.iso_or_none S end_date]>
                       (<["data_files" := files]> ∅)))
                   = Raises msg ->
                   (step (∅, ∅) data_type).2 !! data_type
                   = Some (Synapse.failed_run msg))).
Proof.
  unfold Synapse.full_etl_step.
  destruct (Synapse.export_data_for_synapse S data_type start_date end_date)
    as [data|msg]; cbn [fst snd].
  2:{ rewrite lookup_insert_eq, lookup_empty.
      split; [eauto|]. split; [by intros ? [= <-]|by intros ? [=]]. }
  destruct (Synapse.export_and_upload_data S data data_type "parquet")
    as [files|msg] eqn:Hup; cbn [fst snd].
  2:{ rewrite lookup_insert_eq, lookup_empty.
      split; [eauto|]. split; [by intros ? [=]|].
      intros ? [= <-]. rewrite Hup.
      split; [by intros ? [= <-]|by intros ? [=]]. }
  destruct (Synapse.trigger_pipeline S _ _) as [run|msg] eqn:Htr;
    cbn [fst snd]; rewrite !lookup_insert_eq;
    (split; [eauto|]); (split; [by intros ? [=]|]);
    intros ? [= <-]; rewrite Hup;
    (split; [by intros ? [=]|]); intros ? [= <-];
    (split; [done|]); intros m Hm; rewrite Htr in Hm;
    first [discriminate Hm|by injection Hm as <-].
Qed.
End FullETL.

(** X21. [run_full_etl] always reports the status "completed", with no
    "error" key and with start and end times, whatever fails: for each of
    the three data types the result has in "pipeline_runs" and
    "data_exports" just what that data type's own turn makes, so a failure
    of one data type shows as a failed pipeline entry with its message and
    changes nothing for the others. *)
Theorem run_full_etl_completed (E : Env) (svc : Synapse.Services)
    (start_date end_date : option Z) (w : World) :
  let result := (Synapse.run_full_etl E svc start_date end_date w).1 in
  let alone data_type :=
    Synapse.full_etl_step svc start_date end_date (∅, ∅) data_type in
  result !! "status" = Some (VStr "completed")
  /\ result !! "error" = None
  /\ result !! "start_time" = Some (VStr (utcnow E (clock w)))
  /\ result !! "end_time" = Some (VStr (utcnow E (S (clock w))))
  /\ exists data_exports pipeline_runs,
       result !! "data_exports" = Some (VDict data_exports)
       /\ result !! "pipeline_runs" = Some (VDict pipeline_runs)
       /\ forall data_type,
            data_type ∈ Synapse.data_types ->
            data_exports !! data_type = (alone data_type).1 !! data_type
            /\ pipeline_runs !! data_type = (alone data_type).2 !! data_type
            /\ is_Some (pipeline_runs !! data_type).
Proof.
  intros result alone. subst result. unfold Synapse.run_full_etl.
  destruct (foldl (Synapse.full_etl_step svc start_date end_date) (∅, ∅)
              Synapse.data_types) as [data_exports pipeline_runs] eqn:Hfold.
  cbn [fst].
  split; [reflexivity|]. split; [reflexivity|].
  split; [reflexivity|]. split; [reflexivity|].
  exists data_exports, pipeline_runs.
  split; [reflexivity|]. split; [reflexivity|].
  assert (Hde : data_exports
                = (foldl (Synapse.full_etl_step svc start_date end_date) (∅, ∅)
                     Synapse.data_types).1) by (by rewrite Hfold).
  assert (Hpr : pipeline_runs
                = (foldl (Synapse.full_etl_step svc start_date end_date) (∅, ∅)
                     Synapse.data_types).2) by (by rewrite Hfold).
  clear Hfold. unfold Synapse.data_types in Hde, Hpr.
  cbn [foldl] in Hde, Hpr.
  intros data_type Hin.
  pose proof (full_etl_step_alone svc start_date end_date data_type)
    as [Hsome _].
  assert (Hkeys : data_exports !! data_type = (alone data_type).1 !! data_type
                  /\ pipeline_runs !! data_type
                     = (alone data_type).2 !! data_type).
  { subst data_exports pipeline_runs alone. cbn beta.
    unfold Synapse.data_types in Hin.
    repeat (apply elem_of_cons in Hin as [->|Hin]);
      [| | |by apply elem_of_nil in Hin].
    - by rewrite !full_etl_step_other_exports, !full_etl_step_other_runs
        by done.
    - rewrite full_etl_step_other_exports, full_etl_step_other_runs by done.
      apply full_etl_step_own.
      by rewrite full_etl_step_other_exports by done.
    - apply full_etl_step_own.
      by rewrite !full_etl_step_other_exports by done. }
  destruct Hkeys as [Hk1 Hk2].
  split; [exact Hk1|]. split; [exact Hk2|]. by rewrite Hk2.
Qed.

Lemma run_full_etl_completed_witness :
  let result :=
    (Synapse.run_full_etl Run.E Run.broken_pipeline (Some 0) (Some 1)
       World_init).1 in
  result !! "status" = Some (VStr "completed")
  /\ exists pipeline_runs,
       result !! "pipeline_runs" = Some (VDict pipeline_runs)
       /\ pipeline_runs !! "doctors"
          = Some (Synapse.failed_run "pipeline trigger failed").
Proof.
  intros result.
  destruct (run_full_etl_completed Run.E Run.broken_pipeline (Some 0) (Some 1)
              World_init)
    as (Hstatus & _ & _ & _ & de & pr & _ & Hpr & Hkeys).
  split; [exact Hstatus|]. exists pr. split; [exact Hpr|].
  destruct (Hkeys "doctors") as (_ & -> & _); [|reflexivity].
  unfold Synapse.data_types. by repeat constructor.
Defined.

(** X22. [run_incremental_etl] never leaves the status "running": the
    result has a start and an end time, and its status is "completed",
    with the pipeline's result and no "error" key, exactly when exporting,
    uploading and triggering all returned; otherwise it is "failed", with
    the message of the first step that raised as "error" and no
    "pipeline_run" key, and with "data_exports" only if the upload had
    returned. *)
Theorem run_incremental_etl_status (E : Env) (svc : Synapse.Services)
    (data_type : string) (start_date end_date : Z) (w : World) :
  let result :=
    (Synapse.run_incremental_etl E svc data_type start_date end_date w).1 in
  result !! "start_time" = Some (VStr (utcnow E (clock w)))
  /\ result !! "end_time" = Some (VStr (utcnow E (S (clock w))))
  /\ result !! "job_id" = None
  /\ ((result !! "status" = Some (VStr "completed")
       /\ result !! "error" = None
       /\ exists data files run,
            Synapse.export_data_for_synapse svc data_type (Some start_date)
              (Some end_date) = Returns data
            /\ Synapse.export_and_upload_data svc data
                 (data_type ++ "_incremental")%string "parquet"
               = Returns files
            /\ result !! "data_exports" = Some files
            /\ result !! "pipeline_run" = Some run)
      \/ (result !! "status" = Some (VStr "failed")
          /\ result !! "pipeline_run" = None
          /\ exists msg,
               result !! "error" = Some (VStr msg)
               /\ (Synapse.export_data_for_synapse svc data_type
                     (Some start_date) (Some end_date) = Raises msg
                   /\ result !! "data_exports" = None
                   \/ exists data,
                        Synapse.export_data_for_synapse svc data_type
                          (Some start_date) (Some end_date) = Returns data
                        /\ (Synapse.export_and_upload_data svc data
                              (data_type ++ "_incremental")%string "parquet"
                            = Raises msg
                            /\ result !! "data_exports" = None
                            \/ exists files,
                                 Synapse.export_and_upload_data svc data
                                   (data_type ++ "_incremental")%string
                                   "parquet" = Returns files
                                 /\ result !! "data_exports" = Some files)))).
Proof.
  intros result. subst result. unfold Synapse.run_incremental_etl.
  destruct (Synapse.export_data_for_synapse svc data_type (Some start_date)
              (Some end_date)) as [data|msg].
  2:{ repeat (split; [reflexivity|]). right.
      repeat (split; [reflexivity|]). exists msg. split; [reflexivity|].
      left. by split. }
  destruct (Synapse.export_and_upload_data svc data
              (data_type ++ "_incremental")%string "parquet")
    as [files|msg] eqn:Hup.
  2:{ repeat (split; [reflexivity|]). right.
      repeat (split; [reflexivity|]). exists msg. split; [reflexivity|].
      right. exists data. split; [done|]. left. by split. }
  destruct (Synapse.trigger_pipeline svc _ _) as [run|msg].
  - repeat (split; [reflexivity|]). left.
    repeat (split; [reflexivity|]). exists data, files, run.
    by repeat split.
  - repeat (split; [reflexivity|]). right.
    repeat (split; [reflexivity|]). exists msg. split; [reflexivity|].
    right. exists data. split; [done|]. right. exists files. by split.
Qed.

(** X23. A manual trigger whose session is obtained and closed without
    an error and whose orchestrator is [ETLOrchestrator] (which returns a
    result instead of raising) returns that result: it has no "job_id" key,
    though the logged record has one; the returned and the logged status
    agree and are "completed" or "failed", and the logged error is the
    result's. For the data type "all" the status is "completed" whatever
    failed. *)
Theorem trigger_manual_etl_orchestrated (E : Env)
    (etl_orchestrator : Scheduler.ETLOrchestrator)
    (session : Scheduler.Session)
    (self : Scheduler.ETLScheduler) (data_type : string)
    (start_date end_date : Z) (job_name : option string) (w : World)
    (E' : Env) (svc : Synapse.Services) (w0 : World) :
  Scheduler.get_db session = Returns tt ->
  Scheduler.db_close session = Returns tt ->
  Scheduler.run_full_etl etl_orchestrator start_date end_date
  = Returns (Synapse.run_full_etl E' svc (Some start_date) (Some end_date)
               w0).1 ->
  Scheduler.run_incremental_etl etl_orchestrator data_type start_date end_date
  = Returns (Synapse.run_incremental_etl E' svc data_type start_date end_date
               w0).1 ->
  exists result job_info w1 status,
    Scheduler.trigger_manual_etl E etl_orchestrator session self
      data_type start_date end_date job_name w
    = (result, (Scheduler._add_job_to_history E self job_info w1).1,
       (Scheduler._add_job_to_history E self job_info w1).2)
    /\ result
       = (if String.eqb data_type "all"
          then (Synapse.run_full_etl E' svc (Some start_date) (Some end_date)
                  w0).1
          else (Synapse.run_incremental_etl E' svc data_type start_date
                  end_date w0).1)
    /\ result !! "job_id" = None
    /\ is_Some (job_info !! "job_id")
    /\ result !! "status" = Some (VStr status)
    /\ job_info !! "status" = Some (VStr status)
    /\ (status = "completed" \/ status = "failed")
    /\ (data_type = "all" -> status = "completed")
    /\ job_info !! "error" = Some (default VNone (result !! "error")).
Proof.
  intros Hget Hclose Hfull Hinc.
  unfold Scheduler.trigger_manual_etl, Scheduler.leave_session.
  rewrite Hget, Hclose.
  destruct (String.eqb_spec data_type "all") as [->|Hne].
  - rewrite Hfull. unfold Synapse.run_full_etl.
    destruct (foldl _ _ _) as [data_exports pipeline_runs]. cbn [fst].
    eexists _, _, _, "completed".
    split; [reflexivity|]. repeat (split; [done|]).
    split; [by left|]. split; reflexivity.
  - rewrite Hinc. unfold Synapse.run_incremental_etl.
    destruct (Synapse.export_data_for_synapse svc data_type (Some start_date)
                (Some end_date)) as [data|msg].
    2:{ eexists _, _, _, "failed".
        split; [reflexivity|]. repeat (split; [done|]).
        split; [by right|]. split; [done|reflexivity]. }
    destruct (Synapse.export_and_upload_data svc data _ _) as [files|msg].
    2:{ eexists _, _, _, "failed".
        split; [reflexivity|]. repeat (split; [done|]).
        split; [by right|]. split; [done|reflexivity]. }
    destruct (Synapse.trigger_pipeline svc _ _) as [run|msg].
    + eexists _, _, _, "completed".
      split; [reflexivity|]. repeat (split; [done|]).
      split; [by left|]. split; [done|reflexivity].
    + eexists _, _, _, "failed".
      split; [reflexivity|]. repeat (split; [done|]).
      split; [by right|]. split; [done|reflexivity].
Qed.

Lemma trigger_manual_etl_orchestrated_witness :
  exists result h w',
    Scheduler.trigger_manual_etl Run.E Run.orchestrated Run.session
      Scheduler.ETLScheduler_init "all" 0 30 None World_init = (result, h, w')
    /\ result !! "status" = Some (VStr "completed")
    /\ result !! "job_id" = None.
Proof.
  destruct (trigger_manual_etl_orchestrated Run.E Run.orchestrated
              Run.session Scheduler.ETLScheduler_init "all" 0 30 None
              World_init Run.E Run.broken_pipeline World_init)
    as (result & job_info & w1 & status & Hrun & _ & Hid & _ & Hstatus & _ & _
        & Hall & _); [reflexivity..|].
  eexists _, _, _. split; [exact Hrun|].
  rewrite Hstatus, (Hall eq_refl). by split.
Defined.

Lemma handle_error_with_retry_invocations_witness :
  exists r self' w',
    handle_error_with_retry Run.E Run.always_failing_function "()" "{}" None
      (Some (Run.quick 9)) ETLErrorHandler_init World_init
    = Some (r, self', w')
    /\ Z.of_nat (calls w') <= 5
    /\ max_attempts (RetryConfig_init 5 2) <= attempt_bound ETLErrorHandler_init.
Proof.
  destruct (handle_error_with_retry_invocations Run.E
              Run.always_failing_function "()" "{}" None (Some (Run.quick 9))
              ETLErrorHandler_init World_init)
    as (r & self' & w' & Hrun & _ & Hhi & Hbound).
  exists r, self', w'. split; [exact Hrun|]. split; [exact Hhi|].
  apply (Hbound DATABASE_CONNECTION). reflexivity.
Defined.

Lemma selected_entry_exact_witness :
  selected (Some AUTHENTICATION) (Some CRITICAL) None
    (to_entry Run.auth_error ∅ "2024-01-15T10:00:00")
  /\ ~ selected (Some DATABASE_CONNECTION) None None
        (to_entry Run.auth_error ∅ "2024-01-15T10:00:00").
Proof.
  destruct (selected_entry_exact Run.auth_error ∅ "2024-01-15T10:00:00"
              AUTHENTICATION CRITICAL) as (_ & _ & Hboth).
  destruct (selected_entry_exact Run.auth_error ∅ "2024-01-15T10:00:00"
              DATABASE_CONNECTION CRITICAL) as (Htype & _ & _).
  split.
  - apply Hboth. split; reflexivity.
  - intros Hsel. apply Htype in Hsel. discriminate Hsel.
Defined.

Lemma run_incremental_etl_status_witness :
  let result :=
    (Synapse.run_incremental_etl Run.E Run.broken_pipeline "appointments" 0 1
       World_init).1 in
  result !! "status" = Some (VStr "failed")
  /\ result !! "error" = Some (VStr "pipeline trigger failed")
  /\ result !! "end_time" = Some (VStr "2024-01-15T10:00:00").
Proof.
  intros result.
  destruct (run_incremental_etl_status Run.E Run.broken_pipeline
              "appointments" 0 1 World_init)
    as (_ & Hend & _ & [(Hst & _)|(Hst & _ & msg & Herr & _)]).
  - vm_compute in Hst. discriminate Hst.
  - split; [exact Hst|]. split; [|exact Hend].
    subst result. rewrite Herr.
    vm_compute in Herr. injection Herr as <-. reflexivity.
Defined.
